(** * Mistral ETL: delimiter detection, header unification and row normalisation

    A shallow embedding of the TypeScript sources of the ETL
    (`preprocess.ts` in its schema-unified and NDJSON variants, and the
    shared `utils` module), with the properties of its specification
    stated and proved over it.

    Strings are JavaScript strings: finite sequences of UTF-16 code
    units, here [list N].  Objects used as dictionaries are finite maps
    ([gmap]) where the order of the keys is irrelevant, and association
    lists in enumeration order where it is observable (JSON output). *)

From Stdlib Require Import ZArith NArith Lia List Ascii String DecimalString
  Sorting.Sorted Permutation.
From Stdlib Require Import Floats.SpecFloat.
From stdpp Require Import base option list gmap.

Local Open Scope N_scope.

(** ** JavaScript strings *)

Abbreviation jsstring := (list N).

(** [js "abc"] is the JavaScript string with the same (Latin-1) characters. *)
Definition js (s : string) : jsstring :=
  List.map N_of_ascii (list_ascii_of_string s).

(** Code units with a name in the sources. *)
Definition ch_tab : N := 9.
Definition ch_lf : N := 10.
Definition ch_cr : N := 13.
Definition ch_quote : N := 34.
Definition ch_comma : N := 44.
Definition ch_dot : N := 46.
Definition ch_colon : N := 58.
Definition ch_semicolon : N := 59.
Definition ch_T : N := 84.
Definition ch_underscore : N := 95.
Definition ch_0 : N := 48.

(** WhiteSpace and LineTerminator of ECMAScript: what [trim] removes and
    what the regular expression class [\s] matches. *)
Definition isWhiteSpace (c : N) : bool :=
  (c =? 9) || (c =? 10) || (c =? 11) || (c =? 12) || (c =? 13) || (c =? 32)
  || (c =? 160) || (c =? 5760) || ((8192 <=? c) && (c <=? 8202))
  || (c =? 8232) || (c =? 8233) || (c =? 8239) || (c =? 8287)
  || (c =? 12288) || (c =? 65279).

Fixpoint dropWhile {A} (p : A -> bool) (l : list A) : list A :=
  match l with
  | [] => []
  | x :: l' => if p x then dropWhile p l' else l
  end.

Fixpoint takeWhile {A} (p : A -> bool) (l : list A) : list A :=
  match l with
  | [] => []
  | x :: l' => if p x then x :: takeWhile p l' else []
  end.

Definition trimStart (s : jsstring) : jsstring := dropWhile isWhiteSpace s.
Definition trimEnd (s : jsstring) : jsstring :=
  rev (dropWhile isWhiteSpace (rev s)).

(** [String.prototype.trim]. *)
Definition trim (s : jsstring) : jsstring := trimEnd (trimStart s).

(** [String.prototype.split] with a separator of one code unit, the only
    use the sources make of it.  The result is never empty. *)
Fixpoint split (sep : N) (s : jsstring) : list jsstring :=
  match s with
  | [] => [[]]
  | c :: s' =>
      if c =? sep then [] :: split sep s'
      else match split sep s' with
           | p :: ps => (c :: p) :: ps
           | [] => [[c]]
           end
  end.

(** [a[i]] on an array of strings; [None] is [undefined]. *)
Definition at_index (a : list jsstring) (i : nat) : option jsstring := a !! i.

(** [a[0]] where the array is known to hold a string there. *)
Definition first (a : list jsstring) : jsstring := default [] (at_index a 0).

(** [String.prototype.includes] for one code unit. *)
Definition includes (c : N) (s : jsstring) : bool := existsb (N.eqb c) s.

Fixpoint startsWith (p s : jsstring) : bool :=
  match p, s with
  | [], _ => true
  | _ :: _, [] => false
  | a :: p', b :: s' => (a =? b) && startsWith p' s'
  end.

Definition endsWith (p s : jsstring) : bool := startsWith (rev p) (rev s).

(** [String.prototype.padStart(n, "0")]. *)
Definition padStart0 (n : nat) (s : jsstring) : jsstring :=
  repeat ch_0 (n - length s)%nat ++ s.

(** ** Logging

    The winston logger is a side channel: every function that logs
    returns the entries it wrote next to its result. *)

Inductive Level := Info | Warn | Error.

Record LogEntry := mkLog { level : Level; message : jsstring }.

(** ** utils: time validation, timestamp assembly, delimiter detection *)

Definition isDigit (c : N) : bool := (48 <=? c) && (c <=? 57).
Definition inClass (lo hi c : N) : bool := (lo <=? c) && (c <=? hi).

(** [/^([01]\d|2[0-3]):([0-5]\d):([0-5]\d)$/.test(time)] *)
Definition isValidTime (time : jsstring) : bool :=
  match time with
  | [h1; h2; c1; m1; m2; c2; s1; s2] =>
      ((inClass 48 49 h1 && isDigit h2) || ((h1 =? 50) && inClass 48 51 h2))
      && (c1 =? ch_colon)
      && (inClass 48 53 m1 && isDigit m2)
      && (c2 =? ch_colon)
      && (inClass 48 53 s1 && isDigit s2)
  | _ => false
  end.

Definition fallbackTime : jsstring := js "00:00:00".
Definition utcOffset : jsstring := js "-03:00".

(** The text a template literal shows for an optional string. *)
Definition showOptional (t : option jsstring) : jsstring :=
  match t with
  | Some s => s
  | None => js "undefined"
  end.

Definition invalidTimeWarning (timeString : option jsstring) : LogEntry :=
  mkLog Warn
    (js "Invalid or missing time value " ++ [ch_quote]
     ++ showOptional timeString ++ [ch_quote]
     ++ js ", using fallback " ++ [ch_quote] ++ fallbackTime ++ [ch_quote]
     ++ js ".").

(** [combineDateTime(dateString, timeString?)]: the timestamp and the
    warnings logged.  An absent [timeString] is [None]; the empty string
    is falsy, as in the source's [timeString && ...]. *)
Definition combineDateTime (dateString : jsstring)
    (timeString : option jsstring) : jsstring * list LogEntry :=
  let cleanedDate := trim (first (split ch_T dateString)) in
  let '(cleanedTime, logged) :=
    match timeString with
    | Some t =>
        if negb (bool_decide (t = [])) && isValidTime (trim (first (split ch_dot t)))
        then (trim (first (split ch_dot t)), [])
        else (fallbackTime, [invalidTimeWarning timeString])
    | None => (fallbackTime, [invalidTimeWarning timeString])
    end in
  (cleanedDate ++ [ch_T] ++ cleanedTime ++ utcOffset, logged).

(** [detectDelimiter] after the file has been read: the first line is
    what precedes the first line feed. *)
Definition delimiterWarning (filePath : jsstring) : LogEntry :=
  mkLog Warn
    (js "Could not detect delimiter in file: " ++ filePath
     ++ js ". Defaulting to ','").

Definition detectDelimiterIn (filePath content : jsstring)
    : jsstring * list LogEntry :=
  let firstLine := first (split ch_lf content) in
  if includes ch_tab firstLine then ([ch_tab], [])
  else if includes ch_semicolon firstLine then ([ch_semicolon], [])
  else if includes ch_comma firstLine then ([ch_comma], [])
  else ([ch_comma], [delimiterWarning filePath]).

(** [detectDelimiter(filePath)]: [readFileSync] raises when the file
    cannot be read, which is [None] here. *)
Definition detectDelimiter (readFileSync : jsstring -> option jsstring)
    (filePath : jsstring) : option (jsstring * list LogEntry) :=
  match readFileSync filePath with
  | Some content => Some (detectDelimiterIn filePath content)
  | None => None
  end.

(** [detectFileFormat(fileName)] *)
Inductive FileFormat := csv_format | tsv_format.

Definition detectFileFormat (fileName : jsstring) : FileFormat :=
  if endsWith (js ".csv") fileName then csv_format else tsv_format.

(** ** Schema-unified variant: headers *)

(** [detectSeparator(filePath)]: by file extension. *)
Definition detectSeparator (filePath : jsstring) : jsstring :=
  if endsWith (js ".tsv") filePath then [ch_semicolon]
  else if endsWith (js ".csv") filePath then [ch_comma]
  else [ch_comma].

(** [String.prototype.toLowerCase], one code unit at a time.  ASCII and
    Latin-1 capitals are mapped in full; beyond Latin-1 the table lists
    the capitals whose lower case reaches Latin-1 (dotted capital I,
    Kelvin and Angstrom signs).  The other capitals, whose lower case
    lies beyond Latin-1 as they do, are left as they are: the one caller,
    [standardizeHeader], drops both alike in its last step. *)
Definition lowerUnit (c : N) : jsstring :=
  if inClass 65 90 c then [c + 32]
  else if inClass 192 222 c && negb (c =? 215) then [c + 32]
  else if c =? 304 then [105; 775]
  else if c =? 8490 then [107]
  else if c =? 8491 then [229]
  else [c].

Definition toLowerCase (s : jsstring) : jsstring := flat_map lowerUnit s.

(** [s.replace(/\s+/g, "_")]: [inRun] tells that the previous code unit
    was white space, already replaced. *)
Fixpoint replaceWhiteSpaceRuns (inRun : bool) (s : jsstring) : jsstring :=
  match s with
  | [] => []
  | c :: s' =>
      if isWhiteSpace c
      then (if inRun then replaceWhiteSpaceRuns true s'
            else ch_underscore :: replaceWhiteSpaceRuns true s')
      else c :: replaceWhiteSpaceRuns false s'
  end.

(** The class [[a-z0-9_]]. *)
Definition isHeaderChar (c : N) : bool :=
  inClass 97 122 c || inClass 48 57 c || (c =? ch_underscore).

(** [s.replace(/[^a-z0-9_]/g, "")] *)
Definition stripNonHeaderChars (s : jsstring) : jsstring :=
  List.filter isHeaderChar s.

Definition standardizeHeader (header : jsstring) : jsstring :=
  stripNonHeaderChars
    (replaceWhiteSpaceRuns false (toLowerCase (trim header))).

(** *** The host: file system, CSV parser, calendar

    What the program takes from Node and its packages.  [parseCsv sep
    path] is what csv-parser makes of the file at [path] read with
    separator [sep]: its records as lists of raw cells, the header line
    first, or [None] when the stream reports an error.  [dateParse s] is
    [new Date(s).getTime()], [None] for NaN; [formatDate t] is date-fns'
    [format(d, "yyyy-MM-dd")] of the date with time value [t]. *)
Record Runtime := mkRuntime {
  inputDirectory : jsstring;
  parseCsv : jsstring -> jsstring -> option (list (list jsstring));
  dateParse : jsstring -> option Z;
  formatDate : Z -> jsstring
}.

(** [path.join(dir, file)] for a file name as [readdirSync] lists it. *)
Definition pathJoin (dir file : jsstring) : jsstring := dir ++ js "/" ++ file.

(** A [Set] of strings in insertion order. *)
Definition setAdd (s : list jsstring) (x : jsstring) : list jsstring :=
  if bool_decide (x ∈ s) then s else s ++ [x].

(** Comparison of strings by code units, the default order of
    [Array.prototype.sort]. *)
Fixpoint jsstring_leb (a b : jsstring) : bool :=
  match a, b with
  | [], _ => true
  | _ :: _, [] => false
  | x :: a', y :: b' => (x <? y) || ((x =? y) && jsstring_leb a' b')
  end.

Fixpoint insertSorted (x : jsstring) (l : list jsstring) : list jsstring :=
  match l with
  | [] => [x]
  | y :: l' => if jsstring_leb x y then x :: l else y :: insertSorted x l'
  end.

(** [Array.prototype.sort()] on strings. *)
Definition sortStrings (l : list jsstring) : list jsstring :=
  foldr insertSorted [] l.

(** The two entries logged for a file whose stream fails (the text of
    the stream's own error message is not kept). *)
Definition headerErrorLog (file : jsstring) : list LogEntry :=
  [ mkLog Error (js "Error reading headers from " ++ file);
    mkLog Error (js "Failed to process file " ++ file
                 ++ js " during header collection.") ].

(** The loop of [collectUniqueHeaders]: the set so far and the log.  A
    file whose stream fails is logged and skipped.  A file without any
    record fires neither the [headers] nor the [error] event, and the
    promise awaited for it never settles: [None]. *)
Fixpoint collectLoop (rt : Runtime) (files : list jsstring)
    (allHeaders : list jsstring) (log : list LogEntry)
    : option (list jsstring * list LogEntry) :=
  match files with
  | [] => Some (allHeaders, log)
  | file :: rest =>
      let filePath := pathJoin (inputDirectory rt) file in
      let separator := detectSeparator filePath in
      match parseCsv rt separator filePath with
      | None => collectLoop rt rest allHeaders (log ++ headerErrorLog file)
      | Some [] => None
      | Some (cells :: _) =>
          let headers := List.map standardizeHeader cells in
          collectLoop rt rest (foldl setAdd allHeaders headers) log
      end
  end.

Definition collectUniqueHeaders (rt : Runtime) (files : list jsstring)
    : option (list jsstring * list LogEntry) :=
  match collectLoop rt files [] [] with
  | Some (allHeaders, log) => Some (sortStrings allHeaders, log)
  | None => None
  end.

(** ** Schema-unified variant: field normalisers *)

(** [normalizeDate(dateString)] *)
Definition normalizeDate (rt : Runtime) (dateString : jsstring) : jsstring :=
  if bool_decide (dateString = []) then []
  else match dateParse rt dateString with
       | None => []
       | Some t => formatDate rt t
       end.

(** [normalizeTime(timeString)]: [timeParts[2]] is used when it is there
    and not empty. *)
Definition normalizeTime (timeString : jsstring) : jsstring :=
  if bool_decide (timeString = []) then []
  else
    let timeParts := split ch_colon timeString in
    if (2 <=? length timeParts)%nat then
      let hours := padStart0 2 (default [] (at_index timeParts 0)) in
      let minutes := padStart0 2 (default [] (at_index timeParts 1)) in
      let seconds :=
        match at_index timeParts 2 with
        | Some (c :: p) => padStart0 2 (c :: p)
        | _ => js "00"
        end in
      hours ++ [ch_colon] ++ minutes ++ [ch_colon] ++ seconds
    else [].

(** *** Numbers

    A JavaScript number is an IEEE 754 binary64 value: [spec_float] with
    53 bits of precision and exponents up to 1024. *)
Definition prec : Z := 53.
Definition emax : Z := 1024.
Abbreviation number := spec_float.

Definition zero : number := S754_zero false.

Definition isNaN (x : number) : bool :=
  match x with S754_nan => true | _ => false end.

Definition isFinite (x : number) : bool :=
  match x with S754_zero _ | S754_finite _ _ _ => true | _ => false end.

(** The value of a run of decimal digits. *)
Definition digitsValue (ds : jsstring) : Z :=
  fold_left (fun acc d => (10 * acc + Z.of_N (d - 48))%Z) ds 0%Z.

(** The number nearest to [m * 10^e], ties to even, for [m >= 0]. *)
Definition decimalToNumber (neg : bool) (m e : Z) : number :=
  match m with
  | Zpos p =>
      if (0 <=? e)%Z
      then binary_round prec emax neg (p * Z.to_pos (10 ^ e))%positive 0
      else
        let '(q, e', l) :=
          SFdiv_core_binary prec emax m 0 (10 ^ (- e))%Z 0 in
        binary_round_aux prec emax neg q e' l
  | _ => S754_zero neg
  end.

(** The exponent part of a decimal literal, [[eE][+-]?[0-9]+], when the
    text starts with one: its value. *)
Definition exponentPart (s : jsstring) : Z :=
  match s with
  | c :: s1 =>
      if (c =? 101) || (c =? 69) then
        match s1 with
        | sg :: s2 =>
            if sg =? 45 then
              match takeWhile isDigit s2 with
              | [] => 0%Z
              | ds => (- digitsValue ds)%Z
              end
            else if sg =? 43 then digitsValue (takeWhile isDigit s2)
            else digitsValue (takeWhile isDigit s1)
        | [] => 0%Z
        end
      else 0%Z
  | [] => 0%Z
  end.

(** The unsigned part of the longest prefix that is a StrDecimalLiteral:
    [Infinity], or digits with an optional fraction and exponent. *)
Definition parseUnsigned (neg : bool) (s : jsstring) : number :=
  if startsWith (js "Infinity") s then S754_infinity neg
  else
    let intDigits := takeWhile isDigit s in
    let afterInt := dropWhile isDigit s in
    match afterInt with
    | c :: afterDot =>
        if c =? ch_dot then
          let fracDigits := takeWhile isDigit afterDot in
          match intDigits, fracDigits with
          | [], [] => S754_nan
          | _, _ =>
              decimalToNumber neg (digitsValue (intDigits ++ fracDigits))
                (exponentPart (dropWhile isDigit afterDot)
                 - Z.of_nat (length fracDigits))
          end
        else
          match intDigits with
          | [] => S754_nan
          | _ => decimalToNumber neg (digitsValue intDigits)
                   (exponentPart afterInt)
          end
    | [] =>
        match intDigits with
        | [] => S754_nan
        | _ => decimalToNumber neg (digitsValue intDigits) 0
        end
    end.

(** [parseFloat(string)] *)
Definition parseFloat (s : jsstring) : number :=
  match trimStart s with
  | c :: s' =>
      if c =? 45 then parseUnsigned true s'
      else if c =? 43 then parseUnsigned false s'
      else parseUnsigned false (c :: s')
  | [] => S754_nan
  end.

(** [s.replace(",", ".")]: the first comma only. *)
Fixpoint replaceFirstComma (s : jsstring) : jsstring :=
  match s with
  | [] => []
  | c :: s' => if c =? ch_comma then ch_dot :: s' else c :: replaceFirstComma s'
  end.

(** [parseNumericField(value)] *)
Definition parseNumericField (value : jsstring) : number :=
  if bool_decide (value = []) then zero
  else
    let numericValue := replaceFirstComma value in
    let parsed := parseFloat numericValue in
    if isNaN parsed then zero else parsed.

(** ** Schema-unified variant: rows *)

(** A field of an output record: a string, or a number once coerced. *)
Inductive Cell := CStr (s : jsstring) | CNum (x : number).

Definition knownNumericFields : list jsstring :=
  [ js "auto"; js "moto"; js "ciclom"; js "ciclista"; js "pedestre";
    js "onibus"; js "caminhao"; js "viatura"; js "outros"; js "vitimas";
    js "vitimasfatais" ].

(** The heuristic that picks the numeric columns. *)
Definition isNumericField (header : jsstring) : bool :=
  bool_decide (header ∈ knownNumericFields)
  || startsWith (js "num_") header
  || endsWith (js "_count") header.

(** The decimal numeral of an index. *)
Definition decimal (n : nat) : jsstring :=
  js (NilZero.string_of_uint (Nat.to_uint n)).

(** The row object csv-parser builds from the cells of a record: cell
    [i] is stored under header [i], a later column of the same name
    overwriting an earlier one, and a cell beyond the headers under
    [_i].  Row objects are read as dictionaries of their own properties:
    the names every object inherits ([constructor], [__proto__]) are
    taken not to occur as headers. *)
Fixpoint writeRow (headers : list jsstring) (i : nat) (cells : list jsstring)
    (o : gmap jsstring jsstring) : gmap jsstring jsstring :=
  match cells with
  | [] => o
  | cell :: cells' =>
      let key := match headers !! i with
                 | Some h => h
                 | None => js "_" ++ decimal i
                 end in
      writeRow headers (S i) cells' (<[key := cell]> o)
  end.

(** [row[header] || ""] *)
Definition orEmpty (v : option jsstring) : jsstring :=
  match v with
  | Some (c :: s) => c :: s
  | _ => []
  end.

(** The first loop of the transform: every header of the schema gets a
    string. *)
Definition mapColumns (allHeaders : list jsstring)
    (row : gmap jsstring jsstring) : gmap jsstring jsstring :=
  foldl (fun acc header => <[header := orEmpty (row !! header)]> acc)
        ∅ allHeaders.

(** [if (r[key]) r[key] = f(r[key])] *)
Definition normalizeIfPresent (key : jsstring) (f : jsstring -> jsstring)
    (r : gmap jsstring jsstring) : gmap jsstring jsstring :=
  match r !! key with
  | Some (c :: s) => <[key := f (c :: s)]> r
  | _ => r
  end.

(** [r[field] = parseNumericField(r[field])] on a record whose earlier
    fields may already be numbers.  A number that is neither zero nor
    NaN has no [replace] method: the call raises, which is [None]. *)
Definition coerceField (r : gmap jsstring Cell) (field : jsstring)
    : option (gmap jsstring Cell) :=
  match r !! field with
  | Some (CStr s) => Some (<[field := CNum (parseNumericField s)]> r)
  | Some (CNum x) =>
      match x with
      | S754_zero _ | S754_nan => Some (<[field := CNum zero]> r)
      | _ => None
      end
  | None => Some (<[field := CNum zero]> r)
  end.

Fixpoint coerceFields (r : gmap jsstring Cell) (fields : list jsstring)
    : option (gmap jsstring Cell) :=
  match fields with
  | [] => Some r
  | field :: rest =>
      match coerceField r field with
      | Some r' => coerceFields r' rest
      | None => None
      end
  end.

(** The body of the transform generator of [preprocessFile] for one row:
    the record it yields, or [None] when it raises. *)
Definition transformRow (rt : Runtime) (allHeaders : list jsstring)
    (row : gmap jsstring jsstring) : option (gmap jsstring Cell) :=
  let standardizedRow := mapColumns allHeaders row in
  let standardizedRow :=
    normalizeIfPresent (js "data") (normalizeDate rt) standardizedRow in
  let standardizedRow :=
    normalizeIfPresent (js "hora") normalizeTime standardizedRow in
  let numericFields := List.filter isNumericField allHeaders in
  coerceFields (CStr <$> standardizedRow) numericFields.

(** The rows of a file in order: the records written before the first
    row that raises, and whether the stream ran to its end. *)
Fixpoint transformRows (rt : Runtime) (allHeaders headers : list jsstring)
    (records : list (list jsstring)) : list (gmap jsstring Cell) * bool :=
  match records with
  | [] => ([], true)
  | cells :: rest =>
      match transformRow rt allHeaders (writeRow headers 0 cells ∅) with
      | Some r =>
          let '(written, ok) := transformRows rt allHeaders headers rest in
          (r :: written, ok)
      | None => ([], false)
      end
  end.

(** What [preprocessFile] leaves behind: the columns the writer is set
    up with ([allHeaders]; it writes the header line with its first
    record), the records written, and the log. *)
Record FileOutput := mkOutput {
  columns : list jsstring;
  written : list (gmap jsstring Cell);
  fileLog : list LogEntry
}.

Definition processingLog (fileName : jsstring) : LogEntry :=
  mkLog Info (js "Processing file: " ++ fileName).
Definition successLog (fileName : jsstring) : LogEntry :=
  mkLog Info (js "Successfully processed file: " ++ fileName).
Definition failureLog (fileName : jsstring) : LogEntry :=
  mkLog Error (js "Error processing file " ++ fileName).

(** [preprocessFile(fileName, allHeaders)] of the schema-unified variant. *)
Definition preprocessFile (rt : Runtime) (fileName : jsstring)
    (allHeaders : list jsstring) : FileOutput :=
  let filePath := pathJoin (inputDirectory rt) fileName in
  let separator := detectSeparator filePath in
  match parseCsv rt separator filePath with
  | None => mkOutput allHeaders [] [processingLog fileName; failureLog fileName]
  | Some [] =>
      mkOutput allHeaders [] [processingLog fileName; successLog fileName]
  | Some (cells :: records) =>
      let headers := List.map standardizeHeader cells in
      let '(out, ok) := transformRows rt allHeaders headers records in
      mkOutput allHeaders out
        [processingLog fileName;
         if ok then successLog fileName else failureLog fileName]
  end.

(** The files [preprocessAllFiles] keeps of a directory listing. *)
Definition isInputFile (file : jsstring) : bool :=
  startsWith (js "sinistros") file
  && (endsWith (js ".csv") file || endsWith (js ".tsv") file
      || endsWith (js ".txt") file).

(** [preprocessAllFiles()] on a directory listing: the schema, then every
    file against it.  [None] when header collection never returns. *)
Definition preprocessAllFiles (rt : Runtime) (listing : list jsstring)
    : option (list (jsstring * FileOutput)) :=
  let files := List.filter isInputFile listing in
  match files with
  | [] => Some []
  | _ =>
      match collectUniqueHeaders rt files with
      | Some (allHeaders, _) =>
          Some (List.map (fun file => (file, preprocessFile rt file allHeaders))
                         files)
      | None => None
      end
  end.

(** The text before the last dot of a name, when it holds a dot. *)
Fixpoint beforeLastDot (s : jsstring) : option jsstring :=
  match s with
  | [] => None
  | c :: s' =>
      match beforeLastDot s' with
      | Some p => Some (c :: p)
      | None => if c =? ch_dot then Some [] else None
      end
  end.

(** [path.parse(fileName).name] for a name without a slash, as
    [readdirSync] lists them: the text before the last dot, unless the
    name holds no dot, its last dot is its first character, or it is the
    name [..]. *)
Definition pathParseName (fileName : jsstring) : jsstring :=
  match beforeLastDot fileName with
  | Some (c :: p) =>
      if bool_decide (fileName = js "..") then fileName else c :: p
  | _ => fileName
  end.

(** The name of the file [preprocessFile] writes. *)
Definition outputFileName (fileName : jsstring) : jsstring :=
  pathParseName fileName ++ js "_processed.csv".

(** The directory of outputs after [preprocessAllFiles], as the records
    each of its files holds: the files are processed one after the other,
    each written under its output name, [createWriteStream] emptying what
    an earlier file left under the same name. *)
Definition processedDirectory (outs : list (jsstring * FileOutput))
    : gmap jsstring (list (gmap jsstring Cell)) :=
  foldl (fun dir fo => <[outputFileName (fst fo) := written (snd fo)]> dir)
        ∅ outs.

(** ** A concrete host

    The fragments of csv-parser, of the engine's [Date] and of date-fns
    that the end-to-end scenario exercises.  Outside the shapes named
    here the fragments say nothing about the libraries. *)

(** A file system: paths and contents. *)
Definition lookupFile (files : list (jsstring * jsstring)) (path : jsstring)
    : option jsstring :=
  snd <$> List.find (fun f => bool_decide (fst f = path)) files.

Definition stripCR (line : jsstring) : jsstring :=
  match rev line with
  | c :: r => if c =? ch_cr then rev r else line
  | [] => []
  end.

(** The lines of a file: a final line feed ends the last line. *)
Definition csvLines (content : jsstring) : list jsstring :=
  match rev (split ch_lf content) with
  | [] :: r => rev r
  | _ => split ch_lf content
  end.

(** csv-parser on input without quotes or blank lines: one record per
    line, cut at the separator. *)
Definition csvRecords (separator content : jsstring) : list (list jsstring) :=
  let sep := match separator with c :: _ => c | [] => ch_comma end in
  List.map (fun line => split sep (stripCR line)) (csvLines content).

Local Open Scope Z_scope.

(** Days since 1970-01-01 of a date of the proleptic Gregorian calendar. *)
Definition daysFromCivil (y m d : Z) : Z :=
  let y' := if m <=? 2 then y - 1 else y in
  let era := y' / 400 in
  let yoe := y' - era * 400 in
  let doy := (153 * (if 2 <? m then m - 3 else m + 9) + 2) / 5 + d - 1 in
  let doe := yoe * 365 + yoe / 4 - yoe / 100 + doy in
  era * 146097 + doe - 719468.

Definition civilFromDays (days : Z) : Z * Z * Z :=
  let z := days + 719468 in
  let era := z / 146097 in
  let doe := z - era * 146097 in
  let yoe := (doe - doe / 1460 + doe / 36524 - doe / 146096) / 365 in
  let doy := doe - (365 * yoe + yoe / 4 - yoe / 100) in
  let mp := (5 * doy + 2) / 153 in
  let d := doy - (153 * mp + 2) / 5 + 1 in
  let m := if mp <? 10 then mp + 3 else mp - 9 in
  (if m <=? 2 then yoe + era * 400 + 1 else yoe + era * 400, m, d).

Definition isLeapYear (y : Z) : bool :=
  ((y mod 4 =? 0) && negb (y mod 100 =? 0)) || (y mod 400 =? 0).

Definition daysInMonth (y m : Z) : Z :=
  if m =? 2 then (if isLeapYear y then 29 else 28)
  else if (m =? 4) || (m =? 6) || (m =? 9) || (m =? 11) then 30
  else 31.

Definition validDate (y m d : Z) : bool :=
  (1 <=? m) && (m <=? 12) && (1 <=? d) && (d <=? daysInMonth y m).

Definition msPerDay : Z := 86400000.
Definition msPerMinute : Z := 60000.

Definition allDigits (s : jsstring) : bool :=
  negb (bool_decide (s = [])) && forallb isDigit s.

(** The day an ISO date [YYYY-MM-DD] names. *)
Definition isoDate (s : jsstring) : option Z :=
  match split 45%N s with
  | [y; m; d] =>
      if allDigits y && allDigits m && allDigits d
         && (length y =? 4)%nat && (length m =? 2)%nat && (length d =? 2)%nat
         && validDate (digitsValue y) (digitsValue m) (digitsValue d)
      then Some (daysFromCivil (digitsValue y) (digitsValue m) (digitsValue d))
      else None
  | _ => None
  end.

(** The day a numeric date [M/D/YYYY] names: the month comes first. *)
Definition numericDate (s : jsstring) : option Z :=
  match split 47%N s with
  | [m; d; y] =>
      if allDigits y && allDigits m && allDigits d
         && (length y =? 4)%nat && (length m <=? 2)%nat && (length d <=? 2)%nat
         && validDate (digitsValue y) (digitsValue m) (digitsValue d)
      then Some (daysFromCivil (digitsValue y) (digitsValue m) (digitsValue d))
      else None
  | _ => None
  end.

(** [new Date(s).getTime()] under V8, on a host [tz] minutes east of UTC
    without daylight saving, for two shapes of [s]: the ISO date, read
    as midnight UTC, and the numeric date, read as midnight local
    time. *)
Definition v8DateParse (tz : Z) (s : jsstring) : option Z :=
  match isoDate s with
  | Some day => Some (day * msPerDay)
  | None =>
      match numericDate s with
      | Some day => Some (day * msPerDay - tz * msPerMinute)
      | None => None
      end
  end.

(** [yyyy-MM-dd] for years 0 to 9999. *)
Definition formatCivil (date : Z * Z * Z) : jsstring :=
  let '(y, m, d) := date in
  padStart0 4 (decimal (Z.to_nat y)) ++ js "-"
  ++ padStart0 2 (decimal (Z.to_nat m)) ++ js "-"
  ++ padStart0 2 (decimal (Z.to_nat d)).

(** date-fns' [format(d, "yyyy-MM-dd")]: the calendar date of the time
    value on the host's clock. *)
Definition formatYMD (tz : Z) (t : Z) : jsstring :=
  formatCivil (civilFromDays ((t + tz * msPerMinute) / msPerDay)).

Local Close Scope Z_scope.

(** Node with the files [files] under the directory [data], on a host
    [tz] minutes east of UTC.  The paths are those of [files]: a path
    outside them stands for a stream that fails, not for a missing
    file. *)
Definition nodeHost (tz : Z) (files : list (jsstring * jsstring)) : Runtime :=
  mkRuntime (js "data")
    (fun separator path => csvRecords separator <$> lookupFile files path)
    (v8DateParse tz) (formatYMD tz).

(** The two files of the end-to-end scenario. *)
Definition colisao : jsstring := js "Colis" ++ [227] ++ js "o".

Definition fileA : jsstring :=
  js "Data,Hora,Tipo" ++ [ch_lf] ++ js "01/03/2024,14:5," ++ colisao ++ [ch_lf].

Definition fileB : jsstring :=
  js "data;situacao" ++ [ch_lf] ++ js "2024-03-02;Resolvido" ++ [ch_lf].

Definition scenarioFiles (nameA nameB : jsstring)
    : list (jsstring * jsstring) :=
  [ (pathJoin (js "data") nameA, fileA); (pathJoin (js "data") nameB, fileB) ].

Definition scenario (tz : Z) (nameA nameB : jsstring)
    : option (list (jsstring * FileOutput)) :=
  preprocessAllFiles (nodeHost tz (scenarioFiles nameA nameB)) [nameA; nameB].

(** Reading a field of the [i]-th record written for the [n]-th file. *)
Definition fieldOf (out : option (list (jsstring * FileOutput)))
    (n i : nat) (key : jsstring) : option Cell :=
  '(_, o) ← out ≫= (fun l => l !! n);
  r ← written o !! i;
  r !! key.

(** ** NDJSON variant *)

Module Ndjson.

(** The values of the rows [JSON.stringify] can write: undefined, null,
    strings and objects of these.  An object is the list of its own
    properties in enumeration order.  The transform takes its row as
    [any]: [AnyRow] below adds the values [JSON.stringify] refuses. *)
#[warnings="-register-all"]
Inductive JsVal :=
  | JUndefined
  | JNull
  | JStr (s : jsstring)
  | JObj (fields : list (jsstring * JsVal)).

(** What the row code can raise. *)
Inductive JsError :=
  | CannotReadProperty (target : JsVal) (prop : jsstring)
  | NotAFunction (what : jsstring).

Definition truthy (v : JsVal) : bool :=
  match v with
  | JUndefined | JNull => false
  | JStr s => negb (bool_decide (s = []))
  | JObj _ => true
  end.

(** [a || b] *)
Definition or (a b : JsVal) : JsVal := if truthy a then a else b.

Fixpoint lookupProp (fields : list (jsstring * JsVal)) (prop : jsstring)
    : option JsVal :=
  match fields with
  | [] => None
  | (k, v) :: rest =>
      if bool_decide (k = prop) then Some v else lookupProp rest prop
  end.

(** [v.prop] for a property name that no prototype defines. *)
Definition getProp (v : JsVal) (prop : jsstring) : JsError + JsVal :=
  match v with
  | JUndefined | JNull => inl (CannotReadProperty v prop)
  | JStr _ => inr JUndefined
  | JObj fields => inr (default JUndefined (lookupProp fields prop))
  end.

(** [Object.entries(v)] of a value that is neither null nor undefined. *)
Definition entries (v : JsVal) : list (jsstring * JsVal) :=
  match v with
  | JObj fields => fields
  | JStr s => imap (fun i c => (decimal i, JStr [c])) s
  | _ => []
  end.

(** [o[k] = v]: an existing property keeps its place. *)
Fixpoint setProp (fields : list (jsstring * JsVal)) (k : jsstring) (v : JsVal)
    : list (jsstring * JsVal) :=
  match fields with
  | [] => [(k, v)]
  | (k', v') :: rest =>
      if bool_decide (k' = k) then (k, v) :: rest
      else (k', v') :: setProp rest k v
  end.

(** [Object.fromEntries(l)] *)
Definition fromEntries (l : list (jsstring * JsVal)) : JsVal :=
  JObj (foldl (fun o kv => setProp o (fst kv) (snd kv)) [] l).

(** *** JSON.stringify *)

Definition hexDigit (d : N) : N := if d <? 10 then 48 + d else 87 + d.

(** The escape [\uXXXX] of a code unit. *)
Definition unicodeEscape (c : N) : jsstring :=
  [92; 117; hexDigit (c / 4096 mod 16); hexDigit (c / 256 mod 16);
   hexDigit (c / 16 mod 16); hexDigit (c mod 16)].

Definition isHighSurrogate (c : N) : bool := inClass 55296 56319 c.
Definition isLowSurrogate (c : N) : bool := inClass 56320 57343 c.

Fixpoint quoteChars (s : jsstring) : jsstring :=
  match s with
  | [] => []
  | c :: s' =>
      if c =? 34 then [92; 34] ++ quoteChars s'
      else if c =? 92 then [92; 92] ++ quoteChars s'
      else if c =? 8 then [92; 98] ++ quoteChars s'
      else if c =? 12 then [92; 102] ++ quoteChars s'
      else if c =? 10 then [92; 110] ++ quoteChars s'
      else if c =? 13 then [92; 114] ++ quoteChars s'
      else if c =? 9 then [92; 116] ++ quoteChars s'
      else if c <? 32 then unicodeEscape c ++ quoteChars s'
      else if isHighSurrogate c then
        match s' with
        | d :: s'' =>
            if isLowSurrogate d then c :: d :: quoteChars s''
            else unicodeEscape c ++ quoteChars s'
        | [] => unicodeEscape c
        end
      else if isLowSurrogate c then unicodeEscape c ++ quoteChars s'
      else c :: quoteChars s'
  end.

(** QuoteJSONString *)
Definition quoteJSON (s : jsstring) : jsstring :=
  [ch_quote] ++ quoteChars s ++ [ch_quote].

Fixpoint joinComma (l : list jsstring) : jsstring :=
  match l with
  | [] => []
  | [x] => x
  | x :: l' => x ++ [ch_comma] ++ joinComma l'
  end.

(** The members of an object, [ser] serialising the values: a property
    whose value is undefined is left out. *)
Definition members (ser : JsVal -> option jsstring)
    : list (jsstring * JsVal) -> list jsstring :=
  fix go (l : list (jsstring * JsVal)) : list jsstring :=
    match l with
    | [] => []
    | (k, x) :: l' =>
        match ser x with
        | Some t => (quoteJSON k ++ [ch_colon] ++ t) :: go l'
        | None => go l'
        end
    end.

(** [JSON.stringify(v)]; [None] is the result [undefined]. *)
Fixpoint stringify (v : JsVal) : option jsstring :=
  match v with
  | JUndefined => None
  | JNull => Some (js "null")
  | JStr s => Some (quoteJSON s)
  | JObj fields =>
      Some ([123] ++ joinComma (members stringify fields) ++ [125])
  end.

(** [JSON.stringify(v)] inside a template literal or a concatenation. *)
Definition stringifyText (v : JsVal) : jsstring :=
  showOptional (stringify v).

(** *** JSON.parse

    The reader of [meta], on the text of an object of strings written
    without white space. *)

Definition unhex (h : N) : option N :=
  if inClass 48 57 h then Some (h - 48)
  else if inClass 97 102 h then Some (h - 87)
  else if inClass 65 70 h then Some (h - 55)
  else None.

(** The character an escape of one letter stands for. *)
Definition simpleEscape (e : N) : option N :=
  if e =? 34 then Some 34
  else if e =? 92 then Some 92
  else if e =? 47 then Some 47
  else if e =? 98 then Some 8
  else if e =? 102 then Some 12
  else if e =? 110 then Some 10
  else if e =? 114 then Some 13
  else if e =? 116 then Some 9
  else None.

(** The characters of a JSON string up to its closing quote, and the
    text after it. *)
Fixpoint unquote (s : jsstring) : option (jsstring * jsstring) :=
  match s with
  | [] => None
  | c :: s' =>
      if c =? 34 then Some ([], s')
      else if c =? 92 then
        match s' with
        | e :: s'' =>
            if e =? 117 then
              match s'' with
              | h3 :: h2 :: h1 :: h0 :: s4 =>
                  match unhex h3, unhex h2, unhex h1, unhex h0, unquote s4 with
                  | Some a, Some b, Some c', Some d, Some (t, rest) =>
                      Some ((4096 * a + 256 * b + 16 * c' + d) :: t, rest)
                  | _, _, _, _, _ => None
                  end
              | _ => None
              end
            else
              match simpleEscape e, unquote s'' with
              | Some x, Some (t, rest) => Some (x :: t, rest)
              | _, _ => None
              end
        | [] => None
        end
      else if c <? 32 then None
      else
        match unquote s' with
        | Some (t, rest) => Some (c :: t, rest)
        | None => None
        end
  end.

Definition parseString (s : jsstring) : option (jsstring * jsstring) :=
  match s with
  | c :: s' => if c =? 34 then unquote s' else None
  | [] => None
  end.

(** The members of an object up to its closing brace, which ends the
    text. *)
Fixpoint parseMembers (fuel : nat) (s : jsstring)
    : option (list (jsstring * jsstring)) :=
  match fuel with
  | O => None
  | S fuel' =>
      match parseString s with
      | Some (k, c :: s1) =>
          if c =? ch_colon then
            match parseString s1 with
            | Some (v, [d]) => if d =? 125 then Some [(k, v)] else None
            | Some (v, d :: s2) =>
                if d =? ch_comma then
                  match parseMembers fuel' s2 with
                  | Some l => Some ((k, v) :: l)
                  | None => None
                  end
                else None
            | _ => None
            end
          else None
      | _ => None
      end
  end.

(** [JSON.parse(text)] for such a text: the entries of the object in the
    order of the text. *)
Definition parseFlatObject (text : jsstring)
    : option (list (jsstring * jsstring)) :=
  match text with
  | a :: s =>
      if a =? 123 then
        match s with
        | [b] => if b =? 125 then Some [] else None
        | _ => parseMembers (length s) s
        end
      else None
  | [] => None
  end.

(** *** The row transform *)

(** The keys left out of [meta]. *)
Definition consumedKeys : list jsstring :=
  [ js "tipo"; js "natureza_acidente"; js "natureza"; js "situacao";
    js "data"; js "hora" ].

Record TransformedRow := mkRow {
  tipo : JsVal;
  situacao : JsVal;
  datahora : jsstring;
  meta : jsstring
}.

Definition missingTipoWarning (lineNumber : nat) : LogEntry :=
  mkLog Warn
    (js "Missing 'tipo', 'natureza', or 'natureza_acidente' in row at line "
     ++ decimal lineNumber ++ js ".").

(** [combineDateTime(data, hora)] on values of any type: [split] is
    called on [data], and on [hora] when it is truthy. *)
Definition combineDateTimeAny (data hora : JsVal)
    : list LogEntry * (JsError + jsstring) :=
  match data with
  | JStr dateString =>
      match hora with
      | JStr timeString =>
          let '(datahora, logged) :=
            combineDateTime dateString (Some timeString) in
          (logged, inr datahora)
      | _ =>
          if truthy hora then ([], inl (NotAFunction (js "timeString.split")))
          else
            let '(datahora, logged) := combineDateTime dateString None in
            (logged, inr datahora)
      end
  | _ => ([], inl (NotAFunction (js "dateString.split")))
  end.

(** [meta]: the entries of the row outside [consumedKeys], serialised. *)
Definition metaObject (row : JsVal) : JsVal :=
  fromEntries
    (List.filter (fun kv => negb (bool_decide (fst kv ∈ consumedKeys)))
                 (entries row)).

(** Row code logs and may raise: a writer over the log with an error. *)
Definition Row (A : Type) : Type := list LogEntry * (JsError + A).

Definition ret {A} (a : A) : Row A := ([], inr a).

Definition bind {A B} (m : Row A) (k : A -> Row B) : Row B :=
  match m with
  | (logged, inr a) => let '(logged', r) := k a in (logged ++ logged', r)
  | (logged, inl e) => (logged, inl e)
  end.

Definition lift {A} (r : JsError + A) : Row A := ([], r).
Definition tell (entries : list LogEntry) : Row unit := (entries, inr tt).

Notation "x <- m ;; k" := (bind m (fun x => k))
  (at level 100, m at next level, right associativity).

(** [a || b] where [b] is evaluated only when [a] is falsy. *)
Definition orElse (a : JsVal) (b : Row JsVal) : Row JsVal :=
  if truthy a then ret a else b.

(** The [try] block of [transform] up to the write: the entries logged,
    and the record or the exception raised. *)
Definition buildRow (lineNumber : nat) (row : JsVal) : Row TransformedRow :=
  natureza_acidente <- lift (getProp row (js "natureza_acidente"));;
  t <- orElse natureza_acidente (lift (getProp row (js "natureza")));;
  t <- orElse t (lift (getProp row (js "tipo")));;
  let tipo := or t (JStr []) in
  _ <- tell (if truthy tipo then [] else [missingTipoWarning lineNumber]);;
  s <- lift (getProp row (js "situacao"));;
  let situacao := or s (JStr []) in
  d <- lift (getProp row (js "data"));;
  let data := or d (JStr []) in
  h <- lift (getProp row (js "hora"));;
  let hora := or h (JStr []) in
  datahora <- combineDateTimeAny data hora;;
  let meta := stringifyText (metaObject row) in
  ret (mkRow tipo situacao datahora meta).

(** The line written for a record. *)
Definition outputLine (r : TransformedRow) : jsstring :=
  stringifyText
    (JObj [ (js "tipo", tipo r); (js "situacao", situacao r);
            (js "datahora", JStr (datahora r)); (js "meta", JStr (meta r)) ])
  ++ [ch_lf].

(** V8's message for an exception. *)
Definition errorMessage (e : JsError) : jsstring :=
  match e with
  | CannotReadProperty v prop =>
      js "Cannot read properties of "
      ++ (match v with JNull => js "null" | _ => js "undefined" end)
      ++ js " (reading '" ++ prop ++ js "')"
  | NotAFunction what => what ++ js " is not a function"
  end.

Definition rowErrorLog (fileName : jsstring) (lineNumber : nat) (e : JsError)
    (row : JsVal) : LogEntry :=
  mkLog Error
    (js "Row transformation error in file " ++ [ch_quote] ++ fileName
     ++ [ch_quote] ++ js " at line " ++ decimal lineNumber ++ js ": "
     ++ errorMessage e ++ [ch_lf] ++ js "Row: " ++ stringifyText row).

(** The state the transform stream closes over. *)
Record StreamState := mkState {
  lineNumber : nat;
  output : list jsstring;
  streamLog : list LogEntry
}.

(** [transform(row, encoding, callback)]: one row. *)
Definition transform (fileName : jsstring) (st : StreamState) (row : JsVal)
    : StreamState :=
  let n := S (lineNumber st) in
  match buildRow n row with
  | (logged, inr r) =>
      mkState n (output st ++ [outputLine r]) (streamLog st ++ logged)
  | (logged, inl e) =>
      mkState n (output st)
        (streamLog st ++ logged ++ [rowErrorLog fileName n e row])
  end.

(** The entry logged before the file is opened. *)
Definition processingLog (fileName : jsstring) : LogEntry :=
  mkLog Info
    (js "Processing file: " ++ fileName ++ js " (Overwriting if exists)").

(** The host of this variant: [readFileSync], and fast-csv's rows for a
    delimiter and a path ([None] when the stream fails before its first
    row; [AnyRow.Host] below has the stream that fails after some
    rows). *)
Record Host := mkHost {
  inputDir : jsstring;
  readFileSync : jsstring -> option jsstring;
  fastCsvParse : jsstring -> jsstring -> option (list JsVal)
}.

(** [preprocessFile(fileName, format)]: the lines written and the log, and
    whether the file ran to its end. *)
Definition preprocessFile (h : Host) (fileName : jsstring)
    (format : FileFormat) : StreamState * bool :=
  let filePath := pathJoin (inputDir h) fileName in
  let start := mkState 0 [] [processingLog fileName] in
  match detectDelimiter (readFileSync h) filePath with
  | None => (mkState 0 [] [processingLog fileName; failureLog fileName], false)
  | Some (delimiter, warned) =>
      match fastCsvParse h delimiter filePath with
      | None =>
          (mkState 0 [] ([processingLog fileName] ++ warned
                         ++ [failureLog fileName]), false)
      | Some rows =>
          let st :=
            foldl (transform fileName)
                  (mkState 0 [] ([processingLog fileName] ++ warned)) rows in
          (mkState (lineNumber st) (output st)
                   (streamLog st ++ [successLog fileName]), true)
      end
  end.

(** [fileName.replace(/\.(csv|tsv)$/, "_processed.ndjson")]: the name of
    the output file. *)
Definition outputFileName (fileName : jsstring) : jsstring :=
  if endsWith (js ".csv") fileName || endsWith (js ".tsv") fileName
  then take (length fileName - 4) fileName ++ js "_processed.ndjson"
  else fileName.

(** [preprocessAllFiles()] on a directory listing: every file of the
    directory is processed, under the name of its output file. *)
Definition preprocessAllFiles (h : Host) (listing : list jsstring)
    : list (jsstring * (StreamState * bool)) * list LogEntry :=
  match listing with
  | [] => ([], [mkLog Warn (js "No files found to process.")])
  | _ =>
      (List.map (fun file =>
                   (outputFileName file,
                    preprocessFile h file (detectFileFormat file)))
                listing,
       [mkLog Info (js "Preprocessing completed successfully.")])
  end.

End Ndjson.

(** ** NDJSON variant: the transform on any row

    [transform(row: any, ...)] over every kind of value that makes the
    row code take a path of its own, the values [JSON.stringify] refuses
    included, with the log texts in full and a parser stream that can
    fail after some rows. *)

Module AnyRow.

(** A row and what it holds.  An object is the list of its own
    properties in enumeration order.  A BigInt stands for the values
    that [JSON.stringify] refuses to write. *)
#[warnings="-register-all"]
Inductive Value :=
  | Undefined
  | Null
  | Str (s : jsstring)
  | BigInt (n : Z)
  | Obj (fields : list (jsstring * Value)).

(** What the row code can raise. *)
Inductive Exception :=
  | CannotReadProperty (target : Value) (prop : jsstring)
  | NotAFunction (what : jsstring)
  | CannotSerialize.

Definition truthy (v : Value) : bool :=
  match v with
  | Undefined | Null => false
  | Str s => negb (bool_decide (s = []))
  | BigInt n => negb (n =? 0)%Z
  | Obj _ => true
  end.

(** [a || b] *)
Definition or (a b : Value) : Value := if truthy a then a else b.

Fixpoint lookupProp (fields : list (jsstring * Value)) (prop : jsstring)
    : option Value :=
  match fields with
  | [] => None
  | (k, v) :: rest =>
      if bool_decide (k = prop) then Some v else lookupProp rest prop
  end.

(** [v.prop] for a property name that no prototype defines. *)
Definition getProp (v : Value) (prop : jsstring) : Exception + Value :=
  match v with
  | Undefined | Null => inl (CannotReadProperty v prop)
  | Str _ | BigInt _ => inr Undefined
  | Obj fields => inr (default Undefined (lookupProp fields prop))
  end.

(** [Object.entries(v)] of a value that is neither null nor undefined. *)
Definition entries (v : Value) : list (jsstring * Value) :=
  match v with
  | Obj fields => fields
  | Str s => imap (fun i c => (decimal i, Str [c])) s
  | _ => []
  end.

(** [o[k] = v]: an existing property keeps its place. *)
Fixpoint setProp (fields : list (jsstring * Value)) (k : jsstring) (v : Value)
    : list (jsstring * Value) :=
  match fields with
  | [] => [(k, v)]
  | (k', v') :: rest =>
      if bool_decide (k' = k) then (k, v) :: rest
      else (k', v') :: setProp rest k v
  end.

(** [Object.fromEntries(l)] *)
Definition fromEntries (l : list (jsstring * Value)) : Value :=
  Obj (foldl (fun o kv => setProp o (fst kv) (snd kv)) [] l).

(** [JSON.stringify(v)] raises a TypeError when it comes to a BigInt, at
    the top or as the value of a property at any depth. *)
Definition allValues (p : Value -> bool) : list (jsstring * Value) -> bool :=
  fix go (l : list (jsstring * Value)) : bool :=
    match l with
    | [] => true
    | (_, x) :: l' => p x && go l'
    end.

Fixpoint serializable (v : Value) : bool :=
  match v with
  | BigInt _ => false
  | Obj fields => allValues serializable fields
  | _ => true
  end.

(** The members of an object, [ser] serialising the values: a property
    whose value is undefined is left out. *)
Definition members (ser : Value -> option jsstring)
    : list (jsstring * Value) -> list jsstring :=
  fix go (l : list (jsstring * Value)) : list jsstring :=
    match l with
    | [] => []
    | (k, x) :: l' =>
        match ser x with
        | Some t => (Ndjson.quoteJSON k ++ [ch_colon] ++ t) :: go l'
        | None => go l'
        end
    end.

(** The text [JSON.stringify(v)] returns when it raises nothing; [None]
    is the result [undefined]. *)
Fixpoint stringify (v : Value) : option jsstring :=
  match v with
  | Undefined | BigInt _ => None
  | Null => Some (js "null")
  | Str s => Some (Ndjson.quoteJSON s)
  | Obj fields =>
      Some ([123] ++ Ndjson.joinComma (members stringify fields) ++ [125])
  end.

(** [JSON.stringify(v)] inside a template literal or a concatenation:
    the text, or the exception. *)
Definition jsonText (v : Value) : Exception + jsstring :=
  if serializable v then inr (showOptional (stringify v))
  else inl CannotSerialize.

(** [combineDateTime(data, hora)] on values of any type: [split] is
    called on [data], and on [hora] when it is truthy. *)
Definition combineDateTimeAny (data hora : Value)
    : list LogEntry * (Exception + jsstring) :=
  match data with
  | Str dateString =>
      match hora with
      | Str timeString =>
          let '(datahora, logged) :=
            combineDateTime dateString (Some timeString) in
          (logged, inr datahora)
      | _ =>
          if truthy hora then ([], inl (NotAFunction (js "timeString.split")))
          else
            let '(datahora, logged) := combineDateTime dateString None in
            (logged, inr datahora)
      end
  | _ => ([], inl (NotAFunction (js "dateString.split")))
  end.

(** The object serialised into [meta]: the entries of the row outside
    the consumed keys. *)
Definition metaObject (row : Value) : Value :=
  fromEntries
    (List.filter (fun kv => negb (bool_decide (fst kv ∈ Ndjson.consumedKeys)))
                 (entries row)).

Record TransformedRow := mkRow {
  tipo : Value;
  situacao : Value;
  datahora : jsstring;
  meta : jsstring
}.

(** Row code logs and may raise: a writer over the log with an error. *)
Definition Row (A : Type) : Type := list LogEntry * (Exception + A).

Definition ret {A} (a : A) : Row A := ([], inr a).

Definition bind {A B} (m : Row A) (k : A -> Row B) : Row B :=
  match m with
  | (logged, inr a) => let '(logged', r) := k a in (logged ++ logged', r)
  | (logged, inl e) => (logged, inl e)
  end.

Definition lift {A} (r : Exception + A) : Row A := ([], r).
Definition tell (entries : list LogEntry) : Row unit := (entries, inr tt).

Notation "x <- m ;; k" := (bind m (fun x => k))
  (at level 100, m at next level, right associativity).

(** [a || b] where [b] is evaluated only when [a] is falsy. *)
Definition orElse (a : Value) (b : Row Value) : Row Value :=
  if truthy a then ret a else b.

(** The object whose text is the line of a record. *)
Definition recordObject (tipo situacao : Value) (datahora meta : jsstring)
    : Value :=
  Obj [ (js "tipo", tipo); (js "situacao", situacao);
        (js "datahora", Str datahora); (js "meta", Str meta) ].

(** The [try] block of [transform]: the entries logged, and the line to
    write or the exception raised. *)
Definition buildLine (lineNumber : nat) (row : Value) : Row jsstring :=
  natureza_acidente <- lift (getProp row (js "natureza_acidente"));;
  t <- orElse natureza_acidente (lift (getProp row (js "natureza")));;
  t <- orElse t (lift (getProp row (js "tipo")));;
  let tipo := or t (Str []) in
  _ <- tell (if truthy tipo then []
             else [Ndjson.missingTipoWarning lineNumber]);;
  s <- lift (getProp row (js "situacao"));;
  let situacao := or s (Str []) in
  d <- lift (getProp row (js "data"));;
  let data := or d (Str []) in
  h <- lift (getProp row (js "hora"));;
  let hora := or h (Str []) in
  datahora <- combineDateTimeAny data hora;;
  meta <- lift (jsonText (metaObject row));;
  line <- lift (jsonText (recordObject tipo situacao datahora meta));;
  ret (line ++ [ch_lf]).

(** V8's message for an exception. *)
Definition errorMessage (e : Exception) : jsstring :=
  match e with
  | CannotReadProperty v prop =>
      js "Cannot read properties of "
      ++ (match v with Null => js "null" | _ => js "undefined" end)
      ++ js " (reading '" ++ prop ++ js "')"
  | NotAFunction what => what ++ js " is not a function"
  | CannotSerialize => js "Do not know how to serialize a BigInt"
  end.

(** The entry the [catch] logs, for a row whose text [rowText] is. *)
Definition rowErrorLog (fileName : jsstring) (lineNumber : nat)
    (e : Exception) (rowText : jsstring) : LogEntry :=
  mkLog Error
    (js "Row transformation error in file " ++ [ch_quote] ++ fileName
     ++ [ch_quote] ++ js " at line " ++ decimal lineNumber ++ js ": "
     ++ errorMessage e ++ [ch_lf] ++ js "Row: " ++ rowText).

(** [transform(row, encoding, callback)]: one row, the state after it
    and the exception that leaves the transform, if one does.  The
    handler of the [catch] puts [JSON.stringify(row)] into its entry:
    when that raises in turn, nothing is logged for the row and its
    exception is not caught. *)
Definition transform (fileName : jsstring) (st : Ndjson.StreamState)
    (row : Value) : Ndjson.StreamState * option Exception :=
  let n := S (Ndjson.lineNumber st) in
  match buildLine n row with
  | (logged, inr line) =>
      (Ndjson.mkState n (Ndjson.output st ++ [line])
         (Ndjson.streamLog st ++ logged), None)
  | (logged, inl e) =>
      match jsonText row with
      | inr rowText =>
          (Ndjson.mkState n (Ndjson.output st)
             (Ndjson.streamLog st ++ logged
              ++ [rowErrorLog fileName n e rowText]), None)
      | inl e' =>
          (Ndjson.mkState n (Ndjson.output st) (Ndjson.streamLog st ++ logged),
           Some e')
      end
  end.

(** How the stream of a file ends: at the end of its rows, with an error
    of the parser, or at a row whose exception left the transform (what
    Node does with that exception, failing the stream or stopping the
    process, is not followed further). *)
Inductive Outcome :=
  | Completed
  | Failed
  | Escaped (e : Exception).

(** The rows of a file through the transform, in order: the lines and the
    log at the end, or at the row whose exception left the transform. *)
Fixpoint pipeRows (fileName : jsstring) (st : Ndjson.StreamState)
    (rows : list Value) : Ndjson.StreamState * option Exception :=
  match rows with
  | [] => (st, None)
  | row :: rest =>
      match transform fileName st row with
      | (st', None) => pipeRows fileName st' rest
      | (st', Some e) => (st', Some e)
      end
  end.

(** The host: [readFileSync] gives the content or the message of its
    error; the parser gives, for a delimiter and a path, the rows it
    delivers and then the message of its error, if it fails.  An object
    stream delivers no [null]. *)
Record Host := mkHost {
  inputDir : jsstring;
  readFileSync : jsstring -> jsstring + jsstring;
  fastCsvParse : jsstring -> jsstring -> list Value * option jsstring
}.

Definition processingLog (fileName : jsstring) : LogEntry :=
  mkLog Info (js "Processing file: " ++ fileName
              ++ js " (Overwriting if exists)").
Definition successLog (fileName : jsstring) : LogEntry :=
  mkLog Info (js "Successfully processed file: " ++ fileName).
Definition failureLog (fileName errorMessage : jsstring) : LogEntry :=
  mkLog Error (js "Error processing file " ++ fileName ++ js ": "
               ++ errorMessage).

(** [preprocessFile(fileName, format)]: the lines written and the log, and
    how the file ended. *)
Definition preprocessFile (h : Host) (fileName : jsstring)
    (format : FileFormat) : Ndjson.StreamState * Outcome :=
  let filePath := pathJoin (inputDir h) fileName in
  match readFileSync h filePath with
  | inl message =>
      (Ndjson.mkState 0 [] [processingLog fileName;
                            failureLog fileName message], Failed)
  | inr content =>
      let '(delimiter, warned) := detectDelimiterIn filePath content in
      let '(rows, parserError) := fastCsvParse h delimiter filePath in
      let '(st, raised) :=
        pipeRows fileName
          (Ndjson.mkState 0 [] ([processingLog fileName] ++ warned)) rows in
      match raised, parserError with
      | Some e, _ => (st, Escaped e)
      | None, Some message =>
          (Ndjson.mkState (Ndjson.lineNumber st) (Ndjson.output st)
             (Ndjson.streamLog st ++ [failureLog fileName message]), Failed)
      | None, None =>
          (Ndjson.mkState (Ndjson.lineNumber st) (Ndjson.output st)
             (Ndjson.streamLog st ++ [successLog fileName]), Completed)
      end
  end.

End AnyRow.

(** ** The metrics runner (index.ts) *)

Module Index.

(** [detectSeparator(filePath)] of the runner: a comma for [.csv], a
    semicolon for anything else. *)
Definition detectSeparator (filePath : jsstring) : jsstring :=
  if endsWith (js ".csv") filePath then [ch_comma] else [ch_semicolon].

(** [detectSkipLines(filePath)] *)
Definition detectSkipLines (filePath : jsstring) : nat := 0.

(** The files [main] keeps of the directory listing. *)
Definition isInputFile (file : jsstring) : bool :=
  startsWith (js "sinistros") file
  && (endsWith (js ".csv") file || endsWith (js ".tsv") file).

End Index.

(** ** The geocoding test *)

Module Geocode.

(** A destructured property is usable when it is a non-empty string. *)
Definition nonEmpty (v : option jsstring) : bool :=
  match v with
  | Some (_ :: _) => true
  | _ => false
  end.

(** [a || b] on optional strings. *)
Definition orOptional (a b : option jsstring) : option jsstring :=
  if nonEmpty a then a else b.

(** [extractAddress(meta)]: a property that is missing shows as the text
    [undefined] in a template literal. *)
Definition extractAddress (meta : gmap jsstring jsstring) : jsstring :=
  let endereco := meta !! js "endereco" in
  let numero := meta !! js "numero" in
  let bairro := meta !! js "bairro" in
  let complemento := meta !! js "complemento" in
  let endereco_cruzamento := meta !! js "endereco_cruzamento" in
  let bairro_cruzamento := meta !! js "bairro_cruzamento" in
  if nonEmpty endereco && nonEmpty numero then
    showOptional endereco ++ js ", " ++ showOptional numero ++ js ", "
    ++ showOptional bairro
  else if nonEmpty endereco && nonEmpty complemento then
    showOptional endereco ++ js ", " ++ showOptional complemento ++ js ", "
    ++ showOptional bairro
  else if nonEmpty endereco && nonEmpty endereco_cruzamento then
    showOptional endereco ++ js " com " ++ showOptional endereco_cruzamento
    ++ js ", " ++ showOptional (orOptional bairro_cruzamento bairro)
  else
    trim (orEmpty endereco ++ js ", " ++ orEmpty bairro).

(** The files [collectAllRows] reads of the directory of outputs. *)
Definition isNdjsonFile (file : jsstring) : bool :=
  endsWith (js ".ndjson") file.

(** The object of a list of entries, a later entry of the same key
    replacing an earlier one. *)
Definition objectOfEntries (l : list (jsstring * jsstring))
    : gmap jsstring jsstring :=
  foldl (fun o kv => <[fst kv := snd kv]> o) ∅ l.

(** [JSON.parse(row.meta)] on the text of an object of strings. *)
Definition parseMeta (text : jsstring) : option (gmap jsstring jsstring) :=
  objectOfEntries <$> Ndjson.parseFlatObject text.

(** The body of the loop of [runTest] up to the geocoding call: the
    address searched for a row, or [None] when [meta] does not parse. *)
Definition addressOfRow (metaText : jsstring) : option jsstring :=
  extractAddress <$> parseMeta metaText.

End Geocode.

(** ** Vocabulary of the statements

    Definitions that follow the words of the specification, to be
    compared with the ones taken from the sources, and shorthands for
    the statements below. *)

(** *** Strings *)

(** "The text before any [c]". *)
Definition textBefore (c : N) (s : jsstring) : jsstring :=
  takeWhile (fun x => negb (x =? c)) s.

(** A text of header characters, and a run of white space. *)
Definition headerWord (s : jsstring) : Prop :=
  Forall (fun c => isHeaderChar c = true) s.

Definition whiteSpaceRun (s : jsstring) : Prop :=
  Forall (fun c => isWhiteSpace c = true) s.

(** *** Times and dates *)

(** The number two decimal digits write. *)
Definition twoDigits (a b : N) : option N :=
  if isDigit a && isDigit b then Some (10 * (a - 48) + (b - 48)) else None.

(** "Exactly HH:mm:ss with hour in 00-23, minute and second in 00-59". *)
Definition strictTime (t : jsstring) : bool :=
  match t with
  | [h1; h2; c1; m1; m2; c2; s1; s2] =>
      match twoDigits h1 h2, twoDigits m1 m2, twoDigits s1 s2 with
      | Some h, Some m, Some s =>
          (c1 =? ch_colon) && (c2 =? ch_colon)
          && (h <=? 23) && (m <=? 59) && (s <=? 59)
      | _, _, _ => false
      end
  | _ => false
  end.

(** "{date}T{time}-03:00": the date is the text before any T, trimmed;
    the time is the text before any dot, trimmed, when that is a strict
    time, and 00:00:00 otherwise. *)
Definition combineDateTime_spec (dateText : jsstring)
    (timeText : option jsstring) : jsstring :=
  let date := trim (textBefore ch_T dateText) in
  let time :=
    match timeText with
    | Some t =>
        let cleaned := trim (textBefore ch_dot t) in
        if strictTime cleaned then cleaned else js "00:00:00"
    | None => js "00:00:00"
    end in
  date ++ js "T" ++ time ++ js "-03:00".

(** *** Delimiters and numbers *)

(** "Tab, then semicolon, then comma, returning the first one present;
    if none found, comma". *)
Definition delimiterOfLine (line : jsstring) : jsstring :=
  if decide (ch_tab ∈ line) then [ch_tab]
  else if decide (ch_semicolon ∈ line) then [ch_semicolon]
  else if decide (ch_comma ∈ line) then [ch_comma]
  else [ch_comma].

(** One and a half, [3 * 2^-1]. *)
Definition onePointFive : number := binary_normalize prec emax 3 (-1) false.

(** *** Schema and records *)

(** The column labels of a file as the parser reads them with the
    separator of the file's extension; none when the stream fails. *)
Definition columnLabels (rt : Runtime) (file : jsstring) : list jsstring :=
  let filePath := pathJoin (inputDirectory rt) file in
  match parseCsv rt (detectSeparator filePath) filePath with
  | Some (cells :: _) => cells
  | _ => []
  end.

(** The file yields a stream error or at least a header line. *)
Definition settles (rt : Runtime) (file : jsstring) : Prop :=
  let filePath := pathJoin (inputDirectory rt) file in
  parseCsv rt (detectSeparator filePath) filePath <> Some [].

(** "Lexicographically": [a] comes before [b] when it is a prefix of
    [b], or holds the smaller code unit where the two first differ. *)
Definition lexicographic (a b : jsstring) : Prop :=
  (exists rest, b = a ++ rest)
  \/ (exists p x y ra rb, a = p ++ x :: ra /\ b = p ++ y :: rb /\ x < y).

(** "Sorted lexicographically": every string comes before all the
    strings after it. *)
Definition sortedStrings (l : list jsstring) : Prop :=
  StronglySorted lexicographic l.

(** [if (r[key]) r[key] = f(r[key])] leaves the empty string alone. *)
Definition whenPresent (f : jsstring -> jsstring) (s : jsstring) : jsstring :=
  match s with
  | [] => []
  | _ => f s
  end.

(** "Look up the value, defaulting to empty string; then date
    normalization on [data], time normalization on [hora], numeric
    coercion on every numeric field": the field of key [key] whose raw
    text is [raw]. *)
Definition normalizedCell (rt : Runtime) (key raw : jsstring) : Cell :=
  let text :=
    if bool_decide (raw = []) then []
    else if bool_decide (key = js "data") then normalizeDate rt raw
    else if bool_decide (key = js "hora") then normalizeTime raw
    else raw in
  if isNumericField key then CNum (parseNumericField text) else CStr text.

(** Two hosts that differ at most in what the parser does with
    separators other than the one of the file's extension. *)
Definition agreeOnExtension (rt1 rt2 : Runtime) : Prop :=
  inputDirectory rt1 = inputDirectory rt2
  /\ (forall path,
        parseCsv rt1 (detectSeparator path) path
        = parseCsv rt2 (detectSeparator path) path)
  /\ (forall s, dateParse rt1 s = dateParse rt2 s)
  /\ (forall t, formatDate rt1 t = formatDate rt2 t).

(** *** NDJSON rows *)

(** [row.k] of a row that is an object. *)
Definition prop (fields : list (jsstring * Ndjson.JsVal)) (k : jsstring)
    : Ndjson.JsVal :=
  default Ndjson.JUndefined (Ndjson.lookupProp fields k).

(** A row as fast-csv delivers it: an object whose values are strings. *)
Definition stringRow (fields : list (jsstring * Ndjson.JsVal)) : Prop :=
  Forall (fun kv => exists s, snd kv = Ndjson.JStr s) fields.

(** The row object of labelled cells. *)
Definition rowOfCells (cells : list (jsstring * jsstring))
    : list (jsstring * Ndjson.JsVal) :=
  List.map (fun kv => (fst kv, Ndjson.JStr (snd kv))) cells.

(** The entries of a row that go to [meta]. *)
Definition residual (fields : list (jsstring * Ndjson.JsVal))
    : list (jsstring * Ndjson.JsVal) :=
  List.filter (fun kv => negb (bool_decide (fst kv ∈ Ndjson.consumedKeys)))
              fields.

(** The labelled cells that go to [meta]. *)
Definition residualCells (cells : list (jsstring * jsstring))
    : list (jsstring * jsstring) :=
  List.filter (fun kv => negb (bool_decide (fst kv ∈ Ndjson.consumedKeys)))
              cells.

(** The JSON text of a member and of an object of strings. *)
Definition memberText (kv : jsstring * jsstring) : jsstring :=
  Ndjson.quoteJSON (fst kv) ++ [ch_colon] ++ Ndjson.quoteJSON (snd kv).

Definition jsonOfStrings (fields : list (jsstring * jsstring)) : jsstring :=
  [123] ++ Ndjson.joinComma (List.map memberText fields) ++ [125].

(** "The row is skipped, processing continues": the lines left by rows
    numbered from [n + 1], a row that raises leaving none. *)
Fixpoint emitted (n : nat) (rows : list Ndjson.JsVal) : list jsstring :=
  match rows with
  | [] => []
  | row :: rest =>
      match Ndjson.buildRow (S n) row with
      | (_, inr r) => Ndjson.outputLine r :: emitted (S n) rest
      | (_, inl _) => emitted (S n) rest
      end
  end.

(** *** Inherited names *)

(** The names every object inherits from [Object.prototype].  Read
    through [row[header]] such a name is not undefined where the row has
    no column of that name, and an assignment to [__proto__] creates no
    property: rows and records are the dictionaries of their own
    properties for the headers outside this list. *)
Definition inheritedNames : list jsstring :=
  [ js "constructor"; js "__proto__"; js "hasOwnProperty";
    js "isPrototypeOf"; js "propertyIsEnumerable"; js "toLocaleString";
    js "toString"; js "valueOf"; js "__defineGetter__";
    js "__defineSetter__"; js "__lookupGetter__"; js "__lookupSetter__" ].

(** No header of the list is an inherited name. *)
Definition ownNames (headers : list jsstring) : Prop :=
  forall h, h ∈ headers -> h ∉ inheritedNames.

(** *** Rows of any kind *)



(** *** Further vocabulary *)

(** The capital of an ASCII small letter; other code units as they are. *)
Definition asciiUpper (c : N) : N := if inClass 97 122 c then c - 32 else c.

(** An entry logged at level [Error]. *)
Definition isErrorEntry (e : LogEntry) : bool :=
  match level e with
  | Error => true
  | _ => false
  end.

(** The cell of a row under a label. *)
Fixpoint lookupCell (cells : list (jsstring * jsstring)) (k : jsstring)
    : option jsstring :=
  match cells with
  | [] => None
  | (k', v) :: rest => if bool_decide (k' = k) then Some v else lookupCell rest k
  end.

(** "First non-empty of several fields". *)
Fixpoint firstNonEmpty (l : list (option jsstring)) : jsstring :=
  match l with
  | [] => []
  | Some (c :: s) :: _ => c :: s
  | _ :: rest => firstNonEmpty rest
  end.


(** The stream of a file reports an error. *)
Definition streamFails (rt : Runtime) (file : jsstring) : bool :=
  let filePath := pathJoin (inputDirectory rt) file in
  match parseCsv rt (detectSeparator filePath) filePath with
  | None => true
  | Some _ => false
  end.

(** The records of a file after its header line. *)
Definition dataRecords (rt : Runtime) (file : jsstring)
    : list (list jsstring) :=
  let filePath := pathJoin (inputDirectory rt) file in
  match parseCsv rt (detectSeparator filePath) filePath with
  | Some (_ :: records) => records
  | _ => []
  end.

(** * Properties *)

(** ** Strings *)

(** Case analysis on every comparison of code units in the goal. *)
Ltac ncases :=
  repeat match goal with
         | |- context [N.leb ?x ?y] => destruct (N.leb_spec x y)
         | |- context [N.ltb ?x ?y] => destruct (N.ltb_spec x y)
         | |- context [N.eqb ?x ?y] => destruct (N.eqb_spec x y)
         end.

Ltac nsolve :=
  ncases; simpl; ncases; simpl; try reflexivity; try discriminate; exfalso; lia.

Lemma split_nonempty (c : N) (s : jsstring) : split c s <> [].
Proof.
  destruct s as [|x s]; simpl; [discriminate|].
  destruct (x =? c); [discriminate|].
  destruct (split c s); discriminate.
Qed.

Lemma first_split (c : N) (s : jsstring) : first (split c s) = textBefore c s.
Proof.
  unfold first, at_index, textBefore.
  induction s as [|x s IH]; simpl; [reflexivity|].
  destruct (N.eqb_spec x c); simpl; [reflexivity|].
  pose proof (split_nonempty c s) as Hne.
  destruct (split c s) as [|p ps]; [congruence|].
  simpl in *. f_equal. exact IH.
Qed.

Lemma textBefore_app (c : N) (l rest : jsstring) :
  c ∉ l -> textBefore c (l ++ c :: rest) = l.
Proof.
  unfold textBefore. induction l as [|x l IH]; simpl; intros Hnot.
  - rewrite N.eqb_refl. reflexivity.
  - destruct (N.eqb_spec x c) as [->|Hne]; simpl.
    + exfalso. apply Hnot. left.
    + f_equal. apply IH. intros Hin. apply Hnot. right. exact Hin.
Qed.

Lemma includes_spec (c : N) (s : jsstring) : includes c s = true <-> c ∈ s.
Proof.
  unfold includes. rewrite existsb_exists. split.
  - intros (x & Hin & Heq). apply N.eqb_eq in Heq. subst x.
    apply list_elem_of_In. exact Hin.
  - intros Hin. exists c. split; [apply list_elem_of_In; exact Hin|].
    apply N.eqb_refl.
Qed.

Lemma includes_decide (c : N) (s : jsstring) :
  includes c s = bool_decide (c ∈ s).
Proof.
  destruct (includes c s) eqn:E.
  - symmetry. apply bool_decide_eq_true. apply includes_spec. exact E.
  - symmetry. apply bool_decide_eq_false. intros Hin.
    apply includes_spec in Hin. congruence.
Qed.

(** ** Time validation *)

Lemma hour_class (a b : N) :
  (inClass 48 49 a && isDigit b) || ((a =? 50) && inClass 48 51 b)
  = match twoDigits a b with Some h => h <=? 23 | None => false end.
Proof. unfold twoDigits, inClass, isDigit. nsolve. Qed.

Lemma sixty_class (a b : N) :
  inClass 48 53 a && isDigit b
  = match twoDigits a b with Some m => m <=? 59 | None => false end.
Proof. unfold twoDigits, inClass, isDigit. nsolve. Qed.

(** The regular expression accepts the strict times and nothing else. *)
Lemma isValidTime_strict (t : jsstring) : isValidTime t = strictTime t.
Proof.
  destruct t as [|h1 [|h2 [|c1 [|m1 [|m2 [|c2 [|s1 [|s2 [|x t]]]]]]]]];
    try reflexivity.
  unfold isValidTime, strictTime.
  rewrite hour_class, !sixty_class.
  destruct (twoDigits h1 h2), (twoDigits m1 m2), (twoDigits s1 s2);
    simpl; rewrite ?andb_false_r; try reflexivity;
    repeat match goal with
           | |- context [N.leb ?x ?y] => destruct (N.leb x y)
           | |- context [N.eqb ?x ?y] => destruct (N.eqb x y)
           end; reflexivity.
Qed.

(** ** combineDateTime *)

Lemma combineDateTime_refines (dateText : jsstring)
    (timeText : option jsstring) :
  fst (combineDateTime dateText timeText)
  = combineDateTime_spec dateText timeText.
Proof.
  unfold combineDateTime, combineDateTime_spec.
  rewrite first_split.
  destruct timeText as [t|]; [|reflexivity].
  rewrite first_split, isValidTime_strict.
  destruct t as [|c t]; [reflexivity|].
  rewrite bool_decide_eq_false_2 by discriminate. simpl negb. simpl andb.
  destruct (strictTime (trim (textBefore ch_dot (c :: t)))); reflexivity.
Qed.

(** C4: the timestamp is [{date}T{time}-03:00], the date being the text
    before any T, trimmed, and the time the text before any dot, trimmed,
    when it is a strict HH:mm:ss time, and 00:00:00 otherwise (with a
    warning logged); the two examples of the specification. *)
Theorem combineDateTime_format :
  (forall dateText timeText,
     fst (combineDateTime dateText timeText)
     = combineDateTime_spec dateText timeText)
  /\ combineDateTime (js "2024-03-01") (Some (js "14:30:00"))
     = (js "2024-03-01T14:30:00-03:00", [])
  /\ combineDateTime (js "2024-03-01T10:00:00Z") (Some (js "bad-time"))
     = (js "2024-03-01T00:00:00-03:00",
        [invalidTimeWarning (Some (js "bad-time"))]).
Proof.
  split; [exact combineDateTime_refines|].
  split; vm_compute; reflexivity.
Qed.

(** ** detectDelimiter *)

Lemma detectDelimiterIn_line (filePath content : jsstring) :
  fst (detectDelimiterIn filePath content)
  = delimiterOfLine (textBefore ch_lf content).
Proof.
  unfold detectDelimiterIn, delimiterOfLine.
  rewrite first_split, !includes_decide.
  repeat (case_bool_decide; repeat case_decide; try contradiction;
          try reflexivity).
Qed.

(** C5: the delimiter is a function of the first line alone (the text
    before the first line feed): tab if the line holds one, else
    semicolon if it holds one, else comma, whatever follows the first
    line; the line [a<tab>b;c] gives tab, and a file without any of the
    three, the empty file included, gives comma. *)
Theorem detectDelimiter_first_line :
  forall (readFileSync : jsstring -> option jsstring)
         (filePath content : jsstring),
    readFileSync filePath = Some content ->
    (exists logged,
        detectDelimiter readFileSync filePath
        = Some (delimiterOfLine (textBefore ch_lf content), logged))
    /\ (forall line rest,
          ch_lf ∉ line ->
          fst (detectDelimiterIn filePath (line ++ ch_lf :: rest))
          = delimiterOfLine line)
    /\ fst (detectDelimiterIn filePath
              (js "a" ++ [ch_tab] ++ js "b;c" ++ [ch_lf] ++ js "1,2;3"))
       = [ch_tab]
    /\ (ch_tab ∉ textBefore ch_lf content ->
        ch_semicolon ∉ textBefore ch_lf content ->
        ch_comma ∉ textBefore ch_lf content ->
        detectDelimiter readFileSync filePath
        = Some ([ch_comma], [delimiterWarning filePath]))
    /\ detectDelimiterIn filePath [] = ([ch_comma], [delimiterWarning filePath]).
Proof.
  intros rf filePath content Hread. unfold detectDelimiter. rewrite Hread.
  split.
  { exists (snd (detectDelimiterIn filePath content)).
    rewrite <- (detectDelimiterIn_line filePath content).
    destruct (detectDelimiterIn filePath content); reflexivity. }
  split.
  { intros line rest Hnot.
    rewrite detectDelimiterIn_line, textBefore_app by exact Hnot.
    reflexivity. }
  split; [vm_compute; reflexivity|].
  split; [|reflexivity].
  intros Ht Hs Hc. unfold detectDelimiterIn. rewrite first_split.
  rewrite !includes_decide.
  rewrite !bool_decide_eq_false_2 by assumption. reflexivity.
Qed.

Lemma detectDelimiter_first_line_witness :
  let readFileSync := fun _ : jsstring => Some (js "a;b") in
  readFileSync (js "data/x.csv") = Some (js "a;b")
  /\ exists logged,
       detectDelimiter readFileSync (js "data/x.csv")
       = Some ([ch_semicolon], logged).
Proof.
  cbn zeta. split; [reflexivity|].
  exact (proj1 (detectDelimiter_first_line
                  (fun _ => Some (js "a;b")) (js "data/x.csv") (js "a;b")
                  eq_refl)).
Defined.

(** ** standardizeHeader *)

(** Settles every comparison of code units that the hypotheses decide. *)
Ltac ndecide :=
  repeat match goal with
         | |- context [N.eqb ?x ?y] =>
             first [ rewrite (proj2 (N.eqb_neq x y)) by lia
                   | rewrite (proj2 (N.eqb_eq x y)) by lia ]
         | |- context [N.leb ?x ?y] =>
             first [ rewrite (proj2 (N.leb_le x y)) by lia
                   | rewrite (proj2 (N.leb_gt x y)) by lia ]
         | |- context [N.ltb ?x ?y] =>
             first [ rewrite (proj2 (N.ltb_lt x y)) by lia
                   | rewrite (proj2 (N.ltb_ge x y)) by lia ]
         end.

Lemma isHeaderChar_spec (c : N) :
  isHeaderChar c = true <-> (97 <= c <= 122) \/ (48 <= c <= 57) \/ c = 95.
Proof.
  unfold isHeaderChar, inClass, ch_underscore.
  rewrite !orb_true_iff, !andb_true_iff, !N.leb_le, N.eqb_eq. tauto.
Qed.

Lemma isWhiteSpace_spec (c : N) :
  isWhiteSpace c = true <->
  c = 9 \/ c = 10 \/ c = 11 \/ c = 12 \/ c = 13 \/ c = 32 \/ c = 160
  \/ c = 5760 \/ (8192 <= c <= 8202) \/ c = 8232 \/ c = 8233 \/ c = 8239
  \/ c = 8287 \/ c = 12288 \/ c = 65279.
Proof.
  unfold isWhiteSpace.
  rewrite !orb_true_iff, !andb_true_iff, !N.leb_le, !N.eqb_eq. tauto.
Qed.

Lemma headerChar_not_space (c : N) :
  isHeaderChar c = true -> isWhiteSpace c = false.
Proof.
  intros H. apply isHeaderChar_spec in H.
  assert (48 <= c <= 122) as Hr by lia. clear H.
  unfold isWhiteSpace. ndecide. reflexivity.
Qed.

Lemma headerChar_lower (c : N) : isHeaderChar c = true -> lowerUnit c = [c].
Proof.
  intros H. apply isHeaderChar_spec in H.
  unfold lowerUnit, inClass.
  destruct H as [H|[H|H]]; ndecide; reflexivity.
Qed.

Lemma dropWhile_all {A} (p : A -> bool) (l : list A) :
  Forall (fun x => p x = true) l -> dropWhile p l = [].
Proof. induction 1 as [|x l Hx _ IH]; simpl; [|rewrite Hx]; auto. Qed.

Lemma dropWhile_app_all {A} (p : A -> bool) (l r : list A) :
  Forall (fun x => p x = true) l -> dropWhile p (l ++ r) = dropWhile p r.
Proof. induction 1 as [|x l Hx _ IH]; simpl; [|rewrite Hx]; auto. Qed.

Lemma dropWhile_head {A} (p : A -> bool) (x : A) (l : list A) :
  p x = false -> dropWhile p (x :: l) = x :: l.
Proof. intros Hx. simpl. rewrite Hx. reflexivity. Qed.

(** [trim] removes the white space around a text that neither starts nor
    ends with white space. *)
Lemma trim_around (pre core post : jsstring) :
  whiteSpaceRun pre -> whiteSpaceRun post ->
  (forall x l, core = x :: l -> isWhiteSpace x = false) ->
  (forall x l, core = l ++ [x] -> isWhiteSpace x = false) ->
  trim (pre ++ core ++ post) = core.
Proof.
  intros Hpre Hpost Hhd Hlast. unfold trim, trimStart, trimEnd.
  rewrite dropWhile_app_all by exact Hpre.
  destruct core as [|x l].
  - simpl. rewrite (dropWhile_all isWhiteSpace post Hpost). reflexivity.
  - rewrite <- app_comm_cons.
    rewrite dropWhile_head by (eapply Hhd; reflexivity).
    rewrite app_comm_cons, rev_app_distr.
    rewrite dropWhile_app_all by (apply Forall_rev; exact Hpost).
    destruct (rev (x :: l)) as [|y r] eqn:Hrev.
    + apply (f_equal (@rev N)) in Hrev. rewrite rev_involutive in Hrev.
      discriminate.
    + rewrite dropWhile_head.
      * rewrite <- Hrev. apply rev_involutive.
      * apply (Hlast y (rev r)).
        rewrite <- (rev_involutive (x :: l)), Hrev. reflexivity.
Qed.

Lemma headerWord_ends (w : jsstring) :
  headerWord w ->
  (forall x l, w = x :: l -> isWhiteSpace x = false)
  /\ (forall x l, w = l ++ [x] -> isWhiteSpace x = false).
Proof.
  intros Hw. split; intros x l ->; apply headerChar_not_space.
  - inversion Hw; assumption.
  - apply Forall_app in Hw. destruct Hw as [_ Hx]. inversion Hx; assumption.
Qed.

Lemma trim_headerWord (w : jsstring) : headerWord w -> trim w = w.
Proof.
  intros Hw. destruct (headerWord_ends w Hw) as [Hhd Hlast].
  assert (whiteSpaceRun []) as Hnil by constructor.
  pose proof (trim_around [] w [] Hnil Hnil Hhd Hlast) as H.
  rewrite app_nil_r in H. exact H.
Qed.

Lemma toLowerCase_app (a b : jsstring) :
  toLowerCase (a ++ b) = toLowerCase a ++ toLowerCase b.
Proof. unfold toLowerCase. apply flat_map_app. Qed.

Lemma toLowerCase_headerWord (w : jsstring) :
  headerWord w -> toLowerCase w = w.
Proof.
  unfold toLowerCase.
  induction 1 as [|c w Hc _ IH]; simpl; [reflexivity|].
  rewrite headerChar_lower by exact Hc. simpl. f_equal. exact IH.
Qed.

Lemma lowerUnit_space (c : N) : isWhiteSpace c = true -> lowerUnit c = [c].
Proof.
  intros H. apply isWhiteSpace_spec in H. unfold lowerUnit, inClass.
  repeat (destruct H as [H|H]; [ndecide; reflexivity|]).
  ndecide; reflexivity.
Qed.

Lemma toLowerCase_whiteSpaceRun (w : jsstring) :
  whiteSpaceRun w -> toLowerCase w = w.
Proof.
  unfold toLowerCase.
  induction 1 as [|c w Hc _ IH]; simpl; [reflexivity|].
  rewrite lowerUnit_space by exact Hc. simpl. f_equal. exact IH.
Qed.

Lemma replaceRuns_headerWord (w rest : jsstring) (inRun : bool) :
  headerWord w -> w <> [] ->
  replaceWhiteSpaceRuns inRun (w ++ rest)
  = w ++ replaceWhiteSpaceRuns false rest.
Proof.
  intros Hw. revert inRun.
  induction Hw as [|c w Hc Hw IH]; intros inRun Hne; [congruence|].
  simpl. rewrite (headerChar_not_space c Hc). f_equal.
  destruct w as [|d w]; [reflexivity|].
  apply IH. discriminate.
Qed.

Lemma replaceRuns_headerWord_only (w : jsstring) (inRun : bool) :
  headerWord w -> replaceWhiteSpaceRuns inRun w = w.
Proof.
  intros Hw. destruct w as [|c w]; [reflexivity|].
  pose proof (replaceRuns_headerWord (c :: w) [] inRun Hw) as H.
  rewrite app_nil_r in H. simpl replaceWhiteSpaceRuns at 2 in H.
  rewrite app_nil_r in H. apply H. discriminate.
Qed.

Lemma replaceRuns_in_run (gap rest : jsstring) :
  whiteSpaceRun gap ->
  replaceWhiteSpaceRuns true (gap ++ rest) = replaceWhiteSpaceRuns true rest
  \/ gap = [].
Proof.
  induction 1 as [|c gap Hc Hgap IH]; [right; reflexivity|].
  left. simpl. rewrite Hc.
  destruct IH as [IH| ->]; [exact IH|reflexivity].
Qed.

(** A run of white space before a word becomes one underscore. *)
Lemma replaceRuns_gap (gap w rest : jsstring) :
  whiteSpaceRun gap -> gap <> [] -> headerWord w -> w <> [] ->
  replaceWhiteSpaceRuns false (gap ++ w ++ rest)
  = ch_underscore :: w ++ replaceWhiteSpaceRuns false rest.
Proof.
  intros Hgap Hne Hw Hwne.
  destruct Hgap as [|c gap Hc Hgap]; [congruence|].
  simpl. rewrite Hc. f_equal.
  destruct (replaceRuns_in_run gap (w ++ rest) Hgap) as [-> | ->].
  - destruct w as [|d w]; [congruence|].
    apply (replaceRuns_headerWord (d :: w) rest true Hw Hwne).
  - apply (replaceRuns_headerWord w rest true Hw Hwne).
Qed.

Lemma strip_headerWord (w : jsstring) :
  headerWord w -> stripNonHeaderChars w = w.
Proof.
  unfold stripNonHeaderChars.
  induction 1 as [|c w Hc _ IH]; simpl; [reflexivity|].
  rewrite Hc. f_equal. exact IH.
Qed.

Lemma strip_is_headerWord (s : jsstring) : headerWord (stripNonHeaderChars s).
Proof.
  unfold headerWord, stripNonHeaderChars.
  induction s as [|c s IH]; simpl; [constructor|].
  destruct (isHeaderChar c) eqn:E; [constructor; assumption|exact IH].
Qed.

Lemma standardizeHeader_headerWord (s : jsstring) :
  headerWord (standardizeHeader s).
Proof. apply strip_is_headerWord. Qed.

Lemma standardizeHeader_fixed (w : jsstring) :
  headerWord w -> standardizeHeader w = w.
Proof.
  intros Hw. unfold standardizeHeader.
  rewrite trim_headerWord, toLowerCase_headerWord,
    replaceRuns_headerWord_only, strip_headerWord by exact Hw.
  reflexivity.
Qed.

(** White space around two words is trimmed and the run between them
    becomes a single underscore. *)
Lemma standardizeHeader_words (pre w1 gap w2 post : jsstring) :
  whiteSpaceRun pre -> whiteSpaceRun gap -> whiteSpaceRun post ->
  gap <> [] -> headerWord w1 -> w1 <> [] -> headerWord w2 -> w2 <> [] ->
  standardizeHeader (pre ++ (w1 ++ gap ++ w2) ++ post)
  = w1 ++ [ch_underscore] ++ w2.
Proof.
  intros Hpre Hgap Hpost Hgne Hw1 Hne1 Hw2 Hne2. unfold standardizeHeader.
  rewrite trim_around; try assumption.
  - rewrite !toLowerCase_app.
    rewrite (toLowerCase_headerWord w1 Hw1), (toLowerCase_headerWord w2 Hw2).
    rewrite (toLowerCase_whiteSpaceRun gap Hgap).
    rewrite replaceRuns_headerWord by assumption.
    replace (gap ++ w2) with (gap ++ w2 ++ [])
      by (rewrite app_nil_r; reflexivity).
    rewrite replaceRuns_gap by assumption.
    simpl replaceWhiteSpaceRuns. rewrite app_nil_r.
    unfold stripNonHeaderChars. rewrite List.filter_app. simpl.
    fold (stripNonHeaderChars w1). fold (stripNonHeaderChars w2).
    rewrite !strip_headerWord by assumption. reflexivity.
  - intros x l Heq. destruct w1 as [|c w1]; [congruence|].
    simpl in Heq. injection Heq as <- _.
    apply headerChar_not_space. inversion Hw1; assumption.
  - intros x l Heq. apply headerChar_not_space.
    destruct (exists_last Hne2) as (l2 & y & ->).
    rewrite !app_assoc in Heq. apply app_inj_tail in Heq.
    destruct Heq as [_ <-].
    apply Forall_app in Hw2. destruct Hw2 as [_ Hy]. inversion Hy; assumption.
Qed.

(** C7: [standardizeHeader] is defined on every string, the empty one
    giving the empty one; its result holds characters of [[a-z0-9_]]
    only; white space around the label is trimmed, capitals are lowered,
    a run of white space becomes one underscore and every other
    character is dropped; and it is idempotent. *)
Theorem standardizeHeader_idempotent :
  standardizeHeader [] = []
  /\ (forall s, headerWord (standardizeHeader s))
  /\ (forall s,
        standardizeHeader s
        = stripNonHeaderChars
            (replaceWhiteSpaceRuns false (toLowerCase (trim s))))
  /\ (forall pre w1 gap w2 post,
        whiteSpaceRun pre -> whiteSpaceRun gap -> whiteSpaceRun post ->
        gap <> [] -> headerWord w1 -> w1 <> [] -> headerWord w2 -> w2 <> [] ->
        standardizeHeader (pre ++ (w1 ++ gap ++ w2) ++ post)
        = w1 ++ [ch_underscore] ++ w2)
  /\ standardizeHeader (js "  Natureza  do Acidente (2020) ")
     = js "natureza_do_acidente_2020"
  /\ (forall s, standardizeHeader (standardizeHeader s) = standardizeHeader s).
Proof.
  split; [reflexivity|].
  split; [exact standardizeHeader_headerWord|].
  split; [reflexivity|].
  split; [exact standardizeHeader_words|].
  split; [vm_compute; reflexivity|].
  intros s. apply standardizeHeader_fixed, standardizeHeader_headerWord.
Qed.

(** ** parseNumericField *)

(** C3, as stated, fails: the text [Infinity] parses to the infinite
    number, which is not NaN and is returned as it is. *)
Lemma parseNumericField_Infinity :
  parseNumericField (js "Infinity") = S754_infinity false
  /\ isFinite (parseNumericField (js "Infinity")) = false
  /\ isFinite (parseNumericField (js "1e999")) = false.
Proof. vm_compute. auto. Qed.

(** C3, amended: [parseNumericField] returns a number for every string
    and never NaN; the number is finite unless [parseFloat] reads an
    infinity; the empty string and unparseable text give 0, and the
    first comma is read as the decimal point, so that [1,5] gives 1.5. *)
Theorem parseNumericField_never_NaN :
  (forall value, isNaN (parseNumericField value) = false)
  /\ (forall value,
        isFinite (parseNumericField value) = true
        \/ exists sign,
             parseFloat (replaceFirstComma value) = S754_infinity sign
             /\ parseNumericField value = S754_infinity sign)
  /\ parseNumericField [] = zero
  /\ parseNumericField (js "1,5") = onePointFive
  /\ parseNumericField (js "1,5") = parseNumericField (js "1.5")
  /\ parseNumericField (js "abc") = zero.
Proof.
  split.
  { intros value. unfold parseNumericField.
    case_bool_decide; [reflexivity|].
    destruct (parseFloat (replaceFirstComma value)); reflexivity. }
  split.
  { intros value. unfold parseNumericField.
    case_bool_decide; [left; reflexivity|].
    destruct (parseFloat (replaceFirstComma value)) as [| sign | |] eqn:E;
      simpl; auto.
    right. exists sign. auto. }
  repeat split; vm_compute; reflexivity.
Qed.

(** ** Schema-unified variant *)

(** *** Sorting *)

Lemma jsstring_leb_total (a b : jsstring) :
  jsstring_leb a b = false -> jsstring_leb b a = true.
Proof.
  revert b. induction a as [|x a IH]; intros [|y b]; simpl; try discriminate;
    try reflexivity.
  intros H. apply orb_false_iff in H. destruct H as [Hlt H].
  apply N.ltb_ge in Hlt.
  destruct (N.eqb_spec x y) as [->|Hne].
  - simpl in H. rewrite N.eqb_refl, (IH b H), orb_true_r. reflexivity.
  - assert (y < x) as Hyx by lia. apply N.ltb_lt in Hyx. rewrite Hyx.
    reflexivity.
Qed.

Lemma insertSorted_perm (x : jsstring) (l : list jsstring) :
  insertSorted x l ≡ₚ x :: l.
Proof.
  induction l as [|y l IH]; simpl; [reflexivity|].
  destruct (jsstring_leb x y); [reflexivity|].
  rewrite IH. apply Permutation_swap.
Qed.

Lemma sortStrings_perm (l : list jsstring) : sortStrings l ≡ₚ l.
Proof.
  unfold sortStrings. induction l as [|x l IH]; simpl; [reflexivity|].
  rewrite insertSorted_perm, IH. reflexivity.
Qed.

Lemma jsstring_leb_trans (a b c : jsstring) :
  jsstring_leb a b = true -> jsstring_leb b c = true ->
  jsstring_leb a c = true.
Proof.
  revert b c. induction a as [|x a IH]; intros [|y b] [|z c]; simpl;
    try discriminate; try reflexivity.
  intros Hab Hbc.
  apply orb_true_iff in Hab. apply orb_true_iff in Hbc.
  rewrite andb_true_iff in Hab, Hbc.
  rewrite N.ltb_lt, N.eqb_eq in Hab, Hbc.
  apply orb_true_iff. rewrite andb_true_iff, N.ltb_lt, N.eqb_eq.
  destruct Hab as [Hxy|[-> Hab]], Hbc as [Hyz|[-> Hbc]].
  - left. lia.
  - left. exact Hxy.
  - left. exact Hyz.
  - right. split; [reflexivity|]. exact (IH b c Hab Hbc).
Qed.

(** The comparison of the sort is the lexicographic order. *)
Lemma jsstring_leb_lexicographic (a b : jsstring) :
  jsstring_leb a b = true <-> lexicographic a b.
Proof.
  unfold lexicographic. split.
  - revert b. induction a as [|x a IH]; intros [|y b]; simpl;
      try discriminate.
    + intros _. left. exists []. reflexivity.
    + intros _. left. exists (y :: b). reflexivity.
    + intros H. apply orb_true_iff in H. rewrite andb_true_iff in H.
      rewrite N.ltb_lt, N.eqb_eq in H. destruct H as [Hlt|[-> H]].
      * right. exists [], x, y, a, b. auto.
      * destruct (IH b H) as [[rest ->]|(p & u & v & ra & rb & -> & -> & Hlt)].
        -- left. exists rest. reflexivity.
        -- right. exists (y :: p), u, v, ra, rb. auto.
  - intros [[rest ->]|(p & x & y & ra & rb & -> & -> & Hlt)].
    + induction a as [|x a IH]; simpl; [reflexivity|].
      rewrite N.eqb_refl, IH, orb_true_r. reflexivity.
    + induction p as [|c p IH]; simpl.
      * apply N.ltb_lt in Hlt. rewrite Hlt. reflexivity.
      * rewrite N.eqb_refl, IH, orb_true_r. reflexivity.
Qed.

Lemma insertSorted_sorted (x : jsstring) (l : list jsstring) :
  Sorted (fun a b => jsstring_leb a b = true) l ->
  Sorted (fun a b => jsstring_leb a b = true) (insertSorted x l).
Proof.
  induction l as [|y l IH]; simpl; intros Hs.
  - constructor; constructor.
  - destruct (jsstring_leb x y) eqn:E.
    + constructor; [exact Hs|]. constructor. exact E.
    + apply Sorted_inv in Hs. destruct Hs as [Hs Hhd].
      constructor; [apply IH; exact Hs|].
      destruct l as [|z l]; simpl.
      * constructor. apply jsstring_leb_total. exact E.
      * destruct (jsstring_leb x z).
        -- constructor. apply jsstring_leb_total. exact E.
        -- constructor. inversion Hhd; assumption.
Qed.

Lemma StronglySorted_weaken {A} (R R' : A -> A -> Prop) (l : list A) :
  (forall a b, R a b -> R' a b) -> StronglySorted R l -> StronglySorted R' l.
Proof.
  intros Himpl. induction 1 as [|a l _ IH Hall]; constructor; [exact IH|].
  eapply Forall_impl; [exact Hall|]. intros b. apply Himpl.
Qed.

Lemma sortStrings_sorted (l : list jsstring) : sortedStrings (sortStrings l).
Proof.
  unfold sortedStrings.
  apply (StronglySorted_weaken (fun a b => jsstring_leb a b = true)).
  { intros a b. apply jsstring_leb_lexicographic. }
  apply Sorted_StronglySorted.
  { intros a b c. apply jsstring_leb_trans. }
  unfold sortStrings. induction l as [|x l IH]; simpl.
  - constructor.
  - apply insertSorted_sorted. exact IH.
Qed.

(** *** The set of headers *)

Lemma setAdd_elem (s : list jsstring) (x y : jsstring) :
  y ∈ setAdd s x <-> y ∈ s \/ y = x.
Proof.
  unfold setAdd. case_bool_decide as Hin.
  - split; [auto|]. intros [H| ->]; assumption.
  - rewrite elem_of_app, list_elem_of_singleton. reflexivity.
Qed.

Lemma setAdd_NoDup (s : list jsstring) (x : jsstring) :
  NoDup s -> NoDup (setAdd s x).
Proof.
  intros Hnd. unfold setAdd. case_bool_decide as Hin; [exact Hnd|].
  apply NoDup_app. split; [exact Hnd|]. split.
  - intros y Hy Hyx. apply list_elem_of_singleton in Hyx. subst y.
    contradiction.
  - apply NoDup_singleton.
Qed.

Lemma foldl_setAdd_elem (xs s : list jsstring) (y : jsstring) :
  y ∈ foldl setAdd s xs <-> y ∈ s \/ y ∈ xs.
Proof.
  revert s. induction xs as [|x xs IH]; intros s; simpl.
  - split; [auto|]. intros [H|H]; [exact H|]. inversion H.
  - rewrite IH, setAdd_elem, elem_of_cons. tauto.
Qed.

Lemma foldl_setAdd_NoDup (xs s : list jsstring) :
  NoDup s -> NoDup (foldl setAdd s xs).
Proof.
  revert s. induction xs as [|x xs IH]; intros s Hnd; simpl; [exact Hnd|].
  apply IH, setAdd_NoDup, Hnd.
Qed.

Section Pipeline.

Variable rt : Runtime.

(** The loop of [collectUniqueHeaders]: what it returns holds the headers
    it started from and the standardized labels of the files. *)
Lemma collectLoop_spec (files : list jsstring) :
  forall acc log res log',
    collectLoop rt files acc log = Some (res, log') ->
    NoDup acc ->
    NoDup res
    /\ forall h,
         h ∈ res <->
         h ∈ acc
         \/ exists file label,
              file ∈ files /\ label ∈ columnLabels rt file
              /\ h = standardizeHeader label.
Proof.
  induction files as [|file files IH]; intros acc log res log' Hrun Hnd.
  - simpl in Hrun. injection Hrun as <- <-. split; [exact Hnd|].
    intros h. split; [auto|]. intros [H|(f & l & Hf & _)]; [exact H|].
    inversion Hf.
  - simpl in Hrun.
    destruct (parseCsv rt _ _) as [[|cells records]|] eqn:Hp;
      [discriminate| |].
    + destruct (IH _ _ _ _ Hrun (foldl_setAdd_NoDup _ _ Hnd)) as [Hres Hmem].
      split; [exact Hres|]. intros h. rewrite Hmem, foldl_setAdd_elem.
      split.
      * intros [[H|H]|(f & l & Hf & Hl & ->)].
        -- left. exact H.
        -- right. apply list_elem_of_fmap in H. destruct H as (l & -> & Hl).
           exists file, l. split; [left|]. split; [|reflexivity].
           unfold columnLabels. rewrite Hp. exact Hl.
        -- right. exists f, l. split; [right; exact Hf|]. auto.
      * intros [H|(f & l & Hf & Hl & ->)]; [left; left; exact H|].
        apply elem_of_cons in Hf. destruct Hf as [->|Hf].
        -- left. right. apply list_elem_of_fmap. exists l.
           split; [reflexivity|]. unfold columnLabels in Hl.
           rewrite Hp in Hl. exact Hl.
        -- right. exists f, l. auto.
    + destruct (IH _ _ _ _ Hrun Hnd) as [Hres Hmem].
      split; [exact Hres|]. intros h. rewrite Hmem. split.
      * intros [H|(f & l & Hf & Hl & ->)]; [left; exact H|].
        right. exists f, l. split; [right; exact Hf|]. auto.
      * intros [H|(f & l & Hf & Hl & ->)]; [left; exact H|].
        apply elem_of_cons in Hf. destruct Hf as [->|Hf].
        -- unfold columnLabels in Hl. rewrite Hp in Hl. inversion Hl.
        -- right. exists f, l. auto.
Qed.

Lemma collectLoop_settles (files : list jsstring) :
  forall acc log,
    (forall file, file ∈ files -> settles rt file) ->
    exists res, collectLoop rt files acc log = Some res.
Proof.
  induction files as [|file files IH]; intros acc log Hall; simpl.
  - eexists; reflexivity.
  - pose proof (Hall file ltac:(left)) as Hfile. unfold settles in Hfile.
    cbn zeta in Hfile.
    destruct (parseCsv rt _ _) as [[|cells records]|]; [congruence| |];
      apply IH; intros f Hf; apply Hall; right; exact Hf.
Qed.

(** The schema: sorted, without repetition, the union of the
    standardized labels. *)
Lemma collectUniqueHeaders_spec (files : list jsstring)
    (schema : list jsstring) (log : list LogEntry) :
  collectUniqueHeaders rt files = Some (schema, log) ->
  sortedStrings schema /\ NoDup schema
  /\ forall h,
       h ∈ schema <->
       exists file label,
         file ∈ files /\ label ∈ columnLabels rt file
         /\ h = standardizeHeader label.
Proof.
  unfold collectUniqueHeaders.
  destruct (collectLoop rt files [] []) as [[res lg]|] eqn:Hrun;
    [|discriminate].
  intros [= <- <-].
  destruct (collectLoop_spec files _ _ _ _ Hrun (NoDup_nil_2 (A:=jsstring)))
    as [Hnd Hmem].
  split; [apply sortStrings_sorted|]. split.
  - rewrite sortStrings_perm. exact Hnd.
  - intros h. rewrite sortStrings_perm, Hmem. split.
    + intros [H|H]; [inversion H|exact H].
    + intros H. right. exact H.
Qed.

(** *** Rows *)

Lemma filter_elem {A} (p : A -> bool) (l : list A) (x : A) :
  x ∈ List.filter p l <-> x ∈ l /\ p x = true.
Proof. rewrite !list_elem_of_In. apply filter_In. Qed.

Lemma filter_NoDup {A} (p : A -> bool) (l : list A) :
  NoDup l -> NoDup (List.filter p l).
Proof.
  induction 1 as [|x l Hx Hnd IH]; simpl; [constructor|].
  destruct (p x); [|exact IH].
  constructor; [|exact IH]. rewrite filter_elem. tauto.
Qed.

Lemma foldl_insert_lookup {V} (f : jsstring -> V) (keys : list jsstring)
    (acc : gmap jsstring V) (k : jsstring) :
  foldl (fun acc h => <[h := f h]> acc) acc keys !! k
  = if decide (k ∈ keys) then Some (f k) else acc !! k.
Proof.
  revert acc. induction keys as [|h keys IH]; intros acc; cbn [foldl].
  - case_decide as H; [inversion H|reflexivity].
  - rewrite IH. destruct (decide (k ∈ keys)) as [Hin|Hnot].
    + rewrite decide_True; [reflexivity|]. right. exact Hin.
    + destruct (decide (k = h)) as [->|Hne].
      * rewrite lookup_insert_eq, decide_True; [reflexivity|]. left.
      * rewrite lookup_insert_ne by congruence.
        rewrite decide_False; [reflexivity|].
        intros H. apply elem_of_cons in H. tauto.
Qed.

Lemma mapColumns_lookup (allHeaders : list jsstring)
    (row : gmap jsstring jsstring) (k : jsstring) :
  mapColumns allHeaders row !! k
  = if decide (k ∈ allHeaders) then Some (orEmpty (row !! k)) else None.
Proof.
  unfold mapColumns.
  rewrite (foldl_insert_lookup (fun h => orEmpty (row !! h))).
  reflexivity.
Qed.

Lemma normalizeIfPresent_lookup (key : jsstring) (f : jsstring -> jsstring)
    (r : gmap jsstring jsstring) (k : jsstring) :
  normalizeIfPresent key f r !! k
  = if decide (k = key) then whenPresent f <$> r !! k else r !! k.
Proof.
  unfold normalizeIfPresent.
  destruct (decide (k = key)) as [->|Hne].
  - destruct (r !! key) as [[|c s]|] eqn:E; rewrite ?E; try reflexivity.
    rewrite lookup_insert_eq. reflexivity.
  - destruct (r !! key) as [[|c s]|]; try reflexivity.
    rewrite lookup_insert_ne by congruence. reflexivity.
Qed.

Lemma coerceFields_spec (fields : list jsstring) :
  forall r : gmap jsstring Cell,
    NoDup fields ->
    (forall f, f ∈ fields -> exists s, r !! f = Some (CStr s)) ->
    exists r',
      coerceFields r fields = Some r'
      /\ forall k,
           r' !! k
           = if decide (k ∈ fields)
             then match r !! k with
                  | Some (CStr s) => Some (CNum (parseNumericField s))
                  | o => o
                  end
             else r !! k.
Proof.
  induction fields as [|f fields IH]; intros r Hnd Hstr.
  - exists r. split; [reflexivity|]. intros k.
    case_decide as H; [inversion H|reflexivity].
  - apply NoDup_cons in Hnd. destruct Hnd as [Hf Hnd].
    destruct (Hstr f ltac:(left)) as [s Hs].
    simpl. unfold coerceField. rewrite Hs.
    destruct (IH (<[f := CNum (parseNumericField s)]> r) Hnd) as (r' & Hr' & Hk).
    { intros g Hg. destruct (Hstr g ltac:(right; exact Hg)) as [t Ht].
      exists t. rewrite lookup_insert_ne; [exact Ht|].
      intros ->. contradiction. }
    exists r'. split; [exact Hr'|]. intros k. rewrite Hk.
    destruct (decide (k ∈ fields)) as [Hin|Hnot].
    + rewrite decide_True by (right; exact Hin).
      rewrite lookup_insert_ne; [reflexivity|]. intros ->. contradiction.
    + destruct (decide (k = f)) as [->|Hne].
      * rewrite lookup_insert_eq, decide_True by left. rewrite Hs. reflexivity.
      * rewrite lookup_insert_ne by congruence.
        rewrite decide_False; [reflexivity|].
        intros H. apply elem_of_cons in H. tauto.
Qed.

Lemma data_hora_distinct : js "data" <> js "hora".
Proof. vm_compute. discriminate. Qed.

(** The transform of a row against a schema without repetition never
    raises, and its record holds, for every key of the schema and no
    other, the normalized cell of the row's text under that key. *)
Lemma transformRow_spec (allHeaders : list jsstring)
    (row : gmap jsstring jsstring) :
  NoDup allHeaders ->
  exists r,
    transformRow rt allHeaders row = Some r
    /\ forall k,
         r !! k
         = if decide (k ∈ allHeaders)
           then Some (normalizedCell rt k (orEmpty (row !! k)))
           else None.
Proof.
  intros Hnd. unfold transformRow.
  set (m := normalizeIfPresent (js "hora") normalizeTime
              (normalizeIfPresent (js "data") (normalizeDate rt)
                 (mapColumns allHeaders row))).
  assert (forall k,
             m !! k
             = if decide (k ∈ allHeaders)
               then Some (let raw := orEmpty (row !! k) in
                          if bool_decide (raw = []) then []
                          else if bool_decide (k = js "data")
                               then normalizeDate rt raw
                          else if bool_decide (k = js "hora")
                               then normalizeTime raw
                          else raw)
               else None) as Hm.
  { intros k. unfold m.
    rewrite !normalizeIfPresent_lookup, mapColumns_lookup.
    destruct (decide (k ∈ allHeaders)) as [Hin|Hnot].
    - cbn zeta.
      destruct (decide (k = js "hora")) as [->|Hh].
      + rewrite decide_False by (intros H; symmetry in H;
                                 exact (data_hora_distinct H)).
        cbn [fmap option_fmap option_map]. f_equal.
        rewrite (bool_decide_eq_false_2 (js "hora" = js "data"))
          by (intros H; symmetry in H; exact (data_hora_distinct H)).
        rewrite (bool_decide_eq_true_2 (js "hora" = js "hora")) by reflexivity.
        destruct (orEmpty _) as [|c s]; reflexivity.
      + destruct (decide (k = js "data")) as [->|Hd].
        * cbn [fmap option_fmap option_map]. f_equal.
          rewrite (bool_decide_eq_true_2 (js "data" = js "data"))
            by reflexivity.
          destruct (orEmpty _) as [|c s]; reflexivity.
        * cbn [fmap option_fmap option_map]. f_equal.
          rewrite (bool_decide_eq_false_2 (k = js "data")) by assumption.
          rewrite (bool_decide_eq_false_2 (k = js "hora")) by assumption.
          destruct (orEmpty _) as [|c s]; reflexivity.
    - destruct (decide (k = js "hora")), (decide (k = js "data")); reflexivity. }
  destruct (coerceFields_spec (List.filter isNumericField allHeaders)
              (CStr <$> m) (filter_NoDup _ _ Hnd)) as (r & Hr & Hk).
  { intros f Hf. apply filter_elem in Hf. destruct Hf as [Hin _].
    rewrite lookup_fmap, Hm, decide_True by exact Hin.
    eexists. reflexivity. }
  exists r. split; [exact Hr|]. intros k. rewrite Hk, lookup_fmap, Hm.
  unfold normalizedCell.
  destruct (decide (k ∈ allHeaders)) as [Hin|Hnot].
  - destruct (isNumericField k) eqn:Hnum.
    + rewrite decide_True by (apply filter_elem; auto). reflexivity.
    + rewrite decide_False; [reflexivity|].
      rewrite filter_elem. intros [_ H]. congruence.
  - simpl. destruct (decide _); reflexivity.
Qed.

Lemma transformRows_spec (allHeaders headers : list jsstring)
    (records : list (list jsstring)) :
  NoDup allHeaders ->
  exists rs,
    transformRows rt allHeaders headers records = (rs, true)
    /\ Forall2 (fun cells r =>
                  transformRow rt allHeaders (writeRow headers 0 cells ∅)
                  = Some r)
               records rs.
Proof.
  intros Hnd. induction records as [|cells records (rs & Hrs & Hall)]; simpl.
  - exists []. split; [reflexivity|constructor].
  - destruct (transformRow_spec allHeaders (writeRow headers 0 cells ∅) Hnd)
      as (r & Hr & _).
    rewrite Hr, Hrs. exists (r :: rs). split; [reflexivity|].
    constructor; assumption.
Qed.

(** Every record [preprocessFile] writes is the transform of a row. *)
Lemma preprocessFile_written (file : jsstring)
    (allHeaders : list jsstring) (r : gmap jsstring Cell) :
  NoDup allHeaders ->
  r ∈ written (preprocessFile rt file allHeaders) ->
  exists row, transformRow rt allHeaders row = Some r.
Proof.
  intros Hnd. unfold preprocessFile.
  destruct (parseCsv rt _ _) as [[|cells records]|]; simpl;
    try (intros H; inversion H; fail).
  destruct (transformRows_spec allHeaders
              (List.map standardizeHeader cells) records Hnd)
    as (rs & Hrs & Hall).
  rewrite Hrs. simpl. intros Hin.
  apply list_elem_of_lookup in Hin. destruct Hin as [i Hi].
  destruct (Forall2_lookup_r _ _ _ _ _ Hall Hi) as (rec & _ & Hrec).
  eexists. exact Hrec.
Qed.

End Pipeline.

(** C1, as stated, fails: a numeric column that a file lacks is written
    as the number 0 for the rows of that file, not as the empty
    string. *)
Lemma absent_numeric_key_is_zero :
  let rt := nodeHost 0
              [ (js "data/sinistros_a.csv",
                 js "auto,data" ++ [ch_lf] ++ js "2,2024-03-01" ++ [ch_lf]);
                (js "data/sinistros_b.csv",
                 js "data" ++ [ch_lf] ++ js "2024-03-02" ++ [ch_lf]) ] in
  let batch := [js "sinistros_a.csv"; js "sinistros_b.csv"] in
  fst <$> collectUniqueHeaders rt batch = Some [js "auto"; js "data"]
  /\ writeRow [js "data"] 0 [js "2024-03-02"] ∅ !! js "auto" = None
  /\ fieldOf (preprocessAllFiles rt batch) 1 0 (js "auto") = Some (CNum zero)
  /\ fieldOf (preprocessAllFiles rt batch) 1 0 (js "auto") <> Some (CStr []).
Proof. vm_compute. repeat split; discriminate. Qed.

(** C1, amended: when header collection returns (it does as soon as
    every file yields a stream error or a header line) and no column
    label standardises to a name every object inherits ([constructor],
    [__proto__]), the schema is the sorted union, without repetition, of
    [standardizeHeader] applied to every column label of every file; the
    transform of any row against it never raises, and every record
    written holds exactly the keys of the schema; a key that the row
    lacks holds the empty string, or the number 0 when the key is a
    numeric field. *)
Theorem unified_schema_keys :
  forall (rt : Runtime) (files : list jsstring),
    (forall file, file ∈ files -> settles rt file) ->
    (forall file label,
       file ∈ files -> label ∈ columnLabels rt file ->
       standardizeHeader label ∉ inheritedNames) ->
    exists schema log,
      collectUniqueHeaders rt files = Some (schema, log)
      /\ sortedStrings schema
      /\ NoDup schema
      /\ ownNames schema
      /\ (forall h,
            h ∈ schema <->
            exists file label,
              file ∈ files /\ label ∈ columnLabels rt file
              /\ h = standardizeHeader label)
      /\ (forall row,
            exists r,
              transformRow rt schema row = Some r
              /\ (forall k, is_Some (r !! k) <-> k ∈ schema)
              /\ (forall k,
                    k ∈ schema -> row !! k = None ->
                    r !! k = Some (if isNumericField k then CNum zero
                                   else CStr [])))
      /\ (forall file r,
            r ∈ written (preprocessFile rt file schema) ->
            forall k, is_Some (r !! k) <-> k ∈ schema).
Proof.
  intros rt files Hall Hown.
  destruct (collectLoop_settles rt files [] [] Hall) as [[res lg] Hrun].
  assert (collectUniqueHeaders rt files = Some (sortStrings res, lg)) as Hc.
  { unfold collectUniqueHeaders. rewrite Hrun. reflexivity. }
  destruct (collectUniqueHeaders_spec rt files _ _ Hc) as (Hs & Hnd & Hmem).
  exists (sortStrings res), lg.
  split; [exact Hc|]. split; [exact Hs|]. split; [exact Hnd|].
  split.
  { intros h Hin. apply Hmem in Hin.
    destruct Hin as (file & label & Hfile & Hlabel & ->).
    exact (Hown file label Hfile Hlabel). }
  split; [exact Hmem|].
  assert (forall row r,
             transformRow rt (sortStrings res) row = Some r ->
             forall k, is_Some (r !! k) <-> k ∈ sortStrings res) as Hkeys.
  { intros row r Hr k.
    destruct (transformRow_spec rt (sortStrings res) row Hnd) as (r' & Hr' & Hk).
    rewrite Hr in Hr'. injection Hr' as <-. rewrite Hk.
    destruct (decide (k ∈ sortStrings res)) as [Hin|Hnot].
    - split; [auto|]. intros _. eexists. reflexivity.
    - split; [|contradiction]. intros [x Hx]. discriminate. }
  split.
  - intros row.
    destruct (transformRow_spec rt (sortStrings res) row Hnd) as (r & Hr & Hk).
    exists r. split; [exact Hr|]. split; [exact (Hkeys row r Hr)|].
    intros k Hin Hrow. rewrite Hk, decide_True by exact Hin.
    rewrite Hrow. unfold normalizedCell. simpl orEmpty.
    rewrite bool_decide_eq_true_2 by reflexivity. reflexivity.
  - intros file r Hin.
    destruct (preprocessFile_written rt file _ r Hnd Hin) as [row Hrow].
    exact (Hkeys row r Hrow).
Qed.

(** *** The separator *)

Lemma normalizeDate_ext (rt1 rt2 : Runtime) (s : jsstring) :
  agreeOnExtension rt1 rt2 -> normalizeDate rt1 s = normalizeDate rt2 s.
Proof.
  intros (_ & _ & Hparse & Hformat). unfold normalizeDate.
  rewrite Hparse. destruct (dateParse rt2 s); [rewrite Hformat|]; reflexivity.
Qed.

Lemma normalizeIfPresent_ext (key : jsstring) (f g : jsstring -> jsstring)
    (r : gmap jsstring jsstring) :
  (forall s, f s = g s) -> normalizeIfPresent key f r = normalizeIfPresent key g r.
Proof.
  intros Hfg. unfold normalizeIfPresent.
  destruct (r !! key) as [[|c s]|]; [reflexivity| |reflexivity].
  rewrite Hfg. reflexivity.
Qed.

Lemma transformRow_ext (rt1 rt2 : Runtime) (allHeaders : list jsstring)
    (row : gmap jsstring jsstring) :
  agreeOnExtension rt1 rt2 ->
  transformRow rt1 allHeaders row = transformRow rt2 allHeaders row.
Proof.
  intros Hagree. unfold transformRow.
  rewrite (normalizeIfPresent_ext (js "data") (normalizeDate rt1)
             (normalizeDate rt2)); [reflexivity|].
  intros s. apply normalizeDate_ext. exact Hagree.
Qed.

Lemma transformRows_ext (rt1 rt2 : Runtime) (allHeaders headers : list jsstring)
    (records : list (list jsstring)) :
  agreeOnExtension rt1 rt2 ->
  transformRows rt1 allHeaders headers records
  = transformRows rt2 allHeaders headers records.
Proof.
  intros Hagree. induction records as [|cells records IH]; simpl;
    [reflexivity|].
  rewrite (transformRow_ext rt1 rt2) by exact Hagree. rewrite IH. reflexivity.
Qed.

Lemma preprocessFile_ext (rt1 rt2 : Runtime) (file : jsstring)
    (allHeaders : list jsstring) :
  agreeOnExtension rt1 rt2 ->
  preprocessFile rt1 file allHeaders = preprocessFile rt2 file allHeaders.
Proof.
  intros Hagree. pose proof Hagree as (Hdir & Hparse & _).
  unfold preprocessFile. rewrite Hdir, Hparse.
  destruct (parseCsv rt2 _ _) as [[|cells records]|]; try reflexivity.
  rewrite (transformRows_ext rt1 rt2) by exact Hagree. reflexivity.
Qed.

Lemma collectLoop_ext (rt1 rt2 : Runtime) (files : list jsstring) :
  agreeOnExtension rt1 rt2 ->
  forall acc log,
    collectLoop rt1 files acc log = collectLoop rt2 files acc log.
Proof.
  intros (Hdir & Hparse & _).
  induction files as [|file files IH]; intros acc log; simpl; [reflexivity|].
  rewrite Hdir, Hparse.
  destruct (parseCsv rt2 _ _) as [[|cells records]|]; try reflexivity;
    apply IH.
Qed.

(** C6, as stated, fails: a file named [.csv] whose first line holds
    semicolons and no comma is cut at commas all the same, in the header
    pass and in the row pass; the delimiter of its content is not
    consulted. *)
Lemma separator_ignores_content :
  let path := js "data/sinistros_x.csv" in
  let content := js "a;b" ++ [ch_lf] ++ js "1;2" ++ [ch_lf] in
  let rt := nodeHost 0 [(path, content)] in
  fst (detectDelimiterIn path content) = [ch_semicolon]
  /\ detectSeparator path = [ch_comma]
  /\ fst <$> collectUniqueHeaders rt [js "sinistros_x.csv"] = Some [js "ab"]
  /\ fst <$> collectUniqueHeaders rt [js "sinistros_x.csv"]
     <> Some [js "a"; js "b"]
  /\ (written (preprocessFile rt (js "sinistros_x.csv") [js "ab"]) !! 0%nat)
       ≫= (fun r => r !! js "ab")
     = Some (CStr (js "1;2")).
Proof. vm_compute. repeat split; discriminate. Qed.

(** C6, amended: in the schema-unified pipeline the separator a file is
    parsed with, in header collection and in row processing alike, is a
    function of the file's extension alone: a semicolon for [.tsv], a
    comma otherwise.  What the parser would do with any other separator
    changes neither the schema nor any output. *)
Theorem separator_by_extension :
  (forall path,
     detectSeparator path
     = if endsWith (js ".tsv") path then [ch_semicolon] else [ch_comma])
  /\ forall rt1 rt2,
       agreeOnExtension rt1 rt2 ->
       (forall files,
          collectUniqueHeaders rt1 files = collectUniqueHeaders rt2 files)
       /\ (forall file allHeaders,
             preprocessFile rt1 file allHeaders
             = preprocessFile rt2 file allHeaders).
Proof.
  split.
  - intros path. unfold detectSeparator.
    destruct (endsWith (js ".tsv") path); [reflexivity|].
    destruct (endsWith (js ".csv") path); reflexivity.
  - intros rt1 rt2 Hagree. split.
    + intros files. unfold collectUniqueHeaders.
      rewrite (collectLoop_ext rt1 rt2 files Hagree). reflexivity.
    + intros file allHeaders. apply preprocessFile_ext. exact Hagree.
Qed.

(** *** The end-to-end scenario *)

(** A field of a record written by [preprocessAllFiles]. *)
Lemma preprocessAllFiles_field (rt : Runtime) (listing : list jsstring)
    (schema : list jsstring) (log : list LogEntry) (n i : nat)
    (file : jsstring) (cells : list jsstring) (records : list (list jsstring))
    (rec : list jsstring) (key : jsstring) :
  List.filter isInputFile listing !! n = Some file ->
  collectUniqueHeaders rt (List.filter isInputFile listing)
  = Some (schema, log) ->
  parseCsv rt (detectSeparator (pathJoin (inputDirectory rt) file))
              (pathJoin (inputDirectory rt) file)
  = Some (cells :: records) ->
  records !! i = Some rec ->
  fieldOf (preprocessAllFiles rt listing) n i key
  = if decide (key ∈ schema)
    then Some (normalizedCell rt key
                 (orEmpty (writeRow (List.map standardizeHeader cells) 0 rec ∅
                           !! key)))
    else None.
Proof.
  intros Hfile Hschema Hparse Hrec.
  destruct (collectUniqueHeaders_spec rt _ _ _ Hschema) as (_ & Hnd & _).
  unfold preprocessAllFiles.
  destruct (List.filter isInputFile listing) as [|f0 files0] eqn:Hfiles;
    [discriminate|].
  rewrite Hschema. unfold fieldOf. cbn [mbind option_bind].
  change (List.map ?f ?l) with (f <$> l) at 1.
  rewrite list_lookup_fmap, Hfile. cbn [fmap option_fmap option_map].
  unfold preprocessFile. rewrite Hparse.
  destruct (transformRows_spec rt schema (List.map standardizeHeader cells)
              records Hnd) as (rs & Hrs & Hall).
  rewrite Hrs.
  destruct (Forall2_lookup_l _ _ _ _ _ Hall Hrec) as (r & Hr & Hrow).
  cbn [mbind option_bind written]. rewrite Hr. cbn [mbind option_bind].
  destruct (transformRow_spec rt schema
              (writeRow (List.map standardizeHeader cells) 0 rec ∅) Hnd)
    as (r' & Hr' & Hk).
  rewrite Hrow in Hr'. injection Hr' as <-. apply Hk.
Qed.

Lemma normalizedCell_data (rt : Runtime) (raw : jsstring) :
  raw <> [] ->
  normalizedCell rt (js "data") raw = CStr (normalizeDate rt raw).
Proof.
  intros Hne. unfold normalizedCell.
  rewrite (bool_decide_eq_false_2 _ Hne).
  rewrite (bool_decide_eq_true_2 (js "data" = js "data")) by reflexivity.
  reflexivity.
Qed.

Lemma normalizedCell_hora (rt : Runtime) (raw : jsstring) :
  raw <> [] ->
  normalizedCell rt (js "hora") raw = CStr (normalizeTime raw).
Proof.
  intros Hne. unfold normalizedCell.
  rewrite (bool_decide_eq_false_2 _ Hne).
  rewrite (bool_decide_eq_false_2 (js "hora" = js "data"))
    by (intros H; symmetry in H; exact (data_hora_distinct H)).
  rewrite (bool_decide_eq_true_2 (js "hora" = js "hora")) by reflexivity.
  reflexivity.
Qed.

Lemma normalizedCell_empty (rt : Runtime) (key : jsstring) :
  isNumericField key = false -> normalizedCell rt key [] = CStr [].
Proof. intros Hnum. unfold normalizedCell. rewrite Hnum. reflexivity. Qed.

Lemma normalizedCell_text (rt : Runtime) (key raw : jsstring) :
  isNumericField key = false -> key <> js "data" -> key <> js "hora" ->
  normalizedCell rt key raw = CStr raw.
Proof.
  intros Hnum Hd Hh. unfold normalizedCell. rewrite Hnum.
  rewrite (bool_decide_eq_false_2 _ Hd), (bool_decide_eq_false_2 _ Hh).
  case_bool_decide as E; [rewrite E|]; reflexivity.
Qed.

Local Open Scope Z_scope.

(** A numeric date is read and written on the same clock: the day it
    names comes back whatever the host's offset. *)
Lemma normalizeDate_numeric (tz : Z) (files : list (jsstring * jsstring))
    (s : jsstring) (day : Z) :
  s <> [] -> isoDate s = None -> numericDate s = Some day ->
  normalizeDate (nodeHost tz files) s = formatCivil (civilFromDays day).
Proof.
  intros Hne Hiso Hnum. unfold normalizeDate.
  rewrite (bool_decide_eq_false_2 _ Hne). simpl dateParse. simpl formatDate.
  unfold v8DateParse. rewrite Hiso, Hnum. unfold formatYMD.
  replace (day * msPerDay - tz * msPerMinute + tz * msPerMinute)
    with (day * msPerDay) by ring.
  rewrite Z.div_mul by (unfold msPerDay; lia). reflexivity.
Qed.

(** An ISO date is read at midnight UTC: east of Greenwich the day it
    names comes back, west of it the day before. *)
Lemma normalizeDate_iso (tz : Z) (files : list (jsstring * jsstring))
    (s : jsstring) (day : Z) :
  isoDate s = Some day ->
  (0 <= tz < 1440 ->
   normalizeDate (nodeHost tz files) s = formatCivil (civilFromDays day))
  /\ (-1440 <= tz < 0 ->
      normalizeDate (nodeHost tz files) s
      = formatCivil (civilFromDays (day - 1))).
Proof.
  intros Hiso.
  assert (s <> []) as Hne by (intros ->; vm_compute in Hiso; discriminate).
  unfold normalizeDate.
  rewrite (bool_decide_eq_false_2 _ Hne). simpl dateParse. simpl formatDate.
  unfold v8DateParse. rewrite Hiso. unfold formatYMD, msPerDay, msPerMinute.
  split; intros Htz; do 2 f_equal.
  - symmetry. apply (Z.div_unique _ _ _ (tz * 60000)); lia.
  - symmetry. apply (Z.div_unique _ _ _ (86400000 + tz * 60000)); lia.
Qed.

Local Close Scope Z_scope.

Lemma preprocessFile_columns (rt : Runtime) (file : jsstring)
    (allHeaders : list jsstring) :
  columns (preprocessFile rt file allHeaders) = allHeaders.
Proof.
  unfold preprocessFile.
  destruct (parseCsv rt _ _) as [[|cells records]|]; try reflexivity.
  destruct (transformRows _ _ _ _); reflexivity.
Qed.

(** C2, as stated, fails: the engine reads [01/03/2024] month first, and
    the row of file A gets the third of January. *)
Lemma scenario_date_is_month_first :
  let out := scenario 0 (js "sinistros_a.csv") (js "sinistros_b.tsv") in
  List.map (fun o => columns (snd o)) <$> out
  = Some [ [js "data"; js "hora"; js "situacao"; js "tipo"];
           [js "data"; js "hora"; js "situacao"; js "tipo"] ]
  /\ fieldOf out 0 0 (js "data") = Some (CStr (js "2024-01-03"))
  /\ fieldOf out 0 0 (js "data") <> Some (CStr (js "2024-03-01")).
Proof. vm_compute. repeat split; discriminate. Qed.

(** West of Greenwich the ISO date of file B loses a day as well. *)
Lemma scenario_date_west_of_utc :
  fieldOf (scenario (-180) (js "sinistros_a.csv") (js "sinistros_b.tsv"))
          1 0 (js "data")
  = Some (CStr (js "2024-03-01")).
Proof. vm_compute. reflexivity. Qed.

(** Rewrites a field of the scenario's output into the normalized cell of
    its raw text. *)
Ltac scenario_field n i file cells rec :=
  rewrite (preprocessAllFiles_field _ _
             [js "data"; js "hora"; js "situacao"; js "tipo"] []
             n i file cells [rec] rec);
  [ rewrite decide_True by (apply (bool_decide_unpack _); vm_compute; exact I)
  | vm_compute; reflexivity
  | vm_compute; reflexivity
  | vm_compute; reflexivity
  | reflexivity ].

(** C2, amended: with file A named [sinistros_a.csv] and file B named
    [sinistros_b.tsv], on a host whose clock is at or east of UTC, the
    schema is [data, hora, situacao, tipo]; the row of file A has
    data 2024-01-03 (the date is read month first), hora 14:05:00, tipo
    Colisão and an empty situacao; the row of file B has data
    2024-03-02, situacao Resolvido, and empty hora and tipo. *)
Theorem scenario_rows :
  forall tz : Z,
    (0 <= tz < 1440)%Z ->
    let out := scenario tz (js "sinistros_a.csv") (js "sinistros_b.tsv") in
    List.map (fun o => columns (snd o)) <$> out
    = Some [ [js "data"; js "hora"; js "situacao"; js "tipo"];
             [js "data"; js "hora"; js "situacao"; js "tipo"] ]
    /\ fieldOf out 0 0 (js "data") = Some (CStr (js "2024-01-03"))
    /\ fieldOf out 0 0 (js "hora") = Some (CStr (js "14:05:00"))
    /\ fieldOf out 0 0 (js "tipo") = Some (CStr colisao)
    /\ fieldOf out 0 0 (js "situacao") = Some (CStr [])
    /\ fieldOf out 1 0 (js "data") = Some (CStr (js "2024-03-02"))
    /\ fieldOf out 1 0 (js "situacao") = Some (CStr (js "Resolvido"))
    /\ fieldOf out 1 0 (js "hora") = Some (CStr [])
    /\ fieldOf out 1 0 (js "tipo") = Some (CStr []).
Proof.
  intros tz Htz. cbn zeta. unfold scenario.
  set (rt := nodeHost tz (scenarioFiles (js "sinistros_a.csv")
                                        (js "sinistros_b.tsv"))).
  set (cellsA := [js "Data"; js "Hora"; js "Tipo"]).
  set (recA := [js "01/03/2024"; js "14:5"; colisao]).
  set (cellsB := [js "data"; js "situacao"]).
  set (recB := [js "2024-03-02"; js "Resolvido"]).
  split.
  { unfold preprocessAllFiles.
    replace (List.filter isInputFile [js "sinistros_a.csv"; js "sinistros_b.tsv"])
      with [js "sinistros_a.csv"; js "sinistros_b.tsv"]
      by (vm_compute; reflexivity).
    replace (collectUniqueHeaders rt
               [js "sinistros_a.csv"; js "sinistros_b.tsv"])
      with (Some ([js "data"; js "hora"; js "situacao"; js "tipo"],
                  @nil LogEntry))
      by (vm_compute; reflexivity).
    cbn [fmap option_fmap option_map List.map snd].
    rewrite !preprocessFile_columns. reflexivity. }
  split.
  { scenario_field 0%nat 0%nat (js "sinistros_a.csv") cellsA recA.
    replace (writeRow (List.map standardizeHeader cellsA) 0 recA ∅ !! js "data")
      with (Some (js "01/03/2024")) by (vm_compute; reflexivity).
    cbn [orEmpty js List.map list_ascii_of_string].
    rewrite normalizedCell_data by discriminate.
    unfold rt.
    rewrite (normalizeDate_numeric tz _ _ 19725%Z);
      [vm_compute; reflexivity | discriminate
      | vm_compute; reflexivity | vm_compute; reflexivity]. }
  split.
  { scenario_field 0%nat 0%nat (js "sinistros_a.csv") cellsA recA.
    replace (writeRow (List.map standardizeHeader cellsA) 0 recA ∅ !! js "hora")
      with (Some (js "14:5")) by (vm_compute; reflexivity).
    cbn [orEmpty js List.map list_ascii_of_string].
    rewrite normalizedCell_hora by discriminate.
    vm_compute. reflexivity. }
  split.
  { scenario_field 0%nat 0%nat (js "sinistros_a.csv") cellsA recA.
    replace (writeRow (List.map standardizeHeader cellsA) 0 recA ∅ !! js "tipo")
      with (Some colisao) by (vm_compute; reflexivity).
    rewrite normalizedCell_text;
      [vm_compute; reflexivity | vm_compute; reflexivity
      | vm_compute; discriminate | vm_compute; discriminate]. }
  split.
  { scenario_field 0%nat 0%nat (js "sinistros_a.csv") cellsA recA.
    replace (writeRow (List.map standardizeHeader cellsA) 0 recA ∅
             !! js "situacao")
      with (@None jsstring) by (vm_compute; reflexivity).
    rewrite normalizedCell_text;
      [reflexivity | vm_compute; reflexivity
      | vm_compute; discriminate | vm_compute; discriminate]. }
  split.
  { scenario_field 1%nat 0%nat (js "sinistros_b.tsv") cellsB recB.
    replace (writeRow (List.map standardizeHeader cellsB) 0 recB ∅ !! js "data")
      with (Some (js "2024-03-02")) by (vm_compute; reflexivity).
    cbn [orEmpty js List.map list_ascii_of_string].
    rewrite normalizedCell_data by discriminate.
    unfold rt.
    rewrite (proj1 (normalizeDate_iso tz _ (js "2024-03-02") 19784%Z
                      ltac:(vm_compute; reflexivity)) Htz).
    vm_compute. reflexivity. }
  split.
  { scenario_field 1%nat 0%nat (js "sinistros_b.tsv") cellsB recB.
    replace (writeRow (List.map standardizeHeader cellsB) 0 recB ∅
             !! js "situacao")
      with (Some (js "Resolvido")) by (vm_compute; reflexivity).
    rewrite normalizedCell_text;
      [vm_compute; reflexivity | vm_compute; reflexivity
      | vm_compute; discriminate | vm_compute; discriminate]. }
  split.
  { scenario_field 1%nat 0%nat (js "sinistros_b.tsv") cellsB recB.
    replace (writeRow (List.map standardizeHeader cellsB) 0 recB ∅ !! js "hora")
      with (@None jsstring) by (vm_compute; reflexivity).
    rewrite normalizedCell_empty; [reflexivity | vm_compute; reflexivity]. }
  { scenario_field 1%nat 0%nat (js "sinistros_b.tsv") cellsB recB.
    replace (writeRow (List.map standardizeHeader cellsB) 0 recB ∅ !! js "tipo")
      with (@None jsstring) by (vm_compute; reflexivity).
    rewrite normalizedCell_empty; [reflexivity | vm_compute; reflexivity]. }
Qed.

Lemma scenario_rows_witness :
  (0 <= 0 < 1440)%Z
  /\ fieldOf (scenario 0 (js "sinistros_a.csv") (js "sinistros_b.tsv"))
             0 0 (js "data")
     = Some (CStr (js "2024-01-03")).
Proof.
  assert (0 <= 0 < 1440)%Z as H by lia.
  split; [exact H|].
  exact (proj1 (proj2 (scenario_rows 0%Z H))).
Defined.

(** *** Instances *)

Lemma unified_schema_keys_witness :
  let rt := nodeHost 0 (scenarioFiles (js "sinistros_a.csv")
                                      (js "sinistros_b.tsv")) in
  let batch := [js "sinistros_a.csv"; js "sinistros_b.tsv"] in
  (forall file, file ∈ batch -> settles rt file)
  /\ (forall file label,
        file ∈ batch -> label ∈ columnLabels rt file ->
        standardizeHeader label ∉ inheritedNames)
  /\ exists schema log,
       collectUniqueHeaders rt batch = Some (schema, log)
       /\ sortedStrings schema /\ NoDup schema /\ ownNames schema.
Proof.
  cbn zeta.
  assert (forall file label,
             file ∈ [js "sinistros_a.csv"; js "sinistros_b.tsv"] ->
             label ∈ columnLabels
                       (nodeHost 0 (scenarioFiles (js "sinistros_a.csv")
                                                  (js "sinistros_b.tsv")))
                       file ->
             standardizeHeader label ∉ inheritedNames) as Hown.
  { intros file label Hin Hlabel.
    apply elem_of_cons in Hin. destruct Hin as [->|Hin];
      [|apply list_elem_of_singleton in Hin; subst file];
      vm_compute in Hlabel;
      repeat (apply elem_of_cons in Hlabel;
              destruct Hlabel as [->|Hlabel];
              [apply (bool_decide_unpack _); vm_compute; exact I|]);
      inversion Hlabel. }
  assert (forall file,
             file ∈ [js "sinistros_a.csv"; js "sinistros_b.tsv"] ->
             settles (nodeHost 0 (scenarioFiles (js "sinistros_a.csv")
                                                (js "sinistros_b.tsv"))) file)
    as Hsettles.
  { intros file Hin. apply elem_of_cons in Hin. destruct Hin as [->|Hin].
    - vm_compute. discriminate.
    - apply list_elem_of_singleton in Hin. subst file.
      vm_compute. discriminate. }
  split; [exact Hsettles|]. split; [exact Hown|].
  destruct (unified_schema_keys _ _ Hsettles Hown)
    as (schema & log & Hc & Hs & Hnd & Hnames & _).
  exists schema, log. auto.
Defined.

Lemma separator_by_extension_witness :
  let files := [(js "data/sinistros_x.csv",
                 js "a;b" ++ [ch_lf] ++ js "1;2" ++ [ch_lf])] in
  let rt1 := nodeHost 0 files in
  let rt2 :=
    mkRuntime (js "data")
      (fun separator path =>
         if bool_decide (separator = detectSeparator path)
         then parseCsv rt1 separator path else None)
      (dateParse rt1) (formatDate rt1) in
  agreeOnExtension rt1 rt2
  /\ collectUniqueHeaders rt1 [js "sinistros_x.csv"]
     = collectUniqueHeaders rt2 [js "sinistros_x.csv"].
Proof.
  cbn zeta.
  match goal with |- agreeOnExtension ?a ?b /\ _ =>
    assert (agreeOnExtension a b) as Hagree
  end.
  { split; [reflexivity|]. split; [|split; reflexivity].
    intros path. cbn [parseCsv].
    rewrite bool_decide_eq_true_2 by reflexivity. reflexivity. }
  split; [exact Hagree|].
  exact (proj1 (proj2 separator_by_extension _ _ Hagree) _).
Defined.

Lemma standardizeHeader_idempotent_witness :
  whiteSpaceRun (js " ") /\ headerWord (js "tipo")
  /\ standardizeHeader
       (js " " ++ (js "tipo" ++ js "  " ++ js "acidente") ++ js " ")
     = js "tipo" ++ [ch_underscore] ++ js "acidente".
Proof.
  assert (whiteSpaceRun (js " ")) as H1 by (repeat constructor).
  assert (whiteSpaceRun (js "  ")) as H2 by (repeat constructor).
  assert (headerWord (js "tipo")) as H3 by (repeat constructor).
  assert (headerWord (js "acidente")) as H4 by (repeat constructor).
  split; [exact H1|]. split; [exact H3|].
  apply (proj1 (proj2 (proj2 (proj2 standardizeHeader_idempotent))));
    try assumption; discriminate.
Defined.

(** ** Times *)

Lemma split_no_sep (c : N) (a : jsstring) : c ∉ a -> split c a = [a].
Proof.
  induction a as [|x a IH]; intros Hnot; simpl; [reflexivity|].
  destruct (N.eqb_spec x c) as [->|Hne].
  - exfalso. apply Hnot. left.
  - rewrite IH; [reflexivity|]. intros Hin. apply Hnot. right. exact Hin.
Qed.

Lemma split_app_sep (c : N) (a b : jsstring) :
  c ∉ a -> split c (a ++ c :: b) = a :: split c b.
Proof.
  induction a as [|x a IH]; intros Hnot; simpl.
  - rewrite N.eqb_refl. reflexivity.
  - destruct (N.eqb_spec x c) as [->|Hne].
    + exfalso. apply Hnot. left.
    + rewrite IH; [reflexivity|]. intros Hin. apply Hnot. right. exact Hin.
Qed.

Lemma split_parts (c : N) (s : jsstring) :
  Forall (fun p => c ∉ p) (split c s).
Proof.
  induction s as [|x s IH]; simpl.
  - constructor; [|constructor]. intros H. inversion H.
  - destruct (N.eqb_spec x c) as [->|Hne].
    + constructor; [|exact IH]. intros H. inversion H.
    + destruct (split c s) as [|p ps]; [repeat constructor|].
      * intros H. apply list_elem_of_singleton in H. congruence.
      * inversion IH as [|? ? Hp Hps]; subst.
        constructor; [|exact Hps]. intros H. apply elem_of_cons in H.
        destruct H as [H|H]; [congruence|contradiction].
Qed.

Lemma split_with_sep (c : N) (s : jsstring) :
  c ∈ s -> exists h m rest, split c s = h :: m :: rest.
Proof.
  intros Hin. apply list_elem_of_split_l in Hin.
  destruct Hin as (a & b & -> & Hnot).
  rewrite split_app_sep by exact Hnot.
  pose proof (split_nonempty c b) as Hne.
  destruct (split c b) as [|m rest]; [congruence|].
  exists a, m, rest. reflexivity.
Qed.

Lemma padStart0_length (n : nat) (s : jsstring) :
  (n <= length (padStart0 n s))%nat.
Proof. unfold padStart0. rewrite length_app, repeat_length. lia. Qed.

Lemma padStart0_long (n : nat) (s : jsstring) :
  (n <= length s)%nat -> padStart0 n s = s.
Proof.
  intros Hlen. unfold padStart0.
  replace (n - length s)%nat with 0%nat by lia. reflexivity.
Qed.

Lemma padStart0_keeps_out (n : nat) (c : N) (s : jsstring) :
  c <> ch_0 -> c ∉ s -> c ∉ padStart0 n s.
Proof.
  intros Hc Hs Hin. unfold padStart0 in Hin. apply elem_of_app in Hin.
  destruct Hin as [Hin|Hin]; [|contradiction].
  apply list_elem_of_In, repeat_spec in Hin. contradiction.
Qed.

(** The three parts [normalizeTime] writes for a text cut at its colons. *)
Lemma normalizeTime_parts (s h m : jsstring) (rest : list jsstring) :
  s <> [] -> split ch_colon s = h :: m :: rest ->
  normalizeTime s
  = padStart0 2 h ++ [ch_colon] ++ padStart0 2 m ++ [ch_colon]
    ++ match rest with
       | (c :: p) :: _ => padStart0 2 (c :: p)
       | _ => js "00"
       end.
Proof.
  intros Hne Hsplit. unfold normalizeTime.
  rewrite (bool_decide_eq_false_2 _ Hne), Hsplit. cbn [length Nat.leb].
  unfold at_index. cbn [lookup list_lookup default].
  destruct rest as [|[|c p] rest']; reflexivity.
Qed.

Lemma normalizeTime_written (h m sec : jsstring) :
  ch_colon ∉ h -> ch_colon ∉ m -> ch_colon ∉ sec ->
  (2 <= length h)%nat -> (2 <= length m)%nat -> (2 <= length sec)%nat ->
  normalizeTime (h ++ [ch_colon] ++ m ++ [ch_colon] ++ sec)
  = h ++ [ch_colon] ++ m ++ [ch_colon] ++ sec.
Proof.
  intros Hh Hm Hs Lh Lm Ls.
  rewrite (normalizeTime_parts _ h m [sec]).
  - rewrite !padStart0_long by assumption.
    destruct sec as [|c p]; [simpl in Ls; lia|].
    rewrite padStart0_long by assumption. reflexivity.
  - destruct h; discriminate.
  - cbn [app]. rewrite split_app_sep by exact Hh.
    rewrite split_app_sep by exact Hm.
    rewrite split_no_sep by exact Hs. reflexivity.
Qed.

(** X1: [normalizeTime] gives the empty string exactly for the texts without
    a colon, and writing a time it has written changes nothing. *)
Theorem normalizeTime_idempotent :
  (forall s, normalizeTime s = [] <-> ch_colon ∉ s)
  /\ (forall s, normalizeTime (normalizeTime s) = normalizeTime s).
Proof.
  assert (forall s h m rest,
             s <> [] -> split ch_colon s = h :: m :: rest ->
             exists H M S,
               normalizeTime s = H ++ [ch_colon] ++ M ++ [ch_colon] ++ S
               /\ (ch_colon ∉ H) /\ (ch_colon ∉ M) /\ (ch_colon ∉ S)
               /\ (2 <= length H)%nat /\ (2 <= length M)%nat
               /\ (2 <= length S)%nat) as Hshape.
  { intros s h m rest Hne Hsplit.
    pose proof (split_parts ch_colon s) as Hparts. rewrite Hsplit in Hparts.
    inversion Hparts as [|? ? Hh Hrest]; subst.
    inversion Hrest as [|? ? Hm Hrest']; subst.
    rewrite (normalizeTime_parts s h m rest Hne Hsplit).
    assert (ch_colon <> ch_0) as Hc0 by discriminate.
    eexists _, _, _. split; [reflexivity|].
    split; [apply padStart0_keeps_out; assumption|].
    split; [apply padStart0_keeps_out; assumption|].
    split.
    { destruct rest as [|[|c p] rest''].
      - intros H. vm_compute in H. repeat (apply elem_of_cons in H;
          destruct H as [H|H]; [discriminate|]). inversion H.
      - intros H. vm_compute in H. repeat (apply elem_of_cons in H;
          destruct H as [H|H]; [discriminate|]). inversion H.
      - apply padStart0_keeps_out; [assumption|].
        inversion Hrest'; assumption. }
    split; [apply padStart0_length|]. split; [apply padStart0_length|].
    destruct rest as [|[|c p] rest'']; try (simpl; lia).
    apply padStart0_length. }
  split.
  - intros s. split.
    + intros Hempty Hin.
      destruct (split_with_sep ch_colon s Hin) as (h & m & rest & Hsplit).
      assert (s <> []) as Hne by (intros ->; inversion Hin).
      destruct (Hshape s h m rest Hne Hsplit) as (H & M & S & Heq & _).
      rewrite Heq in Hempty. destruct H; discriminate.
    + intros Hnot. unfold normalizeTime. case_bool_decide; [reflexivity|].
      rewrite split_no_sep by exact Hnot. reflexivity.
  - intros s. destruct (decide (ch_colon ∈ s)) as [Hin|Hnot].
    + destruct (split_with_sep ch_colon s Hin) as (h & m & rest & Hsplit).
      assert (s <> []) as Hne by (intros ->; inversion Hin).
      destruct (Hshape s h m rest Hne Hsplit)
        as (H & M & S & -> & HH & HM & HS & LH & LM & LS).
      apply normalizeTime_written; assumption.
    + assert (normalizeTime s = []) as ->; [|reflexivity].
      unfold normalizeTime. case_bool_decide; [reflexivity|].
      rewrite split_no_sep by exact Hnot. reflexivity.
Qed.

Lemma colon_not_in_digits (l : jsstring) :
  Forall (fun c => 48 <= c <= 57) l -> ch_colon ∉ l.
Proof.
  intros Hall Hin. rewrite Forall_forall in Hall.
  apply Hall in Hin. unfold ch_colon in Hin. lia.
Qed.

(** X2: A time that [isValidTime] accepts is already in the form
    [normalizeTime] writes: the two normalisers of the two pipelines agree
    on the strict HH:mm:ss times. *)
Theorem normalizeTime_valid_time (t : jsstring) :
  isValidTime t = true -> normalizeTime t = t.
Proof.
  intros H.
  destruct t as [|h1 [|h2 [|c1 [|m1 [|m2 [|c2 [|s1 [|s2 [|x t]]]]]]]]];
    try discriminate.
  unfold isValidTime, inClass, isDigit in H.
  rewrite !andb_true_iff, !orb_true_iff, !andb_true_iff, !N.leb_le,
    !N.eqb_eq in H.
  destruct H as ((((Hh & Hc1) & Hm) & Hc2) & Hs). subst c1 c2.
  apply (normalizeTime_written [h1; h2] [m1; m2] [s1; s2]);
    try (simpl; lia);
    apply colon_not_in_digits; repeat constructor; lia.
Qed.

Lemma normalizeTime_valid_time_witness :
  normalizeTime (js "23:59:07") = js "23:59:07".
Proof. apply (normalizeTime_valid_time (js "23:59:07")). reflexivity. Defined.

(** ** Timestamps *)

Lemma elem_of_dropWhile {A} (p : A -> bool) (x : A) (l : list A) :
  x ∈ dropWhile p l -> x ∈ l.
Proof.
  induction l as [|y l IH]; simpl; [auto|].
  destruct (p y); [|auto]. intros H. right. apply IH. exact H.
Qed.

Lemma elem_of_trim (x : N) (s : jsstring) : x ∈ trim s -> x ∈ s.
Proof.
  unfold trim, trimEnd, trimStart. intros H.
  apply list_elem_of_In, in_rev, list_elem_of_In, elem_of_dropWhile in H.
  apply list_elem_of_In, in_rev, list_elem_of_In, elem_of_dropWhile in H.
  exact H.
Qed.

Lemma textBefore_free (c : N) (s : jsstring) : c ∉ textBefore c s.
Proof.
  unfold textBefore. induction s as [|x s IH]; simpl.
  - intros H. inversion H.
  - destruct (N.eqb_spec x c) as [->|Hne]; simpl.
    + intros H. inversion H.
    + intros H. apply elem_of_cons in H. destruct H as [H|H]; [congruence|].
      apply IH. exact H.
Qed.

Lemma isValidTime_length (t : jsstring) :
  isValidTime t = true -> length t = 8%nat.
Proof.
  destruct t as [|h1 [|h2 [|c1 [|m1 [|m2 [|c2 [|s1 [|s2 [|x t]]]]]]]]];
    try discriminate.
  reflexivity.
Qed.

(** The parts of a timestamp, and when the warning is logged. *)
Lemma combineDateTime_parts (dateString : jsstring)
    (timeString : option jsstring) :
  exists time,
    fst (combineDateTime dateString timeString)
    = trim (textBefore ch_T dateString) ++ [ch_T] ++ time ++ utcOffset
    /\ isValidTime time = true
    /\ ((snd (combineDateTime dateString timeString) = []
         /\ exists t, timeString = Some t /\ time = trim (textBefore ch_dot t))
        \/ (snd (combineDateTime dateString timeString)
            = [invalidTimeWarning timeString]
            /\ time = fallbackTime)).
Proof.
  unfold combineDateTime. rewrite first_split.
  destruct timeString as [t|].
  - rewrite first_split.
    destruct (negb (bool_decide (t = []))
              && isValidTime (trim (textBefore ch_dot t))) eqn:E.
    + apply andb_true_iff in E. destruct E as [_ E].
      eexists. split; [reflexivity|]. split; [exact E|].
      left. split; [reflexivity|]. exists t. split; reflexivity.
    + exists fallbackTime. split; [reflexivity|]. split; [reflexivity|].
      right. split; reflexivity.
  - exists fallbackTime. split; [reflexivity|]. split; [reflexivity|].
    right. split; reflexivity.
Qed.

(** X3: The timestamp [combineDateTime] returns reads back: its first T is the
    separator (the date part holds none), the eight code units after it are
    a time [isValidTime] accepts, and the rest is the offset.  Either
    nothing is logged and that time is the given one cleaned, or the one
    warning is logged and the time is 00:00:00. *)
Theorem combineDateTime_reads_back (dateString : jsstring)
    (timeString : option jsstring) :
  let stamp := fst (combineDateTime dateString timeString) in
  let logged := snd (combineDateTime dateString timeString) in
  let date := textBefore ch_T stamp in
  let time := take 8 (drop (S (length date)) stamp) in
  date = trim (textBefore ch_T dateString)
  /\ isValidTime time = true
  /\ drop (S (length date) + 8) stamp = utcOffset
  /\ ((logged = []
       /\ exists t, timeString = Some t /\ time = trim (textBefore ch_dot t))
      \/ (logged = [invalidTimeWarning timeString] /\ time = fallbackTime)).
Proof.
  cbv zeta.
  destruct (combineDateTime_parts dateString timeString)
    as (time & Hstamp & Hvalid & Hlog).
  rewrite Hstamp.
  set (date := trim (textBefore ch_T dateString)).
  assert (ch_T ∉ date) as Hfree.
  { intros Hin. apply elem_of_trim in Hin.
    exact (textBefore_free ch_T dateString Hin). }
  assert (textBefore ch_T (date ++ [ch_T] ++ time ++ utcOffset) = date)
    as Hdate by (apply textBefore_app; exact Hfree).
  rewrite Hdate.
  assert (drop (S (length date)) (date ++ [ch_T] ++ time ++ utcOffset)
          = time ++ utcOffset) as Hdrop.
  { change (date ++ [ch_T] ++ time ++ utcOffset)
      with (date ++ ch_T :: (time ++ utcOffset)).
    rewrite (cons_middle ch_T), app_assoc.
    rewrite drop_app_length'; [reflexivity|].
    rewrite length_app. simpl. lia. }
  pose proof (isValidTime_length time Hvalid) as Hlen.
  assert (take 8 (time ++ utcOffset) = time) as Htake.
  { rewrite take_app_length'; [reflexivity|symmetry; exact Hlen]. }
  split; [reflexivity|].
  rewrite Hdrop, Htake. split; [exact Hvalid|].
  split.
  { rewrite <- drop_drop, Hdrop.
    rewrite drop_app_length'; [reflexivity|symmetry; exact Hlen]. }
  exact Hlog.
Qed.

(** ** Headers and letter case *)

Lemma asciiUpper_space (c : N) :
  isWhiteSpace (asciiUpper c) = isWhiteSpace c.
Proof.
  unfold asciiUpper, inClass.
  destruct (N.leb_spec 97 c); [destruct (N.leb_spec c 122)|];
    cbn [andb]; try reflexivity.
  unfold isWhiteSpace. ndecide. reflexivity.
Qed.

Lemma asciiUpper_lower (c : N) : lowerUnit (asciiUpper c) = lowerUnit c.
Proof.
  unfold asciiUpper, inClass.
  destruct (N.leb_spec 97 c); [destruct (N.leb_spec c 122)|];
    cbn [andb]; try reflexivity.
  unfold lowerUnit, inClass. ndecide. cbn [andb orb negb]. f_equal. lia.
Qed.

Lemma dropWhile_map {A} (p : A -> bool) (f : A -> A) (l : list A) :
  (forall x, p (f x) = p x) ->
  dropWhile p (List.map f l) = List.map f (dropWhile p l).
Proof.
  intros Hp. induction l as [|x l IH]; simpl; [reflexivity|].
  rewrite Hp. destruct (p x); [exact IH|reflexivity].
Qed.

Lemma trim_asciiUpper (s : jsstring) :
  trim (List.map asciiUpper s) = List.map asciiUpper (trim s).
Proof.
  unfold trim, trimEnd, trimStart.
  rewrite (dropWhile_map _ _ _ asciiUpper_space), <- map_rev,
    (dropWhile_map _ _ _ asciiUpper_space), map_rev.
  reflexivity.
Qed.

Lemma toLowerCase_asciiUpper (s : jsstring) :
  toLowerCase (List.map asciiUpper s) = toLowerCase s.
Proof.
  unfold toLowerCase. induction s as [|c s IH]; simpl; [reflexivity|].
  rewrite asciiUpper_lower, IH. reflexivity.
Qed.

(** X4: [standardizeHeader] does not see the case of ASCII letters: two labels
    that are equal once their small letters a-z are capitalised get the
    same header. *)
Theorem standardizeHeader_ignores_case (a b : jsstring) :
  List.map asciiUpper a = List.map asciiUpper b ->
  standardizeHeader a = standardizeHeader b.
Proof.
  assert (forall s, standardizeHeader (List.map asciiUpper s)
                    = standardizeHeader s) as Hup.
  { intros s. unfold standardizeHeader.
    rewrite trim_asciiUpper, toLowerCase_asciiUpper. reflexivity. }
  intros Heq. rewrite <- (Hup a), <- (Hup b), Heq. reflexivity.
Qed.

Lemma standardizeHeader_ignores_case_witness :
  standardizeHeader (js " Data Hora ") = standardizeHeader (js " DATA hOrA ").
Proof.
  apply (standardizeHeader_ignores_case (js " Data Hora ") (js " DATA hOrA ")).
  reflexivity.
Defined.

(** ** The schema of a batch *)

(** X5: Every header of the schema is made of the characters a-z, 0-9 and _
    only, and [standardizeHeader] leaves it as it is. *)
Theorem schema_headers_standard (rt : Runtime) (files schema : list jsstring)
    (log : list LogEntry) (h : jsstring) :
  collectUniqueHeaders rt files = Some (schema, log) ->
  h ∈ schema ->
  headerWord h /\ standardizeHeader h = h.
Proof.
  intros Hc Hin.
  destruct (collectUniqueHeaders_spec rt files schema log Hc) as (_ & _ & Hmem).
  apply Hmem in Hin. destruct Hin as (file & label & _ & _ & ->).
  split; [apply standardizeHeader_headerWord|].
  apply standardizeHeader_fixed, standardizeHeader_headerWord.
Qed.

Lemma schema_headers_standard_witness :
  headerWord (js "data") /\ standardizeHeader (js "data") = js "data".
Proof.
  apply (schema_headers_standard
           (nodeHost 0 (scenarioFiles (js "sinistros_a.csv")
                                      (js "sinistros_b.tsv")))
           [js "sinistros_a.csv"; js "sinistros_b.tsv"]
           [js "data"; js "hora"; js "situacao"; js "tipo"] []).
  - vm_compute. reflexivity.
  - left.
Defined.

Lemma collectLoop_log (rt : Runtime) (files : list jsstring) :
  forall acc log res log',
    collectLoop rt files acc log = Some (res, log') ->
    log' = log ++ flat_map headerErrorLog (List.filter (streamFails rt) files).
Proof.
  induction files as [|file files IH]; intros acc log res log' Hrun.
  - simpl in Hrun. injection Hrun as _ <-. simpl. rewrite app_nil_r.
    reflexivity.
  - simpl in Hrun. cbn [List.filter]. unfold streamFails at 1. cbn zeta.
    destruct (parseCsv rt _ _) as [[|cells records]|]; [discriminate| |].
    + eapply IH. exact Hrun.
    + apply IH in Hrun. rewrite Hrun. cbn [flat_map].
      rewrite <- app_assoc. reflexivity.
Qed.

(** X6: A file whose stream fails does not stop header collection: when
    collection returns, its log holds the two error entries of every such
    file, in the order of the files, and nothing else. *)
Theorem collectUniqueHeaders_log (rt : Runtime) (files schema : list jsstring)
    (log : list LogEntry) :
  collectUniqueHeaders rt files = Some (schema, log) ->
  log = flat_map headerErrorLog (List.filter (streamFails rt) files)
  /\ Forall (fun e => isErrorEntry e = true) log
  /\ length log = (2 * length (List.filter (streamFails rt) files))%nat.
Proof.
  unfold collectUniqueHeaders.
  destruct (collectLoop rt files [] []) as [[res lg]|] eqn:Hrun;
    [|discriminate].
  intros [= <- <-]. apply collectLoop_log in Hrun. simpl in Hrun.
  subst lg. split; [reflexivity|].
  induction (List.filter (streamFails rt) files) as [|f l IH];
    [split; [constructor|reflexivity]|].
  destruct IH as [IH1 IH2]. cbn [flat_map]. split.
  - apply Forall_app. split; [|exact IH1]. repeat constructor.
  - rewrite length_app, IH2. simpl. lia.
Qed.

Lemma collectUniqueHeaders_log_witness :
  let rt := mkRuntime (js "data")
              (fun _ path => if bool_decide (path = js "data/b.csv") then None
                             else Some [[js "Data"; js "Hora"]])
              (fun _ => None) (fun _ => []) in
  exists schema,
    collectUniqueHeaders rt [js "a.csv"; js "b.csv"; js "c.csv"]
    = Some (schema, headerErrorLog (js "b.csv")).
Proof.
  cbn zeta.
  destruct (collectUniqueHeaders _ [js "a.csv"; _; _])
    as [[schema log]|] eqn:E; [|vm_compute in E; discriminate].
  exists schema. f_equal. f_equal.
  destruct (collectUniqueHeaders_log _ _ _ _ E) as (H & _).
  rewrite H. vm_compute. reflexivity.
Defined.

Lemma jsstring_leb_antisym (a b : jsstring) :
  jsstring_leb a b = true -> jsstring_leb b a = true -> a = b.
Proof.
  revert b. induction a as [|x a IH]; intros [|y b]; simpl;
    try discriminate; [reflexivity|].
  rewrite !orb_true_iff, !andb_true_iff, !N.ltb_lt, !N.eqb_eq.
  intros [H1|[H1 H1']] [H2|[H2 H2']]; try lia.
  subst y. f_equal. apply IH; assumption.
Qed.

(** A sorted list of strings without repetition is determined by its
    members. *)
Lemma sortedStrings_unique (l1 : list jsstring) :
  forall l2,
    sortedStrings l1 -> sortedStrings l2 -> NoDup l1 -> NoDup l2 ->
    (forall x, x ∈ l1 <-> x ∈ l2) -> l1 = l2.
Proof.
  unfold sortedStrings.
  induction l1 as [|x1 l1 IH]; intros [|x2 l2] Hs1 Hs2 Hn1 Hn2 Hmem.
  - reflexivity.
  - exfalso. assert (x2 ∈ []) as H by (apply Hmem; left). inversion H.
  - exfalso. assert (x1 ∈ []) as H by (apply Hmem; left). inversion H.
  - apply StronglySorted_inv in Hs1. destruct Hs1 as [Hs1 Hall1].
    apply StronglySorted_inv in Hs2. destruct Hs2 as [Hs2 Hall2].
    apply NoDup_cons in Hn1. destruct Hn1 as [Hx1 Hn1].
    apply NoDup_cons in Hn2. destruct Hn2 as [Hx2 Hn2].
    rewrite Forall_forall in Hall1, Hall2.
    assert (x1 = x2) as Heq.
    { assert (x1 ∈ x2 :: l2) as H1 by (apply Hmem; left).
      assert (x2 ∈ x1 :: l1) as H2 by (apply Hmem; left).
      apply elem_of_cons in H1. destruct H1 as [H1|H1]; [exact H1|].
      apply elem_of_cons in H2. destruct H2 as [H2|H2]; [auto|].
      apply jsstring_leb_antisym; apply jsstring_leb_lexicographic; auto. }
    subst x2. f_equal. apply IH; try assumption.
    intros x. split; intros Hin.
    + assert (x ∈ x1 :: l2) as H by (apply Hmem; right; exact Hin).
      apply elem_of_cons in H. destruct H as [->|H]; [contradiction|exact H].
    + assert (x ∈ x1 :: l1) as H by (apply Hmem; right; exact Hin).
      apply elem_of_cons in H. destruct H as [->|H]; [contradiction|exact H].
Qed.

(** X7: The schema depends on which files are in the batch, not on the order
    in which the directory lists them nor on how often one is listed. *)
Theorem schema_order_independent (rt : Runtime)
    (files1 files2 schema1 schema2 : list jsstring)
    (log1 log2 : list LogEntry) :
  (forall file, file ∈ files1 <-> file ∈ files2) ->
  collectUniqueHeaders rt files1 = Some (schema1, log1) ->
  collectUniqueHeaders rt files2 = Some (schema2, log2) ->
  schema1 = schema2.
Proof.
  intros Hsame H1 H2.
  destruct (collectUniqueHeaders_spec rt _ _ _ H1) as (Hs1 & Hn1 & Hm1).
  destruct (collectUniqueHeaders_spec rt _ _ _ H2) as (Hs2 & Hn2 & Hm2).
  apply sortedStrings_unique; try assumption.
  intros h. rewrite Hm1, Hm2.
  split; intros (file & label & Hf & Hl & ->); exists file, label;
    (split; [apply Hsame; exact Hf|split; [exact Hl|reflexivity]]).
Qed.

Lemma schema_order_independent_witness :
  let rt := nodeHost 0 (scenarioFiles (js "sinistros_a.csv")
                                      (js "sinistros_b.tsv")) in
  fst <$> collectUniqueHeaders rt [js "sinistros_a.csv"; js "sinistros_b.tsv"]
  = fst <$> collectUniqueHeaders rt
              [js "sinistros_b.tsv"; js "sinistros_a.csv";
               js "sinistros_b.tsv"].
Proof.
  cbn zeta.
  destruct (collectUniqueHeaders _ [js "sinistros_a.csv"; _])
    as [[s1 l1]|] eqn:H1; [|vm_compute in H1; discriminate].
  destruct (collectUniqueHeaders _ [js "sinistros_b.tsv"; _; _])
    as [[s2 l2]|] eqn:H2; [|vm_compute in H2; discriminate].
  simpl. f_equal.
  assert (forall file : jsstring,
             file ∈ [js "sinistros_a.csv"; js "sinistros_b.tsv"]
             <-> file ∈ [js "sinistros_b.tsv"; js "sinistros_a.csv";
                         js "sinistros_b.tsv"]) as Hsame.
  { intros file. rewrite !elem_of_cons. pose proof (elem_of_nil file). tauto. }
  exact (schema_order_independent _ _ _ _ _ _ _ Hsame H1 H2).
Defined.

(** ** Records of the unified pipeline *)

(** X8: What a record holds under a key depends on the key and on the raw
    cell of that column alone: not on the other columns of the row, and
    not on what else the schema holds (so adding a file with new columns
    to the batch leaves the values of the existing columns alone). *)
Theorem column_value_local (rt : Runtime) (schema1 schema2 : list jsstring)
    (row1 row2 : gmap jsstring jsstring) (r1 r2 : gmap jsstring Cell)
    (k : jsstring) :
  NoDup schema1 -> NoDup schema2 -> k ∈ schema1 -> k ∈ schema2 ->
  row1 !! k = row2 !! k ->
  transformRow rt schema1 row1 = Some r1 ->
  transformRow rt schema2 row2 = Some r2 ->
  r1 !! k = r2 !! k.
Proof.
  intros Hn1 Hn2 Hk1 Hk2 Hrow H1 H2.
  destruct (transformRow_spec rt schema1 row1 Hn1) as (r1' & E1 & Hr1).
  destruct (transformRow_spec rt schema2 row2 Hn2) as (r2' & E2 & Hr2).
  rewrite H1 in E1. rewrite H2 in E2.
  injection E1 as <-. injection E2 as <-.
  rewrite Hr1, Hr2. rewrite !decide_True by assumption.
  rewrite Hrow. reflexivity.
Qed.

Lemma column_value_local_witness :
  let rt := nodeHost 0 [] in
  let row1 : gmap jsstring jsstring :=
    <[js "hora" := js "7:5"]> (<[js "auto" := js "2"]> ∅) in
  let row2 : gmap jsstring jsstring := <[js "hora" := js "7:5"]> ∅ in
  exists r1 r2,
    transformRow rt [js "auto"; js "hora"] row1 = Some r1
    /\ transformRow rt [js "hora"; js "tipo"] row2 = Some r2
    /\ r1 !! js "hora" = r2 !! js "hora".
Proof.
  cbn zeta.
  assert (NoDup [js "auto"; js "hora"]) as Hn1
    by (apply (bool_decide_unpack _); vm_compute; exact I).
  assert (NoDup [js "hora"; js "tipo"]) as Hn2
    by (apply (bool_decide_unpack _); vm_compute; exact I).
  destruct (transformRow_spec (nodeHost 0 []) _
              (<[js "hora" := js "7:5"]> (<[js "auto" := js "2"]> ∅)) Hn1)
    as (r1 & E1 & _).
  destruct (transformRow_spec (nodeHost 0 []) _
              (<[js "hora" := js "7:5"]> ∅) Hn2) as (r2 & E2 & _).
  exists r1, r2. split; [exact E1|]. split; [exact E2|].
  assert (js "hora" ∈ [js "auto"; js "hora"]) as Hk1 by (right; left).
  assert (js "hora" ∈ [js "hora"; js "tipo"]) as Hk2 by left.
  assert ((<[js "hora" := js "7:5"]> (<[js "auto" := js "2"]> ∅)
             : gmap jsstring jsstring) !! js "hora"
          = (<[js "hora" := js "7:5"]> ∅ : gmap jsstring jsstring)
              !! js "hora") as Hrow by (vm_compute; reflexivity).
  exact (column_value_local (nodeHost 0 []) _ _ _ _ r1 r2 (js "hora")
           Hn1 Hn2 Hk1 Hk2 Hrow E1 E2).
Defined.

(** X9: For a schema that holds no name every object inherits, the type
    of a field goes by the name of its column: a numeric column holds a
    number that is not NaN, every other column holds a string; and a
    record holds nothing outside the schema. *)
Theorem written_cells_typed (rt : Runtime) (file : jsstring)
    (schema : list jsstring) (r : gmap jsstring Cell) (k : jsstring)
    (cell : Cell) :
  NoDup schema ->
  ownNames schema ->
  r ∈ written (preprocessFile rt file schema) ->
  r !! k = Some cell ->
  k ∈ schema
  /\ if isNumericField k
     then exists x, cell = CNum x /\ isNaN x = false
     else exists s, cell = CStr s.
Proof.
  intros Hnd _ Hin Hk.
  destruct (preprocessFile_written rt file schema r Hnd Hin) as (row & Hrow).
  destruct (transformRow_spec rt schema row Hnd) as (r' & E & Hr).
  rewrite Hrow in E. injection E as <-.
  rewrite Hr in Hk. destruct (decide (k ∈ schema)); [|discriminate].
  split; [assumption|]. injection Hk as <-.
  unfold normalizedCell. destruct (isNumericField k).
  - eexists. split; [reflexivity|]. unfold parseNumericField.
    case_bool_decide; [reflexivity|].
    destruct (parseFloat _); reflexivity.
  - eexists. reflexivity.
Qed.

Lemma written_cells_typed_witness :
  let rt := nodeHost 0 (scenarioFiles (js "sinistros_a.csv")
                                      (js "sinistros_b.tsv")) in
  exists r cell,
    written (preprocessFile rt (js "sinistros_a.csv") [js "auto"; js "hora"])
    = [r]
    /\ r !! js "auto" = Some cell
    /\ exists x, cell = CNum x /\ isNaN x = false.
Proof.
  cbn zeta.
  assert (NoDup [js "auto"; js "hora"]) as Hnd
    by (apply (bool_decide_unpack _); vm_compute; exact I).
  set (rt := nodeHost 0 (scenarioFiles (js "sinistros_a.csv")
                                       (js "sinistros_b.tsv"))).
  destruct (written (preprocessFile rt (js "sinistros_a.csv")
                       [js "auto"; js "hora"])) as [|r [|r' l]] eqn:Hw;
    try (vm_compute in Hw; discriminate).
  destruct (r !! js "auto") as [cell|] eqn:Hcell.
  - exists r, cell. split; [reflexivity|]. split; [exact Hcell|].
    assert (r ∈ written (preprocessFile rt (js "sinistros_a.csv")
                           [js "auto"; js "hora"])) as Hin
      by (rewrite Hw; left).
    assert (ownNames [js "auto"; js "hora"]) as Hown.
    { intros h Hh. repeat (apply elem_of_cons in Hh;
                           destruct Hh as [->|Hh];
                           [apply (bool_decide_unpack _); vm_compute; exact I|]).
      inversion Hh. }
    destruct (written_cells_typed rt _ _ r (js "auto") cell Hnd Hown Hin Hcell)
      as [_ H].
    exact H.
  - exfalso. vm_compute in Hw. injection Hw as <-.
    vm_compute in Hcell. discriminate.
Defined.

(** X10: The unified pipeline drops no row: for a schema without repetition
    and a file whose stream does not fail, the records written are the
    transforms of the file's data records, one for one and in order, and
    the file is logged as processed. *)
Theorem preprocessFile_all_rows (rt : Runtime) (file : jsstring)
    (schema : list jsstring) :
  NoDup schema ->
  streamFails rt file = false ->
  let out := preprocessFile rt file schema in
  Forall2 (fun cells r =>
             transformRow rt schema
               (writeRow (List.map standardizeHeader (columnLabels rt file))
                         0 cells ∅)
             = Some r)
          (dataRecords rt file) (written out)
  /\ length (written out) = length (dataRecords rt file)
  /\ fileLog out = [processingLog file; successLog file].
Proof.
  intros Hnd. cbv zeta.
  unfold preprocessFile, dataRecords, columnLabels, streamFails. cbv zeta.
  destruct (parseCsv rt _ _) as [[|cells records]|]; [| |discriminate];
    intros _.
  - split; [constructor|]. split; reflexivity.
  - destruct (transformRows_spec rt schema
                (List.map standardizeHeader cells) records Hnd)
      as (rs & Hrs & Hall).
    rewrite Hrs. cbn [written fileLog].
    split; [exact Hall|]. split; [|reflexivity].
    symmetry. eapply Forall2_length. exact Hall.
Qed.

Lemma preprocessFile_all_rows_witness :
  let rt := nodeHost 0 (scenarioFiles (js "sinistros_a.csv")
                                      (js "sinistros_b.tsv")) in
  let out := preprocessFile rt (js "sinistros_a.csv") [js "data"; js "hora"] in
  length (written out) = 1%nat
  /\ fileLog out = [processingLog (js "sinistros_a.csv");
                    successLog (js "sinistros_a.csv")].
Proof.
  cbn zeta.
  assert (NoDup [js "data"; js "hora"]) as Hnd
    by (apply (bool_decide_unpack _); vm_compute; exact I).
  destruct (preprocessFile_all_rows
              (nodeHost 0 (scenarioFiles (js "sinistros_a.csv")
                                         (js "sinistros_b.tsv")))
              (js "sinistros_a.csv") _ Hnd eq_refl) as (_ & Hlen & Hlog).
  split; [rewrite Hlen; vm_compute; reflexivity|].
  exact Hlog.
Defined.

(** ** Decimal commas and separators *)

Lemma replaceFirstComma_app (a b : jsstring) :
  ch_comma ∉ a -> replaceFirstComma (a ++ ch_comma :: b) = a ++ ch_dot :: b.
Proof.
  induction a as [|x a IH]; intros Hnot; simpl.
  - reflexivity.
  - destruct (N.eqb_spec x ch_comma) as [->|Hne].
    + exfalso. apply Hnot. left.
    + rewrite IH; [reflexivity|]. intros Hin. apply Hnot. right. exact Hin.
Qed.

Lemma replaceFirstComma_none (s : jsstring) :
  ch_comma ∉ s -> replaceFirstComma s = s.
Proof.
  induction s as [|x s IH]; intros Hnot; simpl; [reflexivity|].
  destruct (N.eqb_spec x ch_comma) as [->|Hne].
  - exfalso. apply Hnot. left.
  - rewrite IH; [reflexivity|]. intros Hin. apply Hnot. right. exact Hin.
Qed.

Lemma takeWhile_stop {A} (p : A -> bool) (s rest : list A) (c : A) :
  p c = false -> takeWhile p (s ++ c :: rest) = takeWhile p s.
Proof.
  intros Hc. induction s as [|x s IH]; simpl; [rewrite Hc; reflexivity|].
  destruct (p x); [rewrite IH|]; reflexivity.
Qed.

Lemma dropWhile_stop {A} (p : A -> bool) (s rest : list A) (c : A) :
  p c = false -> dropWhile p (s ++ c :: rest) = dropWhile p s ++ c :: rest.
Proof.
  intros Hc. induction s as [|x s IH]; simpl; [rewrite Hc; reflexivity|].
  destruct (p x); [exact IH|reflexivity].
Qed.

Lemma startsWith_stop (p s rest : jsstring) (c : N) :
  c ∉ p -> startsWith p (s ++ c :: rest) = startsWith p s.
Proof.
  revert s. induction p as [|a p IH]; intros s Hc; [destruct s; reflexivity|].
  destruct s as [|d s]; simpl.
  - destruct (N.eqb_spec a c) as [->|Hne]; [|reflexivity].
    exfalso. apply Hc. left.
  - rewrite IH; [reflexivity|]. intros Hin. apply Hc. right. exact Hin.
Qed.

Lemma exponentPart_stop (s rest : jsstring) :
  exponentPart (s ++ ch_comma :: rest) = exponentPart s.
Proof.
  assert (isDigit ch_comma = false) as Hd by reflexivity.
  destruct s as [|c [|sg s2]]; cbn [app exponentPart].
  - reflexivity.
  - destruct ((c =? 101) || (c =? 69)); reflexivity.
  - destruct ((c =? 101) || (c =? 69)); [|reflexivity].
    rewrite (takeWhile_stop isDigit s2 rest ch_comma Hd).
    rewrite (app_comm_cons s2 (ch_comma :: rest) sg).
    rewrite (takeWhile_stop isDigit (sg :: s2) rest ch_comma Hd).
    reflexivity.
Qed.

Lemma parseUnsigned_stop (neg : bool) (s rest : jsstring) :
  parseUnsigned neg (s ++ ch_comma :: rest) = parseUnsigned neg s.
Proof.
  assert (isDigit ch_comma = false) as Hd by reflexivity.
  unfold parseUnsigned.
  rewrite startsWith_stop
    by (apply (bool_decide_unpack _); vm_compute; exact I).
  destruct (startsWith (js "Infinity") s); [reflexivity|]. cbv zeta.
  rewrite (takeWhile_stop isDigit s rest ch_comma Hd),
    (dropWhile_stop isDigit s rest ch_comma Hd).
  destruct (dropWhile isDigit s) as [|c afterDot]; cbn [app].
  - change (ch_comma =? ch_dot) with false. cbv iota.
    change (exponentPart (ch_comma :: rest)) with 0%Z. reflexivity.
  - destruct (c =? ch_dot).
    + rewrite (takeWhile_stop isDigit afterDot rest ch_comma Hd),
        (dropWhile_stop isDigit afterDot rest ch_comma Hd),
        exponentPart_stop.
      reflexivity.
    + rewrite (app_comm_cons afterDot (ch_comma :: rest) c),
        exponentPart_stop.
      reflexivity.
Qed.

(** [parseFloat] reads nothing from a comma on. *)
Lemma parseFloat_stop (s rest : jsstring) :
  parseFloat (s ++ ch_comma :: rest) = parseFloat s.
Proof.
  unfold parseFloat, trimStart.
  rewrite (dropWhile_stop isWhiteSpace s rest ch_comma) by reflexivity.
  destruct (dropWhile isWhiteSpace s) as [|c s']; cbn [app].
  - reflexivity.
  - destruct (c =? 45); [apply parseUnsigned_stop|].
    destruct (c =? 43); [apply parseUnsigned_stop|].
    apply (parseUnsigned_stop false (c :: s')).
Qed.

(** X12: A decimal comma reads as a decimal point, and only the first comma
    does: a text with one comma gives the number of the same text with a
    point in its place, and from a second comma on nothing is read, so
    that commas between thousands cut the number short. *)
Theorem parseNumericField_decimal_comma (a b : jsstring) :
  ch_comma ∉ a -> ch_comma ∉ b ->
  parseNumericField (a ++ [ch_comma] ++ b)
  = parseNumericField (a ++ [ch_dot] ++ b)
  /\ forall rest,
       parseNumericField (a ++ [ch_comma] ++ b ++ [ch_comma] ++ rest)
       = parseNumericField (a ++ [ch_dot] ++ b).
Proof.
  intros Ha Hb.
  assert (replaceFirstComma (a ++ [ch_dot] ++ b) = a ++ [ch_dot] ++ b)
    as Hdot.
  { apply replaceFirstComma_none. intros Hin.
    apply elem_of_app in Hin. destruct Hin as [Hin|Hin]; [contradiction|].
    apply elem_of_cons in Hin. destruct Hin as [Hin|Hin];
      [discriminate|contradiction]. }
  unfold parseNumericField.
  rewrite !bool_decide_eq_false_2 by (destruct a; discriminate).
  rewrite Hdot. cbn [app]. split.
  - rewrite replaceFirstComma_app by exact Ha. reflexivity.
  - intros rest.
    rewrite !bool_decide_eq_false_2 by (destruct a; discriminate).
    rewrite replaceFirstComma_app by exact Ha.
    rewrite (app_comm_cons b (ch_comma :: rest) ch_dot), app_assoc.
    rewrite parseFloat_stop. reflexivity.
Qed.

Lemma parseNumericField_decimal_comma_witness :
  parseNumericField (js "-12,75") = parseNumericField (js "-12.75")
  /\ parseNumericField (js "1,234,567") = parseNumericField (js "1.234").
Proof.
  split.
  - apply (parseNumericField_decimal_comma (js "-12") (js "75"));
      apply (bool_decide_unpack _); vm_compute; exact I.
  - apply (parseNumericField_decimal_comma (js "1") (js "234"));
      apply (bool_decide_unpack _); vm_compute; exact I.
Defined.

Lemma endsWith_csv_not_tsv (p : jsstring) :
  endsWith (js ".csv") p = true -> endsWith (js ".tsv") p = false.
Proof.
  unfold endsWith.
  change (rev (js ".csv")) with [118; 115; 99; 46].
  change (rev (js ".tsv")) with [118; 115; 116; 46].
  generalize (rev p). intros [|a [|b [|c [|d l]]]]; cbn [startsWith];
    rewrite ?andb_false_r; try discriminate.
  destruct (N.eqb_spec 118 a); [|discriminate].
  destruct (N.eqb_spec 115 b); [|discriminate].
  destruct (N.eqb_spec 99 c) as [<-|]; [|discriminate].
  intros _. reflexivity.
Qed.

Lemma startsWith_longer (p s r : jsstring) :
  startsWith p s = true -> startsWith p (s ++ r) = true.
Proof.
  revert s. induction p as [|c p IH]; intros [|d s]; simpl; try discriminate;
    [reflexivity..|].
  destruct (c =? d); [apply IH|discriminate].
Qed.

Lemma endsWith_longer (p a s : jsstring) :
  endsWith p s = true -> endsWith p (a ++ s) = true.
Proof. unfold endsWith. rewrite rev_app_distr. apply startsWith_longer. Qed.

(** X13: The metrics runner and the preprocessor read a file with the same
    separator exactly when its name ends in .csv or .tsv.  Every file the
    runner keeps of a listing is one the preprocessor keeps, and the two
    read it with the same separator; the files the preprocessor alone
    keeps are those in .txt. *)
Theorem separators_agree :
  (forall filePath,
     Index.detectSeparator filePath = detectSeparator filePath
     <-> endsWith (js ".csv") filePath = true
         \/ endsWith (js ".tsv") filePath = true)
  /\ (forall dir file,
        Index.isInputFile file = true ->
        isInputFile file = true
        /\ Index.detectSeparator (pathJoin dir file)
           = detectSeparator (pathJoin dir file))
  /\ (forall file,
        isInputFile file = true -> Index.isInputFile file = false ->
        endsWith (js ".txt") file = true).
Proof.
  assert (forall filePath,
             Index.detectSeparator filePath = detectSeparator filePath
             <-> endsWith (js ".csv") filePath = true
                 \/ endsWith (js ".tsv") filePath = true) as Hagree.
  { intros filePath. unfold Index.detectSeparator, detectSeparator.
    destruct (endsWith (js ".csv") filePath) eqn:Hcsv.
    - rewrite (endsWith_csv_not_tsv filePath Hcsv). split; auto.
    - destruct (endsWith (js ".tsv") filePath); split; auto.
      + intros H. discriminate.
      + intros [H|H]; discriminate. }
  split; [exact Hagree|]. split.
  - intros dir file Hin. unfold Index.isInputFile in Hin.
    apply andb_true_iff in Hin. destruct Hin as [Hstart Hext].
    split.
    + unfold isInputFile. rewrite Hstart, Hext. reflexivity.
    + apply Hagree. unfold pathJoin. rewrite app_assoc.
      apply orb_true_iff in Hext.
      destruct Hext as [H|H]; [left|right]; apply endsWith_longer; exact H.
  - intros file Hin Hout. unfold isInputFile in Hin.
    unfold Index.isInputFile in Hout.
    apply andb_true_iff in Hin. destruct Hin as [Hstart Hext].
    rewrite Hstart in Hout. cbn [andb] in Hout. rewrite Hout in Hext.
    exact Hext.
Qed.

Lemma separators_agree_witness :
  Index.detectSeparator (pathJoin (js "data") (js "sinistros_2020.tsv"))
  = [ch_semicolon]
  /\ endsWith (js ".txt") (js "sinistros_2020.txt") = true.
Proof.
  destruct separators_agree as (_ & Hkept & Htxt). split.
  - destruct (Hkept (js "data") (js "sinistros_2020.tsv") eq_refl) as [_ ->].
    reflexivity.
  - apply Htxt; reflexivity.
Defined.

(** ** Whole numbers *)

Lemma shr_1_nonneg (mrs : shr_record) :
  (0 <= shr_m mrs)%Z -> (0 <= shr_m (shr_1 mrs))%Z.
Proof.
  destruct mrs as [m r s]. simpl.
  destruct m as [|[p|p|]|[p|p|]]; simpl; lia.
Qed.

Lemma iter_shr_1_nonneg (p : positive) :
  forall mrs, (0 <= shr_m mrs)%Z -> (0 <= shr_m (SpecFloat.iter_pos shr_1 p mrs))%Z.
Proof.
  induction p as [p IH|p IH|]; intros mrs Hm; simpl.
  - apply IH, IH, shr_1_nonneg, Hm.
  - apply IH, IH, Hm.
  - apply shr_1_nonneg, Hm.
Qed.

Lemma shr_fexp_nonneg (m e : Z) (l : location) :
  (0 <= m)%Z -> (0 <= shr_m (fst (shr_fexp prec emax m e l)))%Z.
Proof.
  intros Hm. unfold shr_fexp, shr.
  assert (shr_m (shr_record_of_loc m l) = m) as Hrec
    by (destruct l as [|[| |]]; reflexivity).
  destruct (_ - e)%Z; simpl; rewrite ?Hrec; try exact Hm.
  apply iter_shr_1_nonneg. rewrite Hrec. exact Hm.
Qed.

Lemma round_nearest_even_nonneg (m : Z) (l : location) :
  (0 <= m)%Z -> (0 <= round_nearest_even m l)%Z.
Proof.
  intros Hm. unfold round_nearest_even.
  destruct l as [|[| |]]; try destruct (Z.even m); lia.
Qed.

(** Rounding a positive integer never gives NaN. *)
Lemma binary_round_not_nan (sx : bool) (mx : positive) (ex : Z) :
  isNaN (binary_round prec emax sx mx ex) = false.
Proof.
  unfold binary_round. destruct (shl_align _ _ _) as [mz ez].
  unfold binary_round_aux.
  pose proof (shr_fexp_nonneg (Zpos mz) ez loc_Exact ltac:(lia)) as H1.
  destruct (shr_fexp prec emax (Zpos mz) ez loc_Exact) as [mrs' e'].
  cbn [fst] in H1.
  pose proof (shr_fexp_nonneg
                (round_nearest_even (shr_m mrs') (loc_of_shr_record mrs'))
                e' loc_Exact
                (round_nearest_even_nonneg _ _ H1)) as H2.
  destruct (shr_fexp prec emax _ e' loc_Exact) as [mrs'' e''].
  cbn [fst] in H2.
  destruct (shr_m mrs'') as [|m|m]; [reflexivity| |lia].
  destruct (e'' <=? emax - prec)%Z; reflexivity.
Qed.

Lemma digitsValue_nonneg (ds : jsstring) : (0 <= digitsValue ds)%Z.
Proof.
  unfold digitsValue.
  assert (forall acc, (0 <= acc)%Z ->
            (0 <= fold_left (fun acc d => (10 * acc + Z.of_N (d - 48))%Z)
                            ds acc)%Z) as Hgen.
  { induction ds as [|d ds IH]; intros acc Hacc; simpl; [exact Hacc|].
    apply IH. lia. }
  apply Hgen. lia.
Qed.

Lemma takeWhile_all {A} (p : A -> bool) (l : list A) :
  Forall (fun x => p x = true) l -> takeWhile p l = l.
Proof. induction 1 as [|x l Hx _ IH]; simpl; [|rewrite Hx, IH]; auto. Qed.

(** X14: A run of decimal digits reads as the number nearest to the integer
    it denotes: no digit is dropped, and a leading zero does not change
    the base. *)
Theorem parseNumericField_digits (ds : jsstring) :
  ds <> [] -> Forall (fun c => isDigit c = true) ds ->
  parseNumericField ds = binary_normalize prec emax (digitsValue ds) 0 false.
Proof.
  intros Hne Hall. unfold parseNumericField.
  rewrite (bool_decide_eq_false_2 _ Hne). cbv zeta.
  assert (ch_comma ∉ ds) as Hcomma.
  { intros Hin. rewrite Forall_forall in Hall. apply Hall in Hin.
    discriminate. }
  rewrite (replaceFirstComma_none ds Hcomma).
  assert (parseFloat ds = decimalToNumber false (digitsValue ds) 0) as ->.
  { destruct ds as [|c s]; [congruence|].
    pose proof (Forall_inv Hall) as Hc. unfold isDigit in Hc.
    apply andb_true_iff in Hc. rewrite !N.leb_le in Hc.
    unfold parseFloat, trimStart.
    rewrite dropWhile_head by (unfold isWhiteSpace; ndecide; reflexivity).
    ndecide. unfold parseUnsigned.
    change (js "Infinity") with (73 :: js "nfinity"). cbn [startsWith].
    ndecide. cbn [andb].
    rewrite (takeWhile_all _ _ Hall), (dropWhile_all _ _ Hall).
    reflexivity. }
  pose proof (digitsValue_nonneg ds) as Hv.
  unfold decimalToNumber, binary_normalize.
  destruct (digitsValue ds) as [|p|p]; [reflexivity| |lia].
  cbn [Z.leb Z.compare Z.pow Z.to_pos].
  change (Z.to_pos (10 ^ 0)) with 1%positive. rewrite Pos.mul_1_r.
  rewrite binary_round_not_nan. reflexivity.
Qed.

Lemma parseNumericField_digits_witness :
  parseNumericField (js "007") = binary_normalize prec emax 7 0 false.
Proof.
  apply (parseNumericField_digits (js "007")); [discriminate|].
  repeat constructor.
Defined.

(** ** Columns of the same header *)







(** ** Separator and delimiter *)

(** X24: The two pipelines cut a file at the same character exactly when its
    first line holds no tab and holds a semicolon or not as the name ends
    in .tsv or not: the separator of the unified pipeline goes by the
    name, the delimiter of the NDJSON pipeline by the first line, and the
    unified pipeline never cuts at tabs. *)
Theorem separator_matches_delimiter (filePath content : jsstring) :
  detectSeparator filePath = fst (detectDelimiterIn filePath content)
  <-> (ch_tab ∉ textBefore ch_lf content)
      /\ (endsWith (js ".tsv") filePath = true
          <-> ch_semicolon ∈ textBefore ch_lf content).
Proof.
  rewrite detectDelimiterIn_line. unfold delimiterOfLine, detectSeparator.
  destruct (decide (ch_tab ∈ textBefore ch_lf content)) as [Htab|Htab].
  - split; [|tauto].
    destruct (endsWith (js ".tsv") filePath);
      [|destruct (endsWith (js ".csv") filePath)]; discriminate.
  - destruct (decide (ch_semicolon ∈ textBefore ch_lf content)) as [Hs|Hs].
    + destruct (endsWith (js ".tsv") filePath).
      * tauto.
      * split.
        -- destruct (endsWith (js ".csv") filePath); discriminate.
        -- intros [_ [_ H]]. discriminate (H Hs).
    + assert ((if decide (ch_comma ∈ textBefore ch_lf content)
               then [ch_comma] else [ch_comma]) = [ch_comma]) as ->
        by (destruct (decide _); reflexivity).
      destruct (endsWith (js ".tsv") filePath).
      * split; [discriminate|]. intros [_ [H _]]. elim Hs. auto.
      * split.
        -- intros _. split; [exact Htab|]. split; [discriminate|tauto].
        -- intros _. destruct (endsWith (js ".csv") filePath); reflexivity.
Qed.

Lemma separator_matches_delimiter_witness :
  detectSeparator (js "a.tsv") = fst (detectDelimiterIn (js "a.tsv") (js "x;y"))
  /\ detectSeparator (js "a.tsv")
     <> fst (detectDelimiterIn (js "a.tsv") (js "x" ++ [ch_tab] ++ js "y")).
Proof.
  split.
  - apply separator_matches_delimiter. split.
    + apply (bool_decide_unpack _). vm_compute. exact I.
    + split; intros _; [|reflexivity].
      apply (bool_decide_unpack _). vm_compute. exact I.
  - intros H. apply separator_matches_delimiter in H. destruct H as [H _].
    apply H. apply (bool_decide_unpack _). vm_compute. exact I.
Defined.

(** ** Output files of the unified pipeline *)

Lemma beforeLastDot_none (s : jsstring) :
  ch_dot ∉ s -> beforeLastDot s = None.
Proof.
  induction s as [|c s IH]; intros Hnot; simpl; [reflexivity|].
  rewrite IH by (intros Hin; apply Hnot; right; exact Hin).
  destruct (N.eqb_spec c ch_dot) as [->|Hne]; [|reflexivity].
  exfalso. apply Hnot. left.
Qed.

Lemma beforeLastDot_ext (stem ext : jsstring) :
  ch_dot ∉ ext -> beforeLastDot (stem ++ ch_dot :: ext) = Some stem.
Proof.
  intros Hext. induction stem as [|c stem IH]; simpl.
  - rewrite (beforeLastDot_none ext Hext). reflexivity.
  - rewrite IH. reflexivity.
Qed.

Lemma processedName_ext (stem ext : jsstring) :
  stem <> [] -> ch_dot ∉ ext -> length ext = 3%nat ->
  outputFileName (stem ++ ch_dot :: ext) = stem ++ js "_processed.csv".
Proof.
  intros Hstem Hext Hlen. unfold outputFileName, pathParseName.
  rewrite (beforeLastDot_ext stem ext Hext).
  destruct stem as [|c stem]; [congruence|].
  rewrite bool_decide_eq_false_2; [reflexivity|].
  intros Heq. apply (f_equal length) in Heq.
  rewrite length_app in Heq. simpl in Heq. lia.
Qed.

(** X11: The inputs of one stem, [x.csv], [x.tsv] and [x.txt], are written
    to one output file, [x_processed.csv].  A directory that lists
    [x.csv] and [x.tsv] gets two outputs but one file: a run that returns
    processes both against the same schema, in the order of the listing,
    and the directory of outputs ends up with that one file, holding the
    records of [x.tsv] alone. *)
Theorem processed_files_collide (rt : Runtime) (stem : jsstring) :
  startsWith (js "sinistros") stem = true ->
  outputFileName (stem ++ js ".csv") = stem ++ js "_processed.csv"
  /\ outputFileName (stem ++ js ".tsv") = stem ++ js "_processed.csv"
  /\ outputFileName (stem ++ js ".txt") = stem ++ js "_processed.csv"
  /\ forall outs,
       preprocessAllFiles rt [stem ++ js ".csv"; stem ++ js ".tsv"]
       = Some outs ->
       exists schema log,
         collectUniqueHeaders rt [stem ++ js ".csv"; stem ++ js ".tsv"]
         = Some (schema, log)
         /\ outs = [ (stem ++ js ".csv",
                      preprocessFile rt (stem ++ js ".csv") schema);
                     (stem ++ js ".tsv",
                      preprocessFile rt (stem ++ js ".tsv") schema) ]
         /\ processedDirectory outs
            = {[ stem ++ js "_processed.csv"
                 := written (preprocessFile rt (stem ++ js ".tsv") schema) ]}.
Proof.
  intros Hstart.
  assert (stem <> []) as Hne by (intros ->; discriminate).
  assert (forall ext,
             ch_dot ∉ ext -> length ext = 3%nat ->
             outputFileName (stem ++ ch_dot :: ext)
             = stem ++ js "_processed.csv") as Hname
    by (intros ext; apply processedName_ext; exact Hne).
  assert (outputFileName (stem ++ js ".csv") = stem ++ js "_processed.csv")
    as Hcsv.
  { apply (Hname (js "csv")); [|reflexivity].
    apply (bool_decide_unpack _). vm_compute. exact I. }
  assert (outputFileName (stem ++ js ".tsv") = stem ++ js "_processed.csv")
    as Htsv.
  { apply (Hname (js "tsv")); [|reflexivity].
    apply (bool_decide_unpack _). vm_compute. exact I. }
  split; [exact Hcsv|]. split; [exact Htsv|]. split.
  { apply (Hname (js "txt")); [|reflexivity].
    apply (bool_decide_unpack _). vm_compute. exact I. }
  intros outs Hrun. unfold preprocessAllFiles in Hrun.
  assert (isInputFile (stem ++ js ".csv") = true) as Hin1.
  { unfold isInputFile. rewrite (startsWith_longer _ _ _ Hstart).
    rewrite (endsWith_longer (js ".csv") stem (js ".csv") eq_refl).
    reflexivity. }
  assert (isInputFile (stem ++ js ".tsv") = true) as Hin2.
  { unfold isInputFile. rewrite (startsWith_longer _ _ _ Hstart).
    rewrite (endsWith_longer (js ".tsv") stem (js ".tsv") eq_refl).
    rewrite orb_true_r. reflexivity. }
  cbn [List.filter] in Hrun. rewrite Hin1, Hin2 in Hrun.
  destruct (collectUniqueHeaders rt _) as [[schema log]|]; [|discriminate].
  injection Hrun as <-. exists schema, log.
  split; [reflexivity|]. split; [reflexivity|].
  unfold processedDirectory. cbn [foldl List.map fst snd].
  rewrite Hcsv, Htsv. rewrite insert_insert_eq. reflexivity.
Qed.

Lemma processed_files_collide_witness :
  let rt := nodeHost 0 (scenarioFiles (js "sinistros_a.csv")
                                      (js "sinistros_a.tsv")) in
  exists outs,
    preprocessAllFiles rt [js "sinistros_a.csv"; js "sinistros_a.tsv"]
    = Some outs
    /\ length outs = 2%nat
    /\ size (processedDirectory outs) = 1%nat.
Proof.
  cbn zeta.
  destruct (preprocessAllFiles _ [js "sinistros_a.csv"; js "sinistros_a.tsv"])
    as [outs|] eqn:E; [|vm_compute in E; discriminate].
  exists outs. split; [reflexivity|].
  destruct (processed_files_collide
              (nodeHost 0 (scenarioFiles (js "sinistros_a.csv")
                                         (js "sinistros_a.tsv")))
              (js "sinistros_a") eq_refl) as (_ & _ & _ & Hdir).
  destruct (Hdir outs E) as (schema & log & _ & -> & ->).
  split; [reflexivity|]. apply map_size_singleton.
Defined.

(** ** NDJSON rows *)

Import Ndjson.

(** The row code on an object, its property reads resolved. *)
Lemma buildRow_object (n : nat) (fields : list (jsstring * JsVal)) :
  buildRow n (JObj fields)
  = let tipo :=
      or (or (or (prop fields (js "natureza_acidente"))
                 (prop fields (js "natureza")))
             (prop fields (js "tipo")))
         (JStr []) in
    let warned := if truthy tipo then [] else [missingTipoWarning n] in
    match combineDateTimeAny (or (prop fields (js "data")) (JStr []))
                             (or (prop fields (js "hora")) (JStr [])) with
    | (logged, inr datahora) =>
        (warned ++ logged,
         inr (mkRow tipo (or (prop fields (js "situacao")) (JStr []))
                    datahora (stringifyText (metaObject (JObj fields)))))
    | (logged, inl e) => (warned ++ logged, inl e)
    end.
Proof.
  unfold buildRow, getProp.
  repeat match goal with
         | |- context [default JUndefined (lookupProp fields ?k)] =>
             change (default JUndefined (lookupProp fields k))
               with (prop fields k)
         end.
  generalize (prop fields (js "natureza_acidente")) (prop fields (js "natureza"))
    (prop fields (js "tipo")) (prop fields (js "situacao"))
    (prop fields (js "data")) (prop fields (js "hora")).
  intros a b c d e f.
  unfold bind, lift, orElse, ret, tell, or. cbn zeta.
  destruct (truthy a) eqn:Ha; [cbn [app]; rewrite ?Ha|];
    [|destruct (truthy b) eqn:Hb; [cbn [app]; rewrite ?Hb|]];
    cbn [app];
    destruct (combineDateTimeAny _ _) as [logged [err|datahora]];
    rewrite ?app_nil_r; reflexivity.
Qed.

Lemma combineDateTime_empty (timeString : option jsstring) :
  exists time,
    fst (combineDateTime [] timeString) = ch_T :: time ++ js "-03:00"
    /\ (time = js "00:00:00" \/ isValidTime time = true).
Proof.
  unfold combineDateTime.
  change (trim (first (split ch_T []))) with (@nil N).
  destruct timeString as [t|].
  - destruct (negb (bool_decide (t = []))
              && isValidTime (trim (first (split ch_dot t)))) eqn:E.
    + exists (trim (first (split ch_dot t))). split; [reflexivity|].
      right. apply andb_true_iff in E. apply E.
    + exists (js "00:00:00"). split; [reflexivity|]. left. reflexivity.
  - exists (js "00:00:00"). split; [reflexivity|]. left. reflexivity.
Qed.

(** C10: with an empty date, [combineDateTime] returns [T{time}-03:00]
    whatever the time text; two empty texts give [T00:00:00-03:00]; and an
    NDJSON row whose [data] field is missing or empty (its [hora] not
    being an object) is built without an exception, its [datahora]
    starting with [T]. *)
Theorem combineDateTime_empty_date :
  (forall timeString,
     exists time,
       fst (combineDateTime [] timeString) = ch_T :: time ++ js "-03:00"
       /\ (time = js "00:00:00" \/ isValidTime time = true))
  /\ combineDateTime [] (Some [])
     = (js "T00:00:00-03:00", [invalidTimeWarning (Some [])])
  /\ (forall n fields,
        truthy (prop fields (js "data")) = false ->
        (forall o, prop fields (js "hora") <> JObj o) ->
        exists logged r time,
          buildRow n (JObj fields) = (logged, inr r)
          /\ datahora r = ch_T :: time ++ js "-03:00").
Proof.
  split; [exact combineDateTime_empty|].
  split; [vm_compute; reflexivity|].
  intros n fields Hdata Hhora. rewrite buildRow_object. cbn zeta.
  assert (exists t, or (prop fields (js "hora")) (JStr []) = JStr t) as [t Ht].
  { unfold or. destruct (prop fields (js "hora")) as [| |s|o] eqn:E; simpl.
    - exists []; reflexivity.
    - exists []; reflexivity.
    - destruct (negb (bool_decide (s = []))); eexists; reflexivity.
    - exfalso. apply (Hhora o). reflexivity. }
  assert (or (prop fields (js "data")) (JStr []) = JStr []) as Hd
    by (unfold or; rewrite Hdata; reflexivity).
  rewrite Ht, Hd. unfold combineDateTimeAny.
  destruct (combineDateTime_empty (Some t)) as (time & Hfmt & _).
  destruct (combineDateTime [] (Some t)) as [datahora logged] eqn:E.
  simpl in Hfmt. subst datahora.
  eexists _, _, time. split; reflexivity.
Qed.

Lemma combineDateTime_empty_date_witness :
  truthy (prop [(js "hora", JStr (js "14:30:00"))] (js "data")) = false
  /\ exists logged r time,
       buildRow 1 (JObj [(js "hora", JStr (js "14:30:00"))]) = (logged, inr r)
       /\ datahora r = ch_T :: time ++ js "-03:00".
Proof.
  split; [reflexivity|].
  apply (proj2 (proj2 combineDateTime_empty_date)
           1%nat [(js "hora", JStr (js "14:30:00"))]).
  - reflexivity.
  - intros o H. vm_compute in H. discriminate.
Defined.

(** *** Reading meta back *)

Lemma inClass_spec (lo hi c : N) : inClass lo hi c = true <-> lo <= c <= hi.
Proof. unfold inClass. rewrite andb_true_iff, !N.leb_le. reflexivity. Qed.

Lemma unhex_hexDigit (d : N) : d < 16 -> unhex (hexDigit d) = Some d.
Proof.
  intros Hd. unfold hexDigit, unhex, inClass.
  destruct (N.ltb_spec d 10); ndecide; f_equal; lia.
Qed.

Lemma hex_digits_value (c : N) :
  c < 65536 ->
  4096 * (c / 4096 mod 16) + 256 * (c / 256 mod 16) + 16 * (c / 16 mod 16)
  + c mod 16 = c.
Proof.
  intros Hc.
  pose proof (N.div_mod c 16 ltac:(discriminate)) as H0.
  pose proof (N.div_mod (c / 16) 16 ltac:(discriminate)) as H1.
  pose proof (N.div_mod (c / 256) 16 ltac:(discriminate)) as H2.
  rewrite N.Div0.div_div in H1, H2.
  change (16 * 16) with 256 in H1. change (256 * 16) with 4096 in H2.
  assert (c / 4096 < 16) by (apply N.Div0.div_lt_upper_bound; lia).
  rewrite (N.mod_small (c / 4096) 16) by assumption.
  lia.
Qed.

Lemma unquote_raw (c : N) (s t rest : jsstring) :
  c <> 34 -> c <> 92 -> 32 <= c ->
  unquote s = Some (t, rest) -> unquote (c :: s) = Some (c :: t, rest).
Proof.
  intros H34 H92 H32 Hs. cbn [unquote]. ndecide. rewrite Hs. reflexivity.
Qed.

Lemma unquote_simple (e x : N) (s t rest : jsstring) :
  e <> 117 -> simpleEscape e = Some x ->
  unquote s = Some (t, rest) -> unquote (92 :: e :: s) = Some (x :: t, rest).
Proof.
  intros H117 He Hs. cbn [unquote]. ndecide. rewrite He, Hs. reflexivity.
Qed.

Lemma unquote_unicode (c : N) (s t rest : jsstring) :
  c < 65536 ->
  unquote s = Some (t, rest) ->
  unquote (unicodeEscape c ++ s) = Some (c :: t, rest).
Proof.
  intros Hc Hs. unfold unicodeEscape. cbn [app unquote]. ndecide.
  rewrite !unhex_hexDigit by (apply N.mod_lt; discriminate).
  rewrite Hs, hex_digits_value by exact Hc. reflexivity.
Qed.

(** One more character in front of a string that reads back. *)
Lemma unquote_quoteChars_cons (c : N) (s : jsstring) :
  (forall rest, unquote (quoteChars s ++ 34 :: rest) = Some (s, rest)) ->
  (forall d s2 rest, s = d :: s2 ->
                     unquote (quoteChars s2 ++ 34 :: rest) = Some (s2, rest)) ->
  forall rest, unquote (quoteChars (c :: s) ++ 34 :: rest) = Some (c :: s, rest).
Proof.
  intros Hs Hs2 rest. cbn [quoteChars].
  destruct (N.eqb_spec c 34) as [->|H34].
  { cbn [app]. apply unquote_simple; [discriminate|reflexivity|apply Hs]. }
  destruct (N.eqb_spec c 92) as [->|H92].
  { cbn [app]. apply unquote_simple; [discriminate|reflexivity|apply Hs]. }
  destruct (N.eqb_spec c 8) as [->|H8].
  { cbn [app]. apply unquote_simple; [discriminate|reflexivity|apply Hs]. }
  destruct (N.eqb_spec c 12) as [->|H12].
  { cbn [app]. apply unquote_simple; [discriminate|reflexivity|apply Hs]. }
  destruct (N.eqb_spec c 10) as [->|H10].
  { cbn [app]. apply unquote_simple; [discriminate|reflexivity|apply Hs]. }
  destruct (N.eqb_spec c 13) as [->|H13].
  { cbn [app]. apply unquote_simple; [discriminate|reflexivity|apply Hs]. }
  destruct (N.eqb_spec c 9) as [->|H9].
  { cbn [app]. apply unquote_simple; [discriminate|reflexivity|apply Hs]. }
  destruct (N.ltb_spec c 32) as [H32|H32].
  { rewrite <- app_assoc. apply unquote_unicode; [lia|apply Hs]. }
  destruct (isHighSurrogate c) eqn:Hhigh.
  { apply inClass_spec in Hhigh. destruct s as [|d s2].
    - apply unquote_unicode; [lia|reflexivity].
    - destruct (isLowSurrogate d) eqn:Hlow.
      + apply inClass_spec in Hlow. cbn [app].
        apply unquote_raw; [lia|lia|lia|].
        apply unquote_raw; [lia|lia|lia|].
        eapply Hs2. reflexivity.
      + rewrite <- app_assoc. apply unquote_unicode; [lia|apply Hs]. }
  destruct (isLowSurrogate c) eqn:Hlow.
  { apply inClass_spec in Hlow.
    rewrite <- app_assoc. apply unquote_unicode; [lia|apply Hs]. }
  cbn [app]. apply unquote_raw; [assumption|assumption|lia|apply Hs].
Qed.

Lemma unquote_quoteChars_bounded (n : nat) :
  forall s, (length s <= n)%nat ->
            forall rest,
              unquote (quoteChars s ++ 34 :: rest) = Some (s, rest).
Proof.
  induction n as [|n IH]; intros [|c s] Hlen; simpl in Hlen;
    try reflexivity; try lia.
  apply unquote_quoteChars_cons.
  - apply IH. lia.
  - intros d s2 rest ->. apply IH. simpl in Hlen. lia.
Qed.

(** A quoted string reads back, whatever follows its closing quote. *)
Lemma unquote_quoteChars (s rest : jsstring) :
  unquote (quoteChars s ++ 34 :: rest) = Some (s, rest).
Proof.
  exact (unquote_quoteChars_bounded (length s) s (Nat.le_refl _) rest).
Qed.

Lemma parseString_quoteJSON (s rest : jsstring) :
  parseString (quoteJSON s ++ rest) = Some (s, rest).
Proof.
  unfold quoteJSON, ch_quote. cbn [app parseString]. rewrite N.eqb_refl.
  rewrite <- app_assoc. apply unquote_quoteChars.
Qed.

Lemma memberText_length (kv : jsstring * jsstring) :
  (5 <= length (memberText kv))%nat.
Proof.
  unfold memberText, quoteJSON. rewrite !length_app. simpl.
  rewrite ?length_app. simpl. lia.
Qed.

Lemma joinComma_length (cells : list (jsstring * jsstring)) :
  (5 * length cells <= length (joinComma (List.map memberText cells)))%nat.
Proof.
  induction cells as [|kv cells IH]; [simpl; lia|].
  pose proof (memberText_length kv) as Hkv.
  destruct cells as [|kv' cells].
  - cbn [List.map joinComma length]. lia.
  - cbn [List.map joinComma length] in *. rewrite !length_app.
    cbn [length]. lia.
Qed.

Lemma joinComma_cons (x y : jsstring) (l : list jsstring) :
  joinComma (x :: y :: l) = x ++ ch_comma :: joinComma (y :: l).
Proof. reflexivity. Qed.

Lemma parseMembers_roundtrip (cells : list (jsstring * jsstring)) :
  forall kv fuel,
    (length cells < fuel)%nat ->
    parseMembers fuel (joinComma (List.map memberText (kv :: cells)) ++ [125])
    = Some (kv :: cells).
Proof.
  induction cells as [|kv' cells IH]; intros [k v] [|fuel] Hfuel;
    try (simpl in Hfuel; lia).
  - cbn [List.map joinComma parseMembers]. unfold memberText. cbn [fst snd].
    rewrite <- !app_assoc. rewrite parseString_quoteJSON.
    cbn [app]. rewrite N.eqb_refl, parseString_quoteJSON. reflexivity.
  - cbn [List.map]. rewrite joinComma_cons.
    change (memberText kv' :: List.map memberText cells)
      with (List.map memberText (kv' :: cells)).
    pose proof (IH kv' fuel ltac:(simpl in Hfuel; lia)) as Hrest.
    set (tail := joinComma (List.map memberText (kv' :: cells))) in *.
    unfold memberText. cbn [fst snd parseMembers].
    rewrite <- !app_assoc. rewrite parseString_quoteJSON.
    cbn [app]. rewrite N.eqb_refl, parseString_quoteJSON.
    destruct (tail ++ [125]) as [|x rest] eqn:E.
    + apply (f_equal (@length N)) in E. rewrite length_app in E.
      simpl in E. lia.
    + rewrite N.eqb_refl, Hrest. reflexivity.
Qed.

(** Reading the text of an object of strings gives its entries back. *)
Lemma parseFlatObject_roundtrip (cells : list (jsstring * jsstring)) :
  parseFlatObject (jsonOfStrings cells) = Some cells.
Proof.
  destruct cells as [|kv cells]; [reflexivity|].
  unfold jsonOfStrings.
  pose proof (joinComma_length (kv :: cells)) as Hlen.
  pose proof (parseMembers_roundtrip cells kv) as Hparse.
  set (text := joinComma (List.map memberText (kv :: cells))) in *.
  assert (length (text ++ [125]) = S (length text)) as Hl
    by (rewrite length_app; simpl; lia).
  change ([123] ++ text ++ [125]) with (123 :: (text ++ [125])).
  cbn [parseFlatObject]. rewrite N.eqb_refl.
  destruct (text ++ [125]) as [|x [|y rest]] eqn:E;
    simpl length in *; try lia.
  apply Hparse. lia.
Qed.

(** *** meta *)

Lemma setProp_fresh (o : list (jsstring * JsVal)) (k : jsstring) (v : JsVal) :
  k ∉ o.*1 -> setProp o k v = o ++ [(k, v)].
Proof.
  induction o as [|[k' v'] o IH]; simpl; intros Hk; [reflexivity|].
  rewrite bool_decide_eq_false_2.
  - f_equal. apply IH. intros Hin. apply Hk. right. exact Hin.
  - intros ->. apply Hk. left.
Qed.

Lemma foldl_setProp_fresh (o l : list (jsstring * JsVal)) :
  NoDup ((o ++ l).*1) ->
  foldl (fun o kv => setProp o (fst kv) (snd kv)) o l = o ++ l.
Proof.
  revert o. induction l as [|[k v] l IH]; intros o Hnd; simpl.
  - rewrite app_nil_r. reflexivity.
  - rewrite setProp_fresh.
    + rewrite IH; rewrite <- app_assoc; [reflexivity|exact Hnd].
    + rewrite fmap_app in Hnd. apply NoDup_app in Hnd.
      destruct Hnd as (_ & Hdisj & _). intros Hin.
      apply (Hdisj k Hin). left.
Qed.

(** Rebuilding an object from its own entries gives it back. *)
Lemma fromEntries_NoDup (l : list (jsstring * JsVal)) :
  NoDup (l.*1) -> fromEntries l = JObj l.
Proof.
  intros Hnd. unfold fromEntries.
  rewrite (foldl_setProp_fresh [] l Hnd). reflexivity.
Qed.

Lemma residual_NoDup (fields : list (jsstring * JsVal)) :
  NoDup (fields.*1) -> NoDup ((residual fields).*1).
Proof.
  unfold residual. induction fields as [|[k v] fields IH]; simpl; intros Hnd.
  - constructor.
  - apply NoDup_cons in Hnd. destruct Hnd as [Hk Hnd].
    destruct (negb (bool_decide (k ∈ consumedKeys))); [|apply IH; exact Hnd].
    simpl. apply NoDup_cons. split; [|apply IH; exact Hnd].
    intros Hin. apply Hk.
    apply list_elem_of_fmap in Hin. destruct Hin as ([k' v'] & -> & Hin).
    apply list_elem_of_In, filter_In in Hin. destruct Hin as [Hin _].
    apply list_elem_of_fmap. exists (k', v'). split; [reflexivity|].
    apply list_elem_of_In. exact Hin.
Qed.

Lemma residual_spec (fields : list (jsstring * JsVal)) (k : jsstring)
    (v : JsVal) :
  (k, v) ∈ residual fields <-> (k, v) ∈ fields /\ k ∉ consumedKeys.
Proof.
  unfold residual. split.
  - intros H. apply list_elem_of_In, filter_In in H. destruct H as [Hin Hb].
    cbn [fst] in Hb. apply negb_true_iff, bool_decide_eq_false in Hb.
    split; [apply list_elem_of_In|]; assumption.
  - intros [Hin Hk]. apply list_elem_of_In, filter_In.
    split; [apply list_elem_of_In; exact Hin|].
    cbn [fst]. apply negb_true_iff, bool_decide_eq_false. exact Hk.
Qed.

Lemma metaObject_residual (fields : list (jsstring * JsVal)) :
  NoDup (fields.*1) -> metaObject (JObj fields) = JObj (residual fields).
Proof.
  intros Hnd. unfold metaObject. simpl entries.
  apply fromEntries_NoDup. apply residual_NoDup. exact Hnd.
Qed.

(** What a built record holds. *)
Lemma buildRow_record (n : nat) (fields : list (jsstring * JsVal))
    (logged : list LogEntry) (r : TransformedRow) :
  buildRow n (JObj fields) = (logged, inr r) ->
  meta r = stringifyText (metaObject (JObj fields))
  /\ tipo r = or (or (or (prop fields (js "natureza_acidente"))
                        (prop fields (js "natureza")))
                    (prop fields (js "tipo")))
                (JStr [])
  /\ situacao r = or (prop fields (js "situacao")) (JStr []).
Proof.
  rewrite buildRow_object. cbn zeta.
  destruct (combineDateTimeAny _ _) as [lg [e|dh]]; [discriminate|].
  intros [= _ <-]. simpl. auto.
Qed.

Lemma prop_stringRow (fields : list (jsstring * JsVal)) (k : jsstring) :
  stringRow fields ->
  prop fields k = JUndefined \/ exists s, prop fields k = JStr s.
Proof.
  unfold prop. induction 1 as [|[k' v'] fields [s Hs] _ IH]; simpl.
  - left; reflexivity.
  - case_bool_decide; [|exact IH]. right. exists s. exact Hs.
Qed.

Lemma or_stringRow (fields : list (jsstring * JsVal)) (k : jsstring) :
  stringRow fields -> exists s, or (prop fields k) (JStr []) = JStr s.
Proof.
  intros Hrow. unfold or.
  destruct (prop_stringRow fields k Hrow) as [-> | [s ->]]; simpl.
  - exists []; reflexivity.
  - destruct (negb (bool_decide (s = []))); eexists; reflexivity.
Qed.

(** A row of strings is always built. *)
Lemma buildRow_stringRow (n : nat) (fields : list (jsstring * JsVal)) :
  stringRow fields -> exists logged r, buildRow n (JObj fields) = (logged, inr r).
Proof.
  intros Hrow. rewrite buildRow_object. cbn zeta.
  destruct (or_stringRow fields (js "data") Hrow) as [d ->].
  destruct (or_stringRow fields (js "hora") Hrow) as [h ->].
  unfold combineDateTimeAny.
  destruct (combineDateTime d (Some h)) as [dh lg].
  eexists _, _. reflexivity.
Qed.

Lemma rowOfCells_stringRow (cells : list (jsstring * jsstring)) :
  stringRow (rowOfCells cells).
Proof.
  unfold stringRow, rowOfCells.
  induction cells as [|[k v] cells IH]; simpl; constructor;
    [eexists; reflexivity|exact IH].
Qed.

Lemma rowOfCells_keys (cells : list (jsstring * jsstring)) :
  (rowOfCells cells).*1 = cells.*1.
Proof.
  unfold rowOfCells. induction cells as [|[k v] cells IH]; simpl;
    [reflexivity|]. f_equal. exact IH.
Qed.

Lemma residual_rowOfCells (cells : list (jsstring * jsstring)) :
  residual (rowOfCells cells) = rowOfCells (residualCells cells).
Proof.
  unfold residual, residualCells, rowOfCells.
  induction cells as [|[k v] cells IH]; simpl; [reflexivity|].
  destruct (negb (bool_decide (k ∈ consumedKeys))); simpl; rewrite IH;
    reflexivity.
Qed.

Lemma stringify_rowOfCells (cells : list (jsstring * jsstring)) :
  stringifyText (JObj (rowOfCells cells)) = jsonOfStrings cells.
Proof.
  unfold stringifyText, jsonOfStrings, rowOfCells. simpl. do 3 f_equal.
  induction cells as [|[k v] cells IH]; simpl; [reflexivity|].
  rewrite IH. reflexivity.
Qed.

(** C8, as stated, fails: no five keys account for what [meta] leaves
    out, the code leaving out six. *)
Lemma meta_five_keys_refuted :
  ~ exists consumed : list jsstring,
      length consumed = 5%nat
      /\ forall n row logged r,
           buildRow n row = (logged, inr r) ->
           meta r
           = stringifyText
               (JObj (List.filter
                        (fun kv => negb (bool_decide (fst kv ∈ consumed)))
                        (entries row))).
Proof.
  intros (consumed & Hlen & Hmeta).
  assert (exists k, k ∈ consumedKeys /\ k ∉ consumed) as (k & Hk & Hnot).
  { destruct (decide (Forall (fun k => k ∈ consumed) consumedKeys))
      as [Hall|Hsome].
    - exfalso.
      assert (length consumedKeys <= length consumed)%nat as Hle.
      { apply NoDup_incl_length.
        - apply NoDup_ListNoDup. apply (bool_decide_unpack _).
          vm_compute. exact I.
        - intros x Hx. apply list_elem_of_In.
          rewrite Forall_forall in Hall. apply Hall.
          apply list_elem_of_In. exact Hx. }
      rewrite Hlen in Hle. vm_compute in Hle. lia.
    - apply not_Forall_Exists in Hsome; [|intros x; apply _].
      apply Exists_exists in Hsome. destruct Hsome as (k & Hin & Hk).
      exists k. split; [exact Hin| exact Hk]. }
  pose (row := JObj [(k, JStr (js "x"))]).
  destruct (buildRow_stringRow 1 [(k, JStr (js "x"))]) as (logged & r & Hr).
  { constructor; [eexists; reflexivity|constructor]. }
  specialize (Hmeta 1%nat row logged r Hr).
  destruct (buildRow_record _ _ _ _ Hr) as (Hm & _).
  rewrite Hm in Hmeta. simpl entries in Hmeta. cbn [List.filter fst] in Hmeta.
  rewrite (bool_decide_eq_false_2 _ Hnot) in Hmeta. cbn [negb] in Hmeta.
  rewrite metaObject_residual in Hmeta
    by (simpl; apply NoDup_singleton).
  unfold residual in Hmeta. cbn [List.filter fst] in Hmeta.
  rewrite (bool_decide_eq_true_2 _ Hk) in Hmeta. cbn [negb] in Hmeta.
  unfold stringifyText, stringify, members, quoteJSON in Hmeta.
  cbn [showOptional joinComma app] in Hmeta. discriminate.
Qed.

(** C8, amended: [meta] is the JSON text of the entries of the row whose
    key is none of the six consumed keys [tipo], [natureza_acidente],
    [natureza], [situacao], [data] and [hora], each with the value it
    has in the row and in the order of the row; read back, the text
    gives these entries unchanged. *)
Theorem meta_residual_fields :
  consumedKeys
  = [ js "tipo"; js "natureza_acidente"; js "natureza"; js "situacao";
      js "data"; js "hora" ]
  /\ (forall n fields logged r,
        NoDup (fields.*1) ->
        buildRow n (JObj fields) = (logged, inr r) ->
        meta r = stringifyText (JObj (residual fields))
        /\ forall k v,
             (k, v) ∈ residual fields <-> (k, v) ∈ fields /\ k ∉ consumedKeys)
  /\ (forall n cells,
        NoDup (cells.*1) ->
        exists logged r,
          buildRow n (JObj (rowOfCells cells)) = (logged, inr r)
          /\ meta r = jsonOfStrings (residualCells cells)
          /\ parseFlatObject (meta r) = Some (residualCells cells)).
Proof.
  split; [reflexivity|]. split.
  - intros n fields logged r Hnd Hr.
    destruct (buildRow_record _ _ _ _ Hr) as (Hm & _).
    rewrite Hm, metaObject_residual by exact Hnd.
    split; [reflexivity|]. intros k v. apply residual_spec.
  - intros n cells Hnd.
    destruct (buildRow_stringRow n (rowOfCells cells)
                (rowOfCells_stringRow cells)) as (logged & r & Hr).
    exists logged, r. split; [exact Hr|].
    destruct (buildRow_record _ _ _ _ Hr) as (Hm & _).
    rewrite Hm, metaObject_residual by (rewrite rowOfCells_keys; exact Hnd).
    rewrite residual_rowOfCells, stringify_rowOfCells.
    split; [reflexivity|]. apply parseFlatObject_roundtrip.
Qed.

Lemma meta_residual_fields_witness :
  NoDup ([(js "tipo", js "Queda"); (js "bairro", js "Boa Vista")].*1)
  /\ exists logged r,
       buildRow 1 (JObj (rowOfCells [(js "tipo", js "Queda");
                                     (js "bairro", js "Boa Vista")]))
       = (logged, inr r)
       /\ meta r = jsonOfStrings [(js "bairro", js "Boa Vista")]
       /\ parseFlatObject (meta r) = Some [(js "bairro", js "Boa Vista")].
Proof.
  assert (NoDup ([(js "tipo", js "Queda"); (js "bairro", js "Boa Vista")].*1))
    as Hnd.
  { apply NoDup_cons. split; [|apply NoDup_singleton].
    intros H. apply list_elem_of_singleton in H. vm_compute in H. discriminate. }
  split; [exact Hnd|].
  exact (proj2 (proj2 meta_residual_fields) 1%nat
           [(js "tipo", js "Queda"); (js "bairro", js "Boa Vista")] Hnd).
Defined.

(** *** Row exceptions *)

Lemma transform_lineNumber (fileName : jsstring) (st : StreamState)
    (row : JsVal) :
  lineNumber (transform fileName st row) = S (lineNumber st).
Proof.
  unfold transform. destruct (buildRow _ row) as [logged [e|r]]; reflexivity.
Qed.

Lemma transform_log_grows (fileName : jsstring) (st : StreamState)
    (row : JsVal) (entry : LogEntry) :
  entry ∈ streamLog st -> entry ∈ streamLog (transform fileName st row).
Proof.
  intros Hin. unfold transform.
  destruct (buildRow _ row) as [logged [e|r]]; simpl;
    apply elem_of_app; left; exact Hin.
Qed.

Lemma run_log_grows (fileName : jsstring) (rows : list JsVal)
    (st : StreamState) (entry : LogEntry) :
  entry ∈ streamLog st ->
  entry ∈ streamLog (foldl (transform fileName) st rows).
Proof.
  revert st. induction rows as [|row rows IH]; intros st Hin; simpl;
    [exact Hin|].
  apply IH, transform_log_grows, Hin.
Qed.

Lemma transform_logs_error (fileName : jsstring) (st : StreamState)
    (row : JsVal) (logged : list LogEntry) (e : JsError) :
  buildRow (S (lineNumber st)) row = (logged, inl e) ->
  rowErrorLog fileName (S (lineNumber st)) e row
    ∈ streamLog (transform fileName st row)
  /\ output (transform fileName st row) = output st.
Proof.
  intros Hb. unfold transform. rewrite Hb. simpl. split; [|reflexivity].
  apply elem_of_app. right. apply elem_of_app. right.
  apply list_elem_of_singleton. reflexivity.
Qed.

(** The stream over a run of rows: every row is counted, the rows built
    leave their lines in order, and every row that raises is logged. *)
Lemma run_rows (fileName : jsstring) (rows : list JsVal) (st0 : StreamState) :
  let st := foldl (transform fileName) st0 rows in
  lineNumber st = (lineNumber st0 + length rows)%nat
  /\ output st = output st0 ++ emitted (lineNumber st0) rows
  /\ forall i row logged e,
       rows !! i = Some row ->
       buildRow (lineNumber st0 + S i) row = (logged, inl e) ->
       rowErrorLog fileName (lineNumber st0 + S i) e row ∈ streamLog st.
Proof.
  revert st0. induction rows as [|row rows IH]; intros st0; cbn zeta.
  - simpl. rewrite Nat.add_0_r, app_nil_r.
    split; [reflexivity|]. split; [reflexivity|].
    intros i row logged e Hrow. discriminate.
  - simpl foldl. destruct (IH (transform fileName st0 row)) as (Hn & Hout & Hlog).
    rewrite transform_lineNumber in Hn, Hout, Hlog.
    split; [rewrite Hn; simpl; lia|]. split.
    + rewrite Hout. simpl emitted. unfold transform.
      destruct (buildRow (S (lineNumber st0)) row) as [logged [e|r]]; simpl;
        [reflexivity|]. rewrite <- app_assoc. reflexivity.
    + intros [|i] r logged e Hrow Hb.
      * simpl in Hrow. injection Hrow as ->.
        rewrite Nat.add_1_r in *.
        apply run_log_grows. eapply transform_logs_error. exact Hb.
      * simpl in Hrow.
        replace (lineNumber st0 + S (S i))%nat
          with (S (lineNumber st0) + S i)%nat in * by lia.
        eapply Hlog; eassumption.
Qed.

(** *** The transform on any row *)














(** ** Rows of labelled cells *)

Lemma prop_rowOfCells (cells : list (jsstring * jsstring)) (k : jsstring) :
  prop (rowOfCells cells) k
  = match lookupCell cells k with
    | Some s => JStr s
    | None => JUndefined
    end.
Proof.
  unfold prop, rowOfCells.
  induction cells as [|[k' v] cells IH]; simpl; [reflexivity|].
  case_bool_decide; [reflexivity|exact IH].
Qed.

Lemma or_orEmpty (o : option jsstring) :
  or (match o with Some s => JStr s | None => JUndefined end) (JStr [])
  = JStr (orEmpty o).
Proof. destruct o as [[|c s]|]; reflexivity. Qed.

Lemma or_firstNonEmpty (a b c : option jsstring) :
  or (or (or (match a with Some s => JStr s | None => JUndefined end)
             (match b with Some s => JStr s | None => JUndefined end))
         (match c with Some s => JStr s | None => JUndefined end))
     (JStr [])
  = JStr (firstNonEmpty [a; b; c]).
Proof.
  destruct a as [[|x a]|], b as [[|y b]|], c as [[|z c]|]; reflexivity.
Qed.

(** The record of a row of labelled cells, in terms of the cells. *)
Lemma buildRow_cells (n : nat) (cells : list (jsstring * jsstring)) :
  buildRow n (JObj (rowOfCells cells))
  = let tipoText :=
      firstNonEmpty [lookupCell cells (js "natureza_acidente");
                     lookupCell cells (js "natureza");
                     lookupCell cells (js "tipo")] in
    let stamp :=
      combineDateTime (orEmpty (lookupCell cells (js "data")))
                      (Some (orEmpty (lookupCell cells (js "hora")))) in
    ((if bool_decide (tipoText = []) then [missingTipoWarning n] else [])
     ++ snd stamp,
     inr (mkRow (JStr tipoText)
                (JStr (orEmpty (lookupCell cells (js "situacao"))))
                (fst stamp)
                (stringifyText (metaObject (JObj (rowOfCells cells)))))).
Proof.
  rewrite buildRow_object. rewrite !prop_rowOfCells.
  rewrite or_firstNonEmpty, !or_orEmpty. cbv zeta.
  cbn [combineDateTimeAny truthy].
  destruct (combineDateTime _ _) as [stamp logged]. cbn [fst snd].
  destruct (firstNonEmpty _) as [|c t]; reflexivity.
Qed.

Lemma residualCells_NoDup (cells : list (jsstring * jsstring)) :
  NoDup (cells.*1) -> NoDup ((residualCells cells).*1).
Proof.
  intros Hnd. rewrite <- rowOfCells_keys, <- residual_rowOfCells.
  apply residual_NoDup. rewrite rowOfCells_keys. exact Hnd.
Qed.

(** X16: The record written for a row of the parser, cell by cell: [tipo] is
    the first non-empty of the cells [natureza_acidente], [natureza] and
    [tipo] (the warning is logged when there is none, and the record is
    written all the same), [situacao] is the cell of that name or the
    empty string, [datahora] combines the cells [data] and [hora], an
    absent [hora] being passed as the empty string, and [meta] is the
    JSON text of the other cells. *)
Theorem buildRow_of_cells (n : nat) (cells : list (jsstring * jsstring)) :
  NoDup (cells.*1) ->
  let tipoText :=
    firstNonEmpty [lookupCell cells (js "natureza_acidente");
                   lookupCell cells (js "natureza");
                   lookupCell cells (js "tipo")] in
  let stamp :=
    combineDateTime (orEmpty (lookupCell cells (js "data")))
                    (Some (orEmpty (lookupCell cells (js "hora")))) in
  buildRow n (JObj (rowOfCells cells))
  = ((if bool_decide (tipoText = []) then [missingTipoWarning n] else [])
     ++ snd stamp,
     inr (mkRow (JStr tipoText)
                (JStr (orEmpty (lookupCell cells (js "situacao"))))
                (fst stamp)
                (jsonOfStrings (residualCells cells)))).
Proof.
  intros Hnd. rewrite buildRow_cells. cbv zeta.
  rewrite metaObject_residual by (rewrite rowOfCells_keys; exact Hnd).
  rewrite residual_rowOfCells, stringify_rowOfCells. reflexivity.
Qed.

Lemma buildRow_of_cells_witness :
  buildRow 7 (JObj (rowOfCells [(js "tipo", js "Queda");
                                (js "natureza", js "Atropelamento");
                                (js "natureza_acidente", []);
                                (js "bairro", js "Boa Vista")]))
  = ([invalidTimeWarning (Some [])],
     inr (mkRow (JStr (js "Atropelamento")) (JStr [])
                (js "T00:00:00-03:00")
                (jsonOfStrings [(js "bairro", js "Boa Vista")]))).
Proof.
  assert (NoDup ([(js "tipo", js "Queda");
                  (js "natureza", js "Atropelamento");
                  (js "natureza_acidente", []);
                  (js "bairro", js "Boa Vista")].*1)) as Hnd
    by (apply (bool_decide_unpack _); vm_compute; exact I).
  rewrite (buildRow_of_cells 7 _ Hnd). vm_compute. reflexivity.
Defined.

(** ** Lines and log of a file *)

Lemma bind_warns {A B} (m : Row A) (k : A -> Row B) :
  Forall (fun e => isErrorEntry e = false) (fst m) ->
  (forall a, Forall (fun e => isErrorEntry e = false) (fst (k a))) ->
  Forall (fun e => isErrorEntry e = false) (fst (bind m k)).
Proof.
  intros Hm Hk. unfold bind. destruct m as [logged [e|a]]; [exact Hm|].
  specialize (Hk a). destruct (k a) as [logged' r]. simpl in *.
  apply Forall_app. split; assumption.
Qed.

Lemma combineDateTimeAny_warns (data hora : JsVal) :
  Forall (fun e => isErrorEntry e = false) (fst (combineDateTimeAny data hora)).
Proof.
  assert (forall d t,
             Forall (fun e => isErrorEntry e = false)
                    (snd (combineDateTime d t))) as Hc.
  { intros d t.
    destruct (combineDateTime_parts d t) as (time & _ & _ & [[-> _]|[-> _]]);
      repeat constructor. }
  unfold combineDateTimeAny.
  destruct data as [| |d|fd]; try (cbn [fst]; constructor).
  destruct hora as [| |t|ft]; cbn [truthy].
  - specialize (Hc d None). destruct (combineDateTime d None). exact Hc.
  - specialize (Hc d None). destruct (combineDateTime d None). exact Hc.
  - specialize (Hc d (Some t)). destruct (combineDateTime d (Some t)).
    exact Hc.
  - constructor.
Qed.

(** The row code logs warnings only. *)
Lemma buildRow_warns (n : nat) (row : JsVal) :
  Forall (fun e => isErrorEntry e = false) (fst (buildRow n row)).
Proof.
  unfold buildRow.
  repeat first
    [ apply combineDateTimeAny_warns
    | apply bind_warns; [|intros ?; cbv zeta]
    | progress unfold lift, ret, tell, orElse; cbn [fst]
    | match goal with
      | |- context [if ?b then _ else _] => destruct b
      end
    | constructor; reflexivity
    | constructor ].
Qed.

Lemma filter_no_error (log : list LogEntry) :
  Forall (fun e => isErrorEntry e = false) log ->
  List.filter isErrorEntry log = [].
Proof. induction 1 as [|e l He _ IH]; simpl; [|rewrite He]; auto. Qed.

Lemma transform_accounts (fileName : jsstring) (st : StreamState)
    (row : JsVal) :
  (length (output (transform fileName st row))
   + length (List.filter isErrorEntry (streamLog (transform fileName st row)))
   = S (length (output st)
        + length (List.filter isErrorEntry (streamLog st))))%nat.
Proof.
  unfold transform.
  pose proof (buildRow_warns (S (lineNumber st)) row) as Hw.
  destruct (buildRow _ row) as [logged [e|r]]; cbn [fst] in Hw;
    cbn [output streamLog]; rewrite !List.filter_app, !length_app,
      (filter_no_error logged Hw); simpl; lia.
Qed.

Lemma run_accounts (fileName : jsstring) (rows : list JsVal) :
  forall st,
    let st' := foldl (transform fileName) st rows in
    (length (output st') + length (List.filter isErrorEntry (streamLog st'))
     = length (output st) + length (List.filter isErrorEntry (streamLog st))
       + length rows)%nat.
Proof.
  induction rows as [|row rows IH]; intros st; cbn zeta; simpl; [lia|].
  specialize (IH (transform fileName st row)). cbn zeta in IH.
  rewrite IH, transform_accounts. lia.
Qed.

(** X17: Every row read of a file is accounted for: when the file runs to its
    end, the lines written and the entries logged at level error add up
    to the rows read, whatever the rows are. *)
Theorem rows_accounted (h : Host) (fileName : jsstring) (format : FileFormat) :
  snd (preprocessFile h fileName format) = true ->
  let st := fst (preprocessFile h fileName format) in
  (length (output st) + length (List.filter isErrorEntry (streamLog st))
   = lineNumber st)%nat
  /\ exists delimiter warned rows,
       detectDelimiter (readFileSync h) (pathJoin (inputDir h) fileName)
       = Some (delimiter, warned)
       /\ fastCsvParse h delimiter (pathJoin (inputDir h) fileName) = Some rows
       /\ lineNumber st = length rows.
Proof.
  cbv zeta. unfold preprocessFile, detectDelimiter.
  destruct (readFileSync h _) as [content|]; [|discriminate].
  assert (Forall (fun e => isErrorEntry e = false)
                 (snd (detectDelimiterIn (pathJoin (inputDir h) fileName)
                                         content))) as Hw.
  { unfold detectDelimiterIn.
    repeat match goal with
           | |- context [if ?b then _ else _] => destruct b
           end; repeat constructor. }
  destruct (detectDelimiterIn _ content) as [delimiter warned].
  cbn [snd] in Hw.
  destruct (fastCsvParse h delimiter _) as [rows|] eqn:Hp; [|discriminate].
  intros _. cbn [fst snd output lineNumber streamLog].
  pose proof (run_accounts fileName rows
                (mkState 0 [] ([processingLog fileName] ++ warned))) as Hrun.
  pose proof (run_rows fileName rows
                (mkState 0 [] ([processingLog fileName] ++ warned)))
    as (Hn & _).
  cbn zeta in Hrun. cbn [output lineNumber streamLog] in Hrun, Hn.
  split.
  - assert (List.filter isErrorEntry ([processingLog fileName] ++ warned)
            = []) as Hstart
      by (apply filter_no_error; constructor; [reflexivity|exact Hw]).
    rewrite Hstart in Hrun.
    set (st := foldl _ _ rows) in *.
    rewrite List.filter_app, length_app.
    change (List.filter isErrorEntry [successLog fileName])
      with (@nil LogEntry).
    cbn [length] in *. lia.
  - exists delimiter, warned, rows. split; [reflexivity|].
    split; [exact Hp|]. rewrite Hn. reflexivity.
Qed.

Lemma rows_accounted_witness :
  let good := JObj (rowOfCells [(js "tipo", js "Queda")]) in
  let h := mkHost (js "data") (fun _ => Some (js "tipo,data"))
                  (fun _ _ => Some [good; JNull; JUndefined; good]) in
  let st := fst (preprocessFile h (js "x.csv") csv_format) in
  snd (preprocessFile h (js "x.csv") csv_format) = true
  /\ (length (output st) + length (List.filter isErrorEntry (streamLog st))
      = lineNumber st)%nat
  /\ length (output st) = 2%nat
  /\ lineNumber st = 4%nat.
Proof.
  cbn zeta. split; [reflexivity|].
  destruct (rows_accounted
              (mkHost (js "data") (fun _ => Some (js "tipo,data"))
                      (fun _ _ => Some [JObj (rowOfCells [(js "tipo", js "Queda")]);
                                        JNull; JUndefined;
                                        JObj (rowOfCells
                                                [(js "tipo", js "Queda")])]))
              (js "x.csv") csv_format eq_refl) as (Hsum & _).
  split; [exact Hsum|]. vm_compute. auto.
Defined.

(** ** One line per record *)






Lemma outputLine_strings (t s d m : jsstring) :
  outputLine (mkRow (JStr t) (JStr s) d m)
  = jsonOfStrings [ (js "tipo", t); (js "situacao", s);
                    (js "datahora", d); (js "meta", m) ] ++ [ch_lf].
Proof.
  unfold outputLine. cbn [tipo situacao datahora meta].
  change (JObj [(js "tipo", JStr t); (js "situacao", JStr s);
                (js "datahora", JStr d); (js "meta", JStr m)])
    with (JObj (rowOfCells [(js "tipo", t); (js "situacao", s);
                            (js "datahora", d); (js "meta", m)])).
  rewrite stringify_rowOfCells. reflexivity.
Qed.





(** ** Output names and delimiters *)

Lemma startsWith_app (p r : jsstring) : startsWith p (p ++ r) = true.
Proof.
  induction p as [|c p IH]; simpl; [reflexivity|].
  rewrite N.eqb_refl. exact IH.
Qed.

Lemma endsWith_app (p s : jsstring) : endsWith p (s ++ p) = true.
Proof. unfold endsWith. rewrite rev_app_distr. apply startsWith_app. Qed.

Lemma outputFileName_ext (stem ext : jsstring) :
  length ext = 4%nat ->
  endsWith (js ".csv") (stem ++ ext) || endsWith (js ".tsv") (stem ++ ext)
  = true ->
  outputFileName (stem ++ ext) = stem ++ js "_processed.ndjson".
Proof.
  intros Hlen Hends. unfold outputFileName. rewrite Hends.
  rewrite length_app, Hlen.
  replace (length stem + 4 - 4)%nat with (length stem) by lia.
  rewrite take_app_length. reflexivity.
Qed.

(** X19: The inputs [x.csv] and [x.tsv] share one output name, so that in a
    directory that holds both the second is written over the first; a
    name with any other ending is written under the input's own name. *)
Theorem outputFileName_collides (h : Host) (stem : jsstring) :
  outputFileName (stem ++ js ".csv") = stem ++ js "_processed.ndjson"
  /\ outputFileName (stem ++ js ".tsv") = stem ++ js "_processed.ndjson"
  /\ (fst (preprocessAllFiles h [stem ++ js ".csv"; stem ++ js ".tsv"])).*1
     = [stem ++ js "_processed.ndjson"; stem ++ js "_processed.ndjson"]
  /\ forall name,
       endsWith (js ".csv") name = false ->
       endsWith (js ".tsv") name = false ->
       outputFileName name = name.
Proof.
  assert (outputFileName (stem ++ js ".csv") = stem ++ js "_processed.ndjson")
    as Hcsv.
  { apply outputFileName_ext; [reflexivity|].
    rewrite endsWith_app. reflexivity. }
  assert (outputFileName (stem ++ js ".tsv") = stem ++ js "_processed.ndjson")
    as Htsv.
  { apply outputFileName_ext; [reflexivity|].
    rewrite (endsWith_app (js ".tsv")). apply orb_true_r. }
  split; [exact Hcsv|]. split; [exact Htsv|]. split.
  - unfold preprocessAllFiles. cbn [List.map fst fmap list_fmap].
    rewrite Hcsv, Htsv. reflexivity.
  - intros name H1 H2. unfold outputFileName. rewrite H1, H2. reflexivity.
Qed.

(** X20: The declared format of a file plays no part: what is written and
    logged for a file depends on the parser only through the rows it
    gives for the delimiter found in the file's first line. *)
Theorem delimiter_by_content (h1 h2 : Host) (fileName : jsstring)
    (format1 format2 : FileFormat) :
  inputDir h1 = inputDir h2 ->
  (forall path, readFileSync h1 path = readFileSync h2 path) ->
  (forall path content,
     readFileSync h1 path = Some content ->
     fastCsvParse h1 (delimiterOfLine (textBefore ch_lf content)) path
     = fastCsvParse h2 (delimiterOfLine (textBefore ch_lf content)) path) ->
  preprocessFile h1 fileName format1 = preprocessFile h2 fileName format2.
Proof.
  intros Hdir Hread Hparse. unfold preprocessFile, detectDelimiter.
  rewrite <- Hdir, <- Hread.
  destruct (readFileSync h1 _) as [content|] eqn:Hc; [|reflexivity].
  pose proof (detectDelimiterIn_line (pathJoin (inputDir h1) fileName) content)
    as Hline.
  destruct (detectDelimiterIn _ content) as [delimiter warned].
  cbn [fst] in Hline. subst delimiter.
  rewrite <- (Hparse _ _ Hc). reflexivity.
Qed.

Lemma delimiter_by_content_witness :
  let rows := [JObj (rowOfCells [(js "tipo", js "Queda")])] in
  let h1 := mkHost (js "data") (fun _ => Some (js "tipo;data"))
                   (fun _ _ => Some rows) in
  let h2 := mkHost (js "data") (fun _ => Some (js "tipo;data"))
                   (fun d _ => if bool_decide (d = [ch_semicolon])
                               then Some rows else None) in
  preprocessFile h1 (js "x.csv") csv_format
  = preprocessFile h2 (js "x.csv") tsv_format.
Proof.
  cbn zeta.
  apply (delimiter_by_content
           (mkHost (js "data") (fun _ => Some (js "tipo;data"))
                   (fun _ _ => Some [JObj (rowOfCells [(js "tipo", js "Queda")])]))
           (mkHost (js "data") (fun _ => Some (js "tipo;data"))
                   (fun d _ => if bool_decide (d = [ch_semicolon])
                               then Some [JObj (rowOfCells
                                                  [(js "tipo", js "Queda")])]
                               else None))).
  - reflexivity.
  - reflexivity.
  - intros path content [= <-]. vm_compute. reflexivity.
Defined.

(** ** Addresses *)

Lemma elem_of_dropWhile_keep {A} (p : A -> bool) (x : A) (l : list A) :
  x ∈ l -> p x = false -> x ∈ dropWhile p l.
Proof.
  intros Hin Hx. induction l as [|y l IH]; simpl; [exact Hin|].
  destruct (p y) eqn:Hy; [|exact Hin].
  apply elem_of_cons in Hin. destruct Hin as [->|Hin]; [congruence|].
  apply IH. exact Hin.
Qed.

Lemma elem_of_trim_keep (x : N) (s : jsstring) :
  x ∈ s -> isWhiteSpace x = false -> x ∈ trim s.
Proof.
  intros Hin Hx. unfold trim, trimEnd, trimStart.
  apply list_elem_of_In, in_rev. rewrite rev_involutive.
  apply list_elem_of_In, elem_of_dropWhile_keep; [|exact Hx].
  apply list_elem_of_In, in_rev. rewrite rev_involutive.
  apply list_elem_of_In, elem_of_dropWhile_keep; assumption.
Qed.

(** X21: The address searched is never empty, it always holds a comma: for a
    record with neither street nor district it is the lone comma.  And a
    street with a number whose district is missing is searched with the
    word [undefined] in the district's place. *)
Theorem extractAddress_never_empty :
  (forall meta, ch_comma ∈ Geocode.extractAddress meta)
  /\ (forall meta,
        Geocode.nonEmpty (meta !! js "endereco") = false ->
        Geocode.nonEmpty (meta !! js "bairro") = false ->
        Geocode.extractAddress meta = [ch_comma])
  /\ (forall meta street number,
        meta !! js "endereco" = Some street -> street <> [] ->
        meta !! js "numero" = Some number -> number <> [] ->
        meta !! js "bairro" = None ->
        Geocode.extractAddress meta
        = street ++ js ", " ++ number ++ js ", undefined").
Proof.
  assert (forall a b : jsstring, ch_comma ∈ a ++ js ", " ++ b) as Hcomma.
  { intros a b. apply elem_of_app. right. left. }
  split; [|split].
  - intros meta. unfold Geocode.extractAddress. cbv zeta.
    repeat match goal with
           | |- context [if ?b then _ else _] => destruct b
           end.
    + apply Hcomma.
    + apply Hcomma.
    + apply elem_of_app. right. apply elem_of_app. right. apply Hcomma.
    + apply elem_of_trim_keep; [apply Hcomma|reflexivity].
  - intros meta He Hb. unfold Geocode.extractAddress. cbv zeta.
    rewrite He. cbn [andb].
    destruct (meta !! js "endereco") as [[|c e]|]; try discriminate;
      destruct (meta !! js "bairro") as [[|d b]|]; try discriminate;
      reflexivity.
  - intros meta street number He Hs Hn Hnum Hb.
    unfold Geocode.extractAddress. cbv zeta. rewrite He, Hn, Hb.
    destruct street as [|c street]; [congruence|].
    destruct number as [|d number]; [congruence|].
    reflexivity.
Qed.

Lemma lookupCell_absent (cells : list (jsstring * jsstring)) (k : jsstring) :
  k ∉ cells.*1 -> lookupCell cells k = None.
Proof.
  induction cells as [|[k' v] cells IH]; simpl; intros Hk; [reflexivity|].
  rewrite bool_decide_eq_false_2.
  - apply IH. intros Hin. apply Hk. right. exact Hin.
  - intros ->. apply Hk. left.
Qed.

Lemma objectOfEntries_lookup (cells : list (jsstring * jsstring))
    (k : jsstring) :
  NoDup (cells.*1) -> Geocode.objectOfEntries cells !! k = lookupCell cells k.
Proof.
  unfold Geocode.objectOfEntries.
  assert (forall o : gmap jsstring jsstring,
             NoDup (cells.*1) ->
             foldl (fun o kv => <[fst kv := snd kv]> o) o cells !! k
             = match lookupCell cells k with
               | Some v => Some v
               | None => o !! k
               end) as Hgen.
  { induction cells as [|[k' v] cells IH]; intros o Hnd; [reflexivity|].
    cbn [foldl fst snd lookupCell]. cbn [fmap list_fmap fst] in Hnd.
    apply NoDup_cons in Hnd. destruct Hnd as [Hk' Hnd].
    rewrite (IH _ Hnd). case_bool_decide as Hk.
    - subst k'. rewrite (lookupCell_absent cells k Hk').
      apply lookup_insert_eq.
    - destruct (lookupCell cells k); [reflexivity|].
      apply lookup_insert_ne. exact Hk. }
  intros Hnd. rewrite (Hgen ∅ Hnd).
  destruct (lookupCell cells k); [reflexivity|apply lookup_empty].
Qed.

Lemma lookupCell_residual (cells : list (jsstring * jsstring)) (k : jsstring) :
  k ∉ consumedKeys -> lookupCell (residualCells cells) k = lookupCell cells k.
Proof.
  intros Hk. unfold residualCells.
  induction cells as [|[k' v] cells IH]; [reflexivity|].
  cbn [List.filter fst lookupCell].
  destruct (bool_decide (k' ∈ consumedKeys)) eqn:Hc; cbn [negb lookupCell].
  - rewrite bool_decide_eq_false_2; [exact IH|].
    intros ->. apply bool_decide_eq_true_1 in Hc. contradiction.
  - rewrite IH. reflexivity.
Qed.

(** X22: From a row to the address searched for it: the line written for a
    row of the parser reads back as JSON, its field [meta] reads back in
    turn, and the address made of it is the one of the row itself, none
    of the columns an address is made of being among those the transform
    takes out of [meta]. *)
Theorem address_of_written_row (n : nat) (cells : list (jsstring * jsstring)) :
  NoDup (cells.*1) ->
  exists logged r body fields metaText,
    buildRow n (JObj (rowOfCells cells)) = (logged, inr r)
    /\ outputLine r = body ++ [ch_lf]
    /\ parseFlatObject body = Some fields
    /\ lookupCell fields (js "meta") = Some metaText
    /\ Geocode.addressOfRow metaText
       = Some (Geocode.extractAddress (Geocode.objectOfEntries cells)).
Proof.
  intros Hnd. rewrite buildRow_cells. cbv zeta.
  eexists _, _, _, _, _. split; [reflexivity|].
  rewrite outputLine_strings.
  split; [reflexivity|]. split; [apply parseFlatObject_roundtrip|].
  split; [reflexivity|].
  rewrite metaObject_residual by (rewrite rowOfCells_keys; exact Hnd).
  rewrite residual_rowOfCells, stringify_rowOfCells.
  unfold Geocode.addressOfRow, Geocode.parseMeta.
  rewrite parseFlatObject_roundtrip. cbn [fmap option_fmap option_map].
  f_equal.
  assert (forall k,
             k ∉ consumedKeys ->
             Geocode.objectOfEntries (residualCells cells) !! k
             = Geocode.objectOfEntries cells !! k) as Hsame.
  { intros k Hk.
    rewrite !objectOfEntries_lookup
      by first [exact Hnd | apply residualCells_NoDup; exact Hnd].
    apply lookupCell_residual. exact Hk. }
  unfold Geocode.extractAddress. cbv zeta.
  rewrite !Hsame by (apply (bool_decide_unpack _); vm_compute; exact I).
  reflexivity.
Qed.

Lemma address_of_written_row_witness :
  exists logged r body fields metaText,
    buildRow 1 (JObj (rowOfCells [(js "tipo", js "Queda");
                                  (js "endereco", js "Rua da Aurora");
                                  (js "numero", js "100")]))
    = (logged, inr r)
    /\ outputLine r = body ++ [ch_lf]
    /\ parseFlatObject body = Some fields
    /\ lookupCell fields (js "meta") = Some metaText
    /\ Geocode.addressOfRow metaText
       = Some (js "Rua da Aurora, 100, undefined").
Proof.
  assert (NoDup ([(js "tipo", js "Queda");
                  (js "endereco", js "Rua da Aurora");
                  (js "numero", js "100")].*1)) as Hnd
    by (apply (bool_decide_unpack _); vm_compute; exact I).
  destruct (address_of_written_row 1 _ Hnd)
    as (logged & r & body & fields & metaText & Hr & Hl & Hp & Hm & Ha).
  exists logged, r, body, fields, metaText.
  split; [exact Hr|]. split; [exact Hl|]. split; [exact Hp|].
  split; [exact Hm|]. rewrite Ha. vm_compute. reflexivity.
Defined.

(** X23: The output of an input in .csv or .tsv has a name in .ndjson, which is
    what the geocoding test collects; the output of any other input keeps
    the input's name, and is collected only if that name is in .ndjson
    already. *)
Theorem output_collected (name : jsstring) :
  Geocode.isNdjsonFile (outputFileName name) = true
  <-> endsWith (js ".csv") name = true \/ endsWith (js ".tsv") name = true
      \/ endsWith (js ".ndjson") name = true.
Proof.
  unfold Geocode.isNdjsonFile, outputFileName.
  destruct (endsWith (js ".csv") name || endsWith (js ".tsv") name) eqn:Hext.
  - split.
    + intros _. apply orb_true_iff in Hext. tauto.
    + intros _.
      change (js "_processed.ndjson") with (js "_processed" ++ js ".ndjson").
      rewrite app_assoc. apply endsWith_app.
  - apply orb_false_iff in Hext. destruct Hext as [-> ->]. split.
    + intros H. right. right. exact H.
    + intros [H|[H|H]]; [discriminate|discriminate|exact H].
Qed.

(** *** Instances *)

Lemma outputFileName_collides_witness :
  outputFileName (js "sinistros.txt") = js "sinistros.txt"
  /\ outputFileName (js "a.csv") = outputFileName (js "a.tsv").
Proof.
  destruct (outputFileName_collides (mkHost [] (fun _ => None) (fun _ _ => None))
              (js "a")) as (Hcsv & Htsv & _ & Hother).
  split; [apply Hother; reflexivity|].
  change (js "a.csv") with (js "a" ++ js ".csv").
  change (js "a.tsv") with (js "a" ++ js ".tsv").
  rewrite Hcsv, Htsv. reflexivity.
Defined.

Lemma extractAddress_never_empty_witness :
  Geocode.extractAddress (<[js "complemento" := js "casa"]> ∅) = [ch_comma]
  /\ Geocode.extractAddress
       (<[js "endereco" := js "Rua da Aurora"]> (<[js "numero" := js "100"]> ∅))
     = js "Rua da Aurora, 100, undefined".
Proof.
  destruct extractAddress_never_empty as (_ & Hnone & Hundef). split.
  - apply Hnone; vm_compute; reflexivity.
  - apply (Hundef _ (js "Rua da Aurora") (js "100"));
      first [discriminate | vm_compute; reflexivity].
Defined.

Lemma output_collected_witness :
  Geocode.isNdjsonFile (outputFileName (js "sinistros_2020.tsv")) = true.
Proof. apply output_collected. right. left. reflexivity. Defined.

Lemma normalizeTime_idempotent_witness :
  normalizeTime (js "meio-dia") = []
  /\ normalizeTime (normalizeTime (js "7:5")) = js "07:05:00".
Proof.
  destruct normalizeTime_idempotent as [Hempty Hidem]. split.
  - apply Hempty. apply (bool_decide_unpack _). vm_compute. exact I.
  - rewrite Hidem. reflexivity.
Defined.
